(** * sical-ws: XSIG / Facturae extraction and conformity reports

    A shallow embedding of the extraction core of the service
    ([core/xsig_pdf.py], [core/areas.py], [core/service.py] and the payload
    validator of [api/main.py]) together with the properties stated about
    it, and of the helpers around it ([core/utils.py], [_html_escape] of
    [core/pdf.py], the number formats of the layout and of [api/main.py]).

    Conventions of the embedding:
    - a Python [bytes] value is a [list byte];
    - a Python [str] is a [string] whose characters are code points below
      256 (the Latin-1 range); the character classes of the builtins
      ([str.isspace], [str.isdigit], ...) are written out on that range;
    - a Python [dict] with string keys is a [gmap string _];
    - an [xml.etree.ElementTree.Element] is a rose tree [Element];
    - a raised exception is the [Raise] case of the result type [exn], and
      carries the text of [str(e)];
    - instants are integers (microseconds since the epoch, UTC), and the
      reading of the clock is an argument of the functions that take it,
      the date parser among them; one run reads the clock once;
    - the integers are unbounded, and the conversions between [int] and
      [str] have the limit of the interpreter, 4300 digits;
    - the calls into [cryptography], [dateutil] and [datetime] are the
      fields of the class [Externals], the file system is a record
      [FileSystem], and the state of [functools.lru_cache] is passed
      explicitly. *)

From Stdlib Require Import ZArith List String Ascii Lia Bool.
From Stdlib.Strings Require Import Byte.
From Stdlib Require Import DecimalString DecimalN DecimalFacts.
From stdpp Require Import gmap strings list fin_maps.

Local Open Scope Z_scope.
#[local] Set Warnings "-register-all".

(** ** Python [bytes] *)

Module PyBytes.

#[global] Instance byte_eq_dec : EqDecision byte := Byte.byte_eq_dec.

(** [l.startswith(sub)] *)
Fixpoint startswith (sub l : list byte) : bool :=
  match sub, l with
  | [], _ => true
  | _ :: _, [] => false
  | a :: sub', b :: l' => bool_decide (a = b) && startswith sub' l'
  end.

(** [l.find(sub)], scanning from the left; the accumulator is the index of
    the head of [l] in the original sequence. *)
Fixpoint find_from (sub l : list byte) (i : Z) : Z :=
  if startswith sub l then i
  else match l with
       | [] => -1
       | _ :: l' => find_from sub l' (i + 1)
       end.

Definition find (l sub : list byte) : Z := find_from sub l 0.

(** [l.rfind(sub)]: the highest index at which [sub] starts. *)
Fixpoint rfind_from (sub l : list byte) (i : Z) : Z :=
  match l with
  | [] => if startswith sub [] then i else -1
  | _ :: l' =>
      let r := rfind_from sub l' (i + 1) in
      if r =? -1 then (if startswith sub l then i else -1) else r
  end.

Definition rfind (l sub : list byte) : Z := rfind_from sub l 0.

(** Index normalisation of a slice bound: negative bounds count from the
    end, and every bound is clamped to [0, len]. *)
Definition clamp_index (len i : Z) : Z :=
  if i <? 0 then Z.max (i + len) 0 else Z.min i len.

(** [l[a:b]] *)
Definition slice {A} (l : list A) (a b : Z) : list A :=
  let len := Z.of_nat (length l) in
  let a' := clamp_index len a in
  let b' := clamp_index len b in
  take (Z.to_nat (b' - a')) (drop (Z.to_nat a') l).

End PyBytes.

(** ** Python [str] *)

Module PyStr.

Definition ord (c : ascii) : N := N_of_ascii c.

Definition in_range (lo hi : N) (c : ascii) : bool :=
  ((lo <=? ord c) && (ord c <=? hi))%N.

(** [c.isspace()]: TAB..CR, FS..US, SPACE, NEL and NBSP. *)
Definition isspace (c : ascii) : bool :=
  in_range 9 13 c || in_range 28 32 c || (ord c =? 133)%N || (ord c =? 160)%N.

(** [c.isdecimal()]: the ten ASCII digits. *)
Definition isdecimal (c : ascii) : bool := in_range 48 57 c.

(** [c.isdigit()]: the decimal digits and the superscripts 1, 2 and 3. *)
Definition isdigit_char (c : ascii) : bool :=
  isdecimal c || (ord c =? 178)%N || (ord c =? 179)%N || (ord c =? 185)%N.

Definition is_sign (c : ascii) : bool := (ord c =? 43)%N || (ord c =? 45)%N.

Fixpoint lstrip_by (p : ascii → bool) (s : string) : string :=
  match s with
  | EmptyString => EmptyString
  | String c s' => if p c then lstrip_by p s' else s
  end.

Fixpoint rstrip_by (p : ascii → bool) (s : string) : string :=
  match s with
  | EmptyString => EmptyString
  | String c s' =>
      match rstrip_by p s' with
      | EmptyString => if p c then EmptyString else String c EmptyString
      | r => String c r
      end
  end.

(** [s.strip()] *)
Definition strip (s : string) : string := lstrip_by isspace (rstrip_by isspace s).

Fixpoint mem_char (c : ascii) (chars : string) : bool :=
  match chars with
  | EmptyString => false
  | String d chars' => Ascii.eqb c d || mem_char c chars'
  end.

(** [s.rstrip(chars)] *)
Definition rstrip (chars s : string) : string :=
  rstrip_by (λ c, mem_char c chars) s.

Fixpoint all_chars (p : ascii → bool) (s : string) : bool :=
  match s with
  | EmptyString => true
  | String c s' => p c && all_chars p s'
  end.

(** [bool(s)] and the idiom [x or d] on strings. *)
Definition truthy (s : string) : bool :=
  match s with EmptyString => false | _ => true end.

Definition or_str (x d : string) : string := if truthy x then x else d.

(** [s.isdigit()] *)
Definition isdigit (s : string) : bool := truthy s && all_chars isdigit_char s.

Fixpoint zeros (n : nat) : string :=
  match n with O => EmptyString | S n' => String "0" (zeros n') end.

(** [s.zfill(width)]: the zeros go after a leading sign. *)
Definition zfill (width : nat) (s : string) : string :=
  let n := String.length s in
  if (width <=? n)%nat then s
  else match s with
       | String c s' =>
           if is_sign c then String c (zeros (width - n) +:+ s')
           else zeros (width - n) +:+ s
       | EmptyString => zeros (width - n)
       end.

(** [sep.join(l)] *)
Fixpoint join (sep : string) (l : list string) : string :=
  match l with
  | [] => EmptyString
  | [x] => x
  | x :: l' => x +:+ sep +:+ join sep l'
  end.

(** [s.replace(old, new)] for a one-character [old]. *)
Fixpoint replace_char (old : ascii) (new s : string) : string :=
  match s with
  | EmptyString => EmptyString
  | String c s' =>
      if Ascii.eqb c old then new +:+ replace_char old new s'
      else String c (replace_char old new s')
  end.

(** [str(n)] for an integer. *)
Definition str_of_Z (n : Z) : string :=
  if n <? 0 then String "-" (NilZero.string_of_uint (N.to_uint (Z.to_N (- n))))
  else NilZero.string_of_uint (N.to_uint (Z.to_N n)).

Definition digit_value (c : ascii) : Z := Z.of_N (ord c) - 48.

(** The white space that [int()] and [float()] skip at both ends: the
    conversion maps the non-ASCII spaces to a blank and then skips the C
    white space, which leaves out FS..US. *)
Definition isspace_numeric (c : ascii) : bool :=
  in_range 9 13 c || (ord c =? 32)%N || (ord c =? 133)%N || (ord c =? 160)%N.

Definition strip_numeric (s : string) : string :=
  lstrip_by isspace_numeric (rstrip_by isspace_numeric s).

(** Decimal digits with single underscores between them; [need] holds when
    the next character has to be a digit. *)
Fixpoint int_digits (need : bool) (acc : Z) (s : string) : option Z :=
  match s with
  | EmptyString => if need then None else Some acc
  | String c s' =>
      if isdecimal c then int_digits false (10 * acc + digit_value c) s'
      else if Ascii.eqb c "_" then (if need then None else int_digits true acc s')
      else None
  end.

(** The limit of the interpreter on the conversions between [int] and
    [str], [sys.get_int_max_str_digits()]; the code leaves it at its
    default. *)
Definition INT_MAX_STR_DIGITS : Z := 4300.

(** The number of decimal digits in [s]. *)
Fixpoint count_decimal (s : string) : Z :=
  match s with
  | EmptyString => 0
  | String c s' => (if isdecimal c then 1 else 0) + count_decimal s'
  end.

(** The digits of an integer literal, after its sign: a literal with more
    than [INT_MAX_STR_DIGITS] digits is refused, leading zeros included. *)
Definition int_literal (s : string) : option Z :=
  if INT_MAX_STR_DIGITS <? count_decimal s then None else int_digits true 0 s.

(** [int(s)], in base 10; [None] stands for [ValueError]. *)
Definition int (s : string) : option Z :=
  match strip_numeric s with
  | String c s' =>
      if Ascii.eqb c "-" then Z.opp <$> int_literal s'
      else if Ascii.eqb c "+" then int_literal s'
      else int_literal (String c s')
  | EmptyString => None
  end.

(** [f"{n:02d}"]: the zero fill is sign-aware, as [zfill] is. *)
Definition format_02d (n : Z) : string := zfill 2 (str_of_Z n).

(** The [str] denoted by a literal of the source text, which is written in
    UTF-8: the two-byte sequences of the code points 128..255 are decoded.
    Longer sequences (code points from 2048 on) are outside the range of
    the embedding and are kept byte for byte; the only such literal is the
    dash that separates the two dates of a line period, which the modelled
    code concatenates and never inspects. *)
Fixpoint lit (s : string) : string :=
  match s with
  | String c1 ((String c2 s') as t) =>
      if (ord c1 =? 194)%N then String c2 (lit s')
      else if (ord c1 =? 195)%N then String (ascii_of_N (ord c2 + 64)) (lit s')
      else String c1 (lit t)
  | _ => s
  end.

End PyStr.

(** ** Python [float]: parsing a literal and the [.2f] format *)

Module PyFloat.
Import PyStr.

(** A binary64 value: [Fin neg m e] is [(-1)^neg * m * 2^e], with
    [0 <= m < 2^53] and [-1074 <= e <= 971]. *)
Inductive float : Type :=
  | Nan
  | Inf (neg : bool)
  | Fin (neg : bool) (m e : Z).

(** [num / den] rounded to the nearest integer, ties to even. *)
Definition div_half_even (num den : Z) : Z :=
  let q := num / den in
  let r := num mod den in
  if 2 * r <? den then q
  else if den <? 2 * r then q + 1
  else if Z.even q then q else q + 1.

(** [d * 2^k <= n], for any sign of [k]. *)
Definition scaled_le (d k n : Z) : bool :=
  if 0 <=? k then d * 2 ^ k <=? n else d <=? n * 2 ^ (- k).

(** The binary64 value nearest to [n / d], for [0 <= n] and [0 < d]. *)
Definition round_binary64 (neg : bool) (n d : Z) : float :=
  if n =? 0 then Fin neg 0 0
  else
    let e0 := Z.log2 n - Z.log2 d in
    let ex := if scaled_le d e0 n then e0 else e0 - 1 in
    let q := Z.max (ex - 52) (-1074) in
    let m := if 0 <=? q then div_half_even n (d * 2 ^ q)
             else div_half_even (n * 2 ^ (- q)) d in
    let '(m, q) := if m =? 2 ^ 53 then (2 ^ 52, q + 1) else (m, q) in
    if 971 <? q then Inf neg else Fin neg m q.

(** The value of the decimal [D * 10^x]. *)
Definition round_decimal (neg : bool) (D x : Z) : float :=
  if 0 <=? x then round_binary64 neg (D * 10 ^ x) 1
  else round_binary64 neg D (10 ^ (- x)).

Definition lower_char (c : ascii) : ascii :=
  if in_range 65 90 c then ascii_of_N (ord c + 32) else c.

Fixpoint lower (s : string) : string :=
  match s with
  | EmptyString => EmptyString
  | String c s' => String (lower_char c) (lower s')
  end.

(** Underscores may only stand between two digits; they are dropped.
    [prev] is the character before [s]. *)
Fixpoint strip_underscores (prev : ascii) (s : string) : option string :=
  match s with
  | EmptyString => if Ascii.eqb prev "_" then None else Some EmptyString
  | String c s' =>
      if Ascii.eqb c "_" then
        (if isdecimal prev then strip_underscores c s' else None)
      else if Ascii.eqb prev "_" && negb (isdecimal c) then None
      else String c <$> strip_underscores c s'
  end.

Definition parse_sign (s : string) : bool * string :=
  match s with
  | String c r =>
      if Ascii.eqb c "-" then (true, r)
      else if Ascii.eqb c "+" then (false, r)
      else (false, s)
  | EmptyString => (false, s)
  end.

(** The longest run of digits at the head of [s]: its value on top of
    [acc], its length on top of [n], and what follows it. *)
Fixpoint span_digits (acc : Z) (n : nat) (s : string) : Z * nat * string :=
  match s with
  | String c s' =>
      if isdecimal c then span_digits (10 * acc + digit_value c) (S n) s'
      else (acc, n, s)
  | EmptyString => (acc, n, s)
  end.

(** What follows the mantissa: nothing, or [e] and a signed integer. *)
Definition parse_exponent (s : string) : option Z :=
  match s with
  | EmptyString => Some 0
  | String c r =>
      if Ascii.eqb (lower_char c) "e" then
        let '(neg, r1) := parse_sign r in
        let '(x, n, r2) := span_digits 0 0 r1 in
        if (n =? 0)%nat || truthy r2 then None
        else Some (if neg then - x else x)
      else None
  end.

(** [digits [. digits] [exponent]] or [. digits [exponent]]: the digits as
    an integer and the power of ten that scales it. *)
Definition parse_number (s : string) : option (Z * Z) :=
  let '(ip, ni, r) := span_digits 0 0 s in
  let '(D, nf, r') :=
    match r with
    | String c r1 => if Ascii.eqb c "." then span_digits ip 0 r1 else (ip, 0%nat, r)
    | EmptyString => (ip, 0%nat, r)
    end in
  if (ni + nf =? 0)%nat then None
  else x ← parse_exponent r'; Some (D, x - Z.of_nat nf).

(** [float(s)]; [None] stands for [ValueError]. *)
Definition float_of_str (s : string) : option float :=
  t ← strip_underscores zero (strip_numeric s);
  let '(neg, r) := parse_sign t in
  if bool_decide (lower r = "inf") || bool_decide (lower r = "infinity") then Some (Inf neg)
  else if bool_decide (lower r = "nan") then Some Nan
  else '(D, x) ← parse_number r; Some (round_decimal neg D x).

Definition two_digits (n : Z) : string := zfill 2 (str_of_Z n).

(** [f"{v:.2f}"]: the exact binary value, rounded to hundredths with ties
    to even. *)
Definition format_2f (v : float) : string :=
  match v with
  | Nan => "nan"
  | Inf neg => if neg then "-inf" else "inf"
  | Fin neg m e =>
      let h := if 0 <=? e then 100 * m * 2 ^ e
               else div_half_even (100 * m) (2 ^ (- e)) in
      (if neg then "-" else "") +:+ str_of_Z (h / 100) +:+ "." +:+ two_digits (h mod 100)
  end.

End PyFloat.

(** ** Raised exceptions *)

Module Exn.

Inductive exn (A : Type) : Type :=
  | Return (a : A)
  | Raise (msg : string).
Arguments Return {A} a.
Arguments Raise {A} msg.

Definition bind {A B} (m : exn A) (k : A → exn B) : exn B :=
  match m with
  | Return a => k a
  | Raise e => Raise e
  end.

(** [try: m  except Exception as e: h e] *)
Definition try_except {A} (m : exn A) (h : string → exn A) : exn A :=
  match m with
  | Return a => Return a
  | Raise e => h e
  end.

(** [try: m  except Exception: d], with a handler that cannot raise. *)
Definition try_default {A} (m : exn A) (d : A) : A :=
  match m with
  | Return a => a
  | Raise _ => d
  end.

End Exn.

#[global] Instance exn_ret : MRet Exn.exn := λ A a, Exn.Return a.
#[global] Instance exn_bind : MBind Exn.exn := λ A B k m, Exn.bind m k.

(** ** xml.etree.ElementTree *)

Module ET.

Inductive Element : Type :=
  | Elem (tag : string) (text : option string) (children : list Element).

Definition tag (e : Element) : string := let 'Elem t _ _ := e in t.
Definition text (e : Element) : option string := let 'Elem _ x _ := e in x.
Definition children (e : Element) : list Element := let 'Elem _ _ cs := e in cs.

(** The proper descendants of an element in document order, as
    [Element.iter()] visits them after the element itself. *)
Fixpoint descendants (e : Element) : list Element :=
  match e with
  | Elem _ _ cs => flat_map (λ c, c :: descendants c) cs
  end.

(** One step of a path: [tag] selects children, [.//tag] (or [//tag] after
    a step) selects proper descendants. *)
Inductive step : Type :=
  | Child (t : string)
  | Desc (t : string).

Definition select (st : step) (e : Element) : list Element :=
  match st with
  | Child t => filter (λ c, tag c = t) (children e)
  | Desc t => filter (λ c, tag c = t) (descendants e)
  end.

Fixpoint iterfind (path : list step) (ctx : list Element) : list Element :=
  match path with
  | [] => ctx
  | st :: path' => iterfind path' (flat_map (select st) ctx)
  end.

Definition findall (e : Element) (path : list step) : list Element :=
  iterfind path [e].

Definition find (e : Element) (path : list step) : option Element :=
  head (findall e path).

(** [e.findtext(path, default=d)]: an element without text gives [""]. *)
Definition findtext (e : Element) (path : list step) (d : string) : string :=
  match find e path with
  | Some el => default EmptyString (text el)
  | None => d
  end.

End ET.

(** ** The libraries behind the signature block and the dates *)

Module Lib.
Import Exn.

(** What the validator reads from a decoded X.509 certificate. Each
    attribute lookup may raise; the validity window is given in UTC, which
    is what both the [*_utc] properties and the normalised naive ones
    denote. *)
Record Certificate : Type := {
  subject_common_name : exn string;
  subject_serial_number : exn string;
  issuer_common_name : exn string;
  signature_hash_algorithm_name_upper : exn string;
  not_valid_before_utc : Z;
  not_valid_after_utc : Z;
}.

(** The calls into [base64], [cryptography], [dateutil] and [datetime]:
    - [load_certificate t]: [x509.load_der_x509_certificate(base64.b64decode(t))];
    - [parse_datetime now t]: [dateutil.parser.parse(t)] brought to UTC,
      when the clock reads [now]: the parser takes the fields that the text
      omits (the date of ["10:30"], the day of ["2024-05"]) from the date
      of [datetime.now()], in the time zone of the machine; its reading of
      the clock and the one of the validator are taken as one;
    - [strftime_Ymd i]: [i.strftime("%Y-%m-%d")];
    - [reformat_date d]:
      [datetime.strptime(d, "%Y-%m-%d").strftime("%d/%m/%Y")]. *)
Class Externals : Type := {
  load_certificate : string → exn Certificate;
  parse_datetime : Z → string → exn Z;
  strftime_Ymd : Z → string;
  reformat_date : string → exn string;
}.

End Lib.

(** ** core/xsig_pdf.py: the container unwrapper *)

Module Unwrapper.
Import PyBytes.

(** [b"<?xml"] *)
Definition xml_marker : list byte := Eval cbv in list_byte_of_string "<?xml".

(** [b">"] *)
Definition gt_marker : list byte := Eval cbv in list_byte_of_string ">".

Definition _extract_xml_from_xsig_bytes (xsig_bytes : list byte) : list byte :=
  let xml_start := find xsig_bytes xml_marker in
  let xml_end := rfind xsig_bytes gt_marker + 1 in
  if negb (xml_start =? -1) && (xml_end >? xml_start)
  then slice xsig_bytes xml_start xml_end
  else xsig_bytes.

End Unwrapper.

(** ** core/xsig_pdf.py: the signature validator and the invoice extractor *)

Module XsigPdf.
Import PyStr PyFloat Exn ET Lib.

Definition NA : string := "N/A".

(** The keys and texts of the source that carry accents. *)
Definition k_Direccion : string := Eval cbv in lit "Dirección".
Definition msg_no_certificate : string := Eval cbv in lit "No se encontró certificado".
Definition msg_not_yet_valid : string :=
  Eval cbv in lit "Certificado aún no válido (vigencia futura)".
Definition msg_expired : string := "Certificado caducado".
Definition msg_currently_valid : string :=
  Eval cbv in lit "Certificado actualmente válido".
Definition msg_valid_at_signing : string :=
  Eval cbv in lit "Certificado válido en la fecha de la firma".
Definition msg_not_valid_at_signing : string :=
  Eval cbv in lit "Certificado NO era válido en la fecha de la firma".
Definition EN_DASH : string := Eval cbv in lit "–".

(** The qualified names [ds:X509Certificate] and [xades:SigningTime]. *)
Definition ds_X509Certificate : string :=
  "{http://www.w3.org/2000/09/xmldsig#}X509Certificate".
Definition xades_SigningTime : string :=
  "{http://uri.etsi.org/01903/v1.3.2#}SigningTime".

(** [estado_actual]: the certificate against the clock. *)
Definition estado_actual (now valido_desde valido_hasta : Z) : string :=
  if now <? valido_desde then msg_not_yet_valid
  else if now >? valido_hasta then msg_expired
  else msg_currently_valid.

Section WithExternals.
Context `{Externals}.

(** [validez_en_firma]: the certificate against the claimed signing time,
    as the parser reads it when the clock reads [now]. *)
Definition validez_en_firma (now : Z) (signing_time_str : string)
    (valido_desde valido_hasta : Z) : string :=
  match parse_datetime now signing_time_str with
  | Return signing_datetime =>
      if (valido_desde <=? signing_datetime) && (signing_datetime <=? valido_hasta)
      then msg_valid_at_signing
      else msg_not_valid_at_signing
  | Raise e => "No se pudo validar la fecha de firma: " +:+ e
  end.

(** The body of the [try] of [_extract_signature_info_from_xml]; [now] is
    the reading of the clock, [datetime.now(timezone.utc)]. *)
Definition signature_info_body (now : Z) (xml_root : Element)
    : exn (gmap string string) :=
  let cert_base64 := findtext xml_root [Desc ds_X509Certificate] "" in
  if negb (truthy cert_base64) then
    Return {[ "estado" := msg_no_certificate ]}
  else
    cert ← load_certificate cert_base64;
    let cn := try_default (subject_common_name cert) NA in
    let nif := try_default (subject_serial_number cert) NA in
    let cert_issuer := try_default (issuer_common_name cert) "No disponible" in
    let algorithm := try_default (signature_hash_algorithm_name_upper cert) NA in
    let signing_time_str :=
      findtext xml_root [Desc xades_SigningTime] "No especificada" in
    let valido_desde := not_valid_before_utc cert in
    let valido_hasta := not_valid_after_utc cert in
    Return (list_to_map [
      ("estado", "Firma encontrada");
      ("firmante", cn);
      ("nif", nif);
      ("algoritmo", algorithm);
      ("fecha_firma", signing_time_str);
      ("valido_desde", strftime_Ymd valido_desde);
      ("valido_hasta", strftime_Ymd valido_hasta);
      ("estado_certificado", estado_actual now valido_desde valido_hasta);
      ("validez_en_firma", validez_en_firma now signing_time_str valido_desde valido_hasta);
      ("autoridad_certificadora", cert_issuer)
    ]).

Definition _extract_signature_info_from_xml (now : Z) (xml_root : Element)
    : exn (gmap string string) :=
  try_except (signature_info_body now xml_root)
    (λ e, Return {[ "estado" := "Error al extraer firma: " +:+ e ]}).

End WithExternals.

Definition address_defaults : gmap string string :=
  list_to_map [(k_Direccion, NA); ("Poblacion", NA); ("Cod.Postal", NA); ("Provincia", NA)].

Definition _address_components (entity_root : option Element) : gmap string string :=
  let result := address_defaults in
  match entity_root with
  | None => result
  | Some entity_root =>
      match find entity_root [Child "AddressInSpain"] with
      | Some addr_es =>
          let address := or_str (findtext addr_es [Child "Address"] "") "" in
          let postcode := or_str (findtext addr_es [Child "PostCode"] "") "" in
          let town := or_str (findtext addr_es [Child "Town"] "") "" in
          let province := or_str (findtext addr_es [Child "Province"] "") "" in
          let country := or_str (findtext addr_es [Child "CountryCode"] "") "" in
          let address_fmt :=
            join ", " (filter (λ p, truthy p = true)
                         [address; strip (postcode +:+ " " +:+ town); province; country]) in
          <[k_Direccion := or_str address_fmt NA]>
            (<["Poblacion" := or_str town NA]>
               (<["Cod.Postal" := or_str postcode NA]>
                  (<["Provincia" := or_str province NA]> result)))
      | None =>
          match find entity_root [Child "OverseasAddress"] with
          | Some addr_ov =>
              let line := or_str (findtext addr_ov [Child "Address"] "") "" in
              let post := or_str (findtext addr_ov [Child "PostCodeAndTown"] "") "" in
              let prov := or_str (findtext addr_ov [Child "Province"] "") "" in
              let country := or_str (findtext addr_ov [Child "CountryCode"] "") "" in
              let address_fmt :=
                or_str (join ", " (filter (λ p, truthy p = true) [line; post; prov; country])) NA in
              <[k_Direccion := address_fmt]> result
          | None => result
          end
      end
  end.

(** [out[k] = addr_parts[k]] under [if k in addr_parts]. *)
Definition copy_key (k : string) (src dst : gmap string string) : gmap string string :=
  match src !! k with
  | Some v => <[k := v]> dst
  | None => dst
  end.

Definition _extract_party_full (parent : Element) (party_tag : string)
    : gmap string string :=
  match find parent [Desc party_tag] with
  | None => ∅
  | Some party =>
      let tax_id :=
        or_str (findtext party [Desc "TaxIdentification"; Child "TaxIdentificationNumber"] NA) NA in
      let legal := find party [Desc "LegalEntity"] in
      let individual := find party [Desc "Individual"] in
      let '(name, addr_parts) :=
        match legal, individual with
        | Some legal, _ =>
            (or_str (strip (or_str (findtext legal [Child "CorporateName"] "") "")) NA,
             _address_components (Some legal))
        | None, Some individual =>
            (or_str (strip (strip (or_str (findtext individual [Child "Name"] "") "")
                            +:+ " " +:+
                            strip (or_str (findtext individual [Child "FirstSurname"] "") "")
                            +:+ " " +:+
                            strip (or_str (findtext individual [Child "SecondSurname"] "") ""))) NA,
             _address_components (Some individual))
        | None, None => (NA, address_defaults)
        end in
      let out : gmap string string :=
        list_to_map [("Nombre", name); ("NIF", tax_id);
                     (k_Direccion, default NA (addr_parts !! k_Direccion))] in
      let out := copy_key "Poblacion" addr_parts out in
      let out := copy_key "Cod.Postal" addr_parts out in
      let out := copy_key "Provincia" addr_parts out in
      out
  end.

(** The mapping tables of the extractor. *)
Definition invoice_class_map : gmap string string :=
  list_to_map [
    ("OO", "Original"); ("OR", "Original Rectificativa");
    ("OC", "Original Recapitulativa"); ("CO", "Duplicado Original");
    ("CR", "Duplicado Rectificativa"); ("CC", "Duplicado Recapitulativa")
  ].

Definition payment_means_table : list (string * string) :=
  Eval cbv in [
    ("01", "Al contado"); ("02", "Recibo domiciliado"); ("03", "Recibo");
    ("04", "Transferencia"); ("05", "Letra aceptada");
    ("06", lit "Crédito documentario"); ("07", lit "Contrato adjudicación");
    ("08", "Letra de cambio"); ("09", lit "Pagaré a la orden");
    ("10", lit "Pagaré no a la orden"); ("11", "Cheque"); ("12", lit "Reposición");
    ("13", "Especiales"); ("14", lit "Compensación"); ("15", "Giro postal");
    ("16", "Cheque conformado"); ("17", "Cheque bancario");
    ("18", "Pago contra reembolso"); ("19", "Pago mediante tarjeta")
  ].

Definition payment_means_map : gmap string string := list_to_map payment_means_table.

(** One charge or discount of a line: [{"reason": .., "amount": ..}]. *)
Record LineAmount : Type := {
  reason : string;
  amount : string;
}.

(** One entry of ["Conceptos"]. *)
Record InvoiceLine : Type := {
  Descripcion : string;
  Cantidad : string;
  Precio_Unitario : string;
  Importe : string;
  Observaciones : string;
  Periodo : string;
  Cargos : list LineAmount;
  Descuentos : list LineAmount;
}.

(** The dictionary that [_extract_invoice_data_from_xml] returns, one field
    per key, in the order of the source. *)
Record InvoiceData : Type := {
  Numero_de_Factura : string;
  Fecha : string;
  Tipo_Dcomento : string;
  Moneda : string;
  Clase_Factura : string;
  PeriodoFactura : gmap string string;
  Total_Factura : string;
  Totales : gmap string string;
  Emisor : gmap string string;
  Receptor : gmap string string;
  Tercero : gmap string string;
  Conceptos : list InvoiceLine;
  Firma : gmap string string;
  InfoAdicional : string;
  ReferenciasLegales : list string;
  TaxesWithheldDetails : list (gmap string string);
  TaxesOutputDetails : list (gmap string string);
  PaymentDetails : gmap string string;
}.

(** [d or fallback] on dictionaries: the empty one is falsy. *)
Definition or_dict (d fallback : gmap string string) : gmap string string :=
  if decide (d = ∅) then fallback else d.

Definition emitter_fallback : gmap string string :=
  list_to_map [("Nombre", NA); ("NIF", NA); (k_Direccion, NA);
               ("Poblacion", NA); ("Cod.Postal", NA); ("Provincia", NA)].

Definition receptor_fallback : gmap string string :=
  list_to_map [("Nombre", NA); ("NIF", NA); (k_Direccion, NA)].

(** The administrative centres of the buyer, as ["code - name"]. *)
Definition destinos_of (xml_root : Element) : list string :=
  match find xml_root [Desc "BuyerParty"] with
  | Some buyer_party =>
      (λ admin, findtext admin [Child "CentreCode"] NA +:+ " - " +:+
                findtext admin [Child "Name"] NA)
      <$> findall buyer_party [Desc "AdministrativeCentres"; Child "AdministrativeCentre"]
  | None => []
  end.

Definition receptor_of (xml_root : Element) : gmap string string :=
  let receptor := or_dict (_extract_party_full xml_root "BuyerParty") receptor_fallback in
  let destinos := destinos_of xml_root in
  let receptor := <["OfiCont" := default NA (destinos !! 0%nat)]> receptor in
  let receptor := <["OrgGest" := default NA (destinos !! 1%nat)]> receptor in
  let receptor := <["Und.Tram" := default NA (destinos !! 2%nat)]> receptor in
  <["UndTram" := receptor !!! "Und.Tram"]> receptor.

Section Extractor.
Context `{Externals}.

(** The local [_fmt_date] of the invoicing period. *)
Definition _fmt_date (d : string) : string :=
  try_default (reformat_date d) (or_str d NA).

Definition invoicing_period_of (invoice_element : Element) : gmap string string :=
  match find invoice_element [Child "InvoiceIssueData"] with
  | Some issue_data =>
      match find issue_data [Child "InvoicingPeriod"] with
      | Some invp =>
          let start := or_str (findtext invp [Child "StartDate"] "") "" in
          let end_ := or_str (findtext invp [Child "EndDate"] "") "" in
          list_to_map [("Inicio", _fmt_date start); ("Fin", _fmt_date end_)]
      | None => ∅
      end
  | None => ∅
  end.

Definition totals_of (invoice_element : option Element) : gmap string string :=
  match invoice_element with
  | Some invoice_element =>
      match find invoice_element [Desc "InvoiceTotals"] with
      | Some invoice_totals =>
          list_to_map [
            ("TotalGrossAmount", findtext invoice_totals [Child "TotalGrossAmount"] "0.00");
            ("TotalGeneralDiscounts", findtext invoice_totals [Child "TotalGeneralDiscounts"] "0.00");
            ("TotalGrossAmountBeforeTaxes",
               findtext invoice_totals [Child "TotalGrossAmountBeforeTaxes"] NA);
            ("TotalTaxOutputs", findtext invoice_totals [Child "TotalTaxOutputs"] NA);
            ("TotalTaxesWithheld", findtext invoice_totals [Child "TotalTaxesWithheld"] NA);
            ("InvoiceTotal", findtext invoice_totals [Child "InvoiceTotal"] NA);
            ("TotalOutstandingAmount", findtext invoice_totals [Child "TotalOutstandingAmount"] NA);
            ("TotalExecutableAmount", findtext invoice_totals [Child "TotalExecutableAmount"] NA)
          ]
      | None => ∅
      end
  | None => ∅
  end.

Definition taxes_withheld_details_of (invoice_element : option Element)
    : list (gmap string string) :=
  match invoice_element with
  | Some invoice_element =>
      match find invoice_element [Desc "TaxesWithheld"] with
      | Some taxes_withheld =>
          (λ tax, list_to_map [
             ("code", strip (or_str (findtext tax [Child "TaxTypeCode"] "") ""));
             ("rate", strip (or_str (findtext tax [Child "TaxRate"] "") ""));
             ("amount", strip (or_str (findtext tax [Desc "TaxAmount"; Child "TotalAmount"] "") ""));
             ("taxable_base",
                strip (or_str (findtext tax [Desc "TaxableBase"; Child "TotalAmount"] "") ""))
           ]) <$> findall taxes_withheld [Child "Tax"]
      | None => []
      end
  | None => []
  end.

Definition taxes_output_details_of (invoice_element : option Element)
    : list (gmap string string) :=
  match invoice_element with
  | Some invoice_element =>
      match find invoice_element [Desc "TaxesOutputs"] with
      | Some taxes_outputs =>
          (λ tax, list_to_map [
             ("type_code", strip (or_str (findtext tax [Child "TaxTypeCode"] "01") "01"));
             ("rate", strip (or_str (findtext tax [Child "TaxRate"] "21") "21"));
             ("base", strip (or_str (findtext tax [Desc "TaxableBase"; Child "TotalAmount"] "0") "0"));
             ("amount", strip (or_str (findtext tax [Desc "TaxAmount"; Child "TotalAmount"] "0") "0"));
             ("surcharge", strip (or_str (findtext tax [Child "EquivalenceSurcharge"] "0") "0"));
             ("surcharge_amount",
                strip (or_str (findtext tax [Desc "EquivalenceSurchargeAmount"; Child "TotalAmount"] "0") "0"))
           ]) <$> findall taxes_outputs [Child "Tax"]
      | None => []
      end
  | None => []
  end.

Definition payment_details_of (invoice_element : option Element) : gmap string string :=
  match invoice_element with
  | Some invoice_element =>
      match find invoice_element [Desc "PaymentDetails"; Child "Installment"] with
      | Some payment =>
          let due_date_raw := strip (or_str (findtext payment [Child "InstallmentDueDate"] "") "") in
          let due_date :=
            try_default (if truthy due_date_raw then reformat_date due_date_raw else Return "")
              due_date_raw in
          let payment_means_code := strip (or_str (findtext payment [Child "PaymentMeans"] "") "") in
          let payment_means :=
            default payment_means_code (payment_means_map !! payment_means_code) in
          let iban :=
            strip (or_str (findtext payment [Desc "AccountToBeCredited"; Child "IBAN"] "") "") in
          list_to_map [
            ("due_date", due_date);
            ("amount", strip (or_str (findtext payment [Child "InstallmentAmount"] "") ""));
            ("means", payment_means);
            ("means_code", payment_means_code);
            ("iban", iban)
          ]
      | None => ∅
      end
  | None => ∅
  end.

Definition periodo_linea_of (line : Element) : string :=
  match find line [Child "LineItemPeriod"] with
  | Some lp =>
      let lp_start := or_str (findtext lp [Child "StartDate"] "") "" in
      let lp_end := or_str (findtext lp [Child "EndDate"] "") "" in
      try_default
        (lp_start_f ← (if truthy lp_start then reformat_date lp_start else Return "");
         lp_end_f ← (if truthy lp_end then reformat_date lp_end else Return "");
         Return (if truthy lp_start_f || truthy lp_end_f
                 then lp_start_f +:+ EN_DASH +:+ lp_end_f
                 else ""))
        (lp_start +:+ EN_DASH +:+ lp_end)
  | None => ""
  end.

Definition item_of (line : Element) : InvoiceLine :=
  {| Descripcion := findtext line [Child "ItemDescription"] NA;
     Cantidad := findtext line [Child "Quantity"] NA;
     Precio_Unitario := findtext line [Child "UnitPriceWithoutTax"] NA;
     Importe := findtext line [Child "TotalCost"] NA;
     Observaciones :=
       strip (or_str (findtext line [Child "AdditionalLineItemInformation"] "") "");
     Periodo := periodo_linea_of line;
     Cargos :=
       (λ c, {| reason := strip (or_str (findtext c [Child "ChargeReason"] "") "Cargo");
                amount := strip (or_str (findtext c [Child "ChargeAmount"] "0") "0") |})
       <$> findall line [Desc "Charges"; Child "Charge"];
     Descuentos :=
       (λ d, {| reason := strip (or_str (findtext d [Child "DiscountReason"] "") "Dcto.");
                amount := strip (or_str (findtext d [Child "DiscountAmount"] "0") "0") |})
       <$> findall line [Desc "Discounts"; Child "Discount"] |}.

Definition items_of (invoice_element : option Element) : list InvoiceLine :=
  match invoice_element with
  | Some invoice_element => item_of <$> findall invoice_element [Desc "Items"; Child "InvoiceLine"]
  | None => []
  end.

(** [ref.text.strip()] for the references with a non-blank text. *)
Definition legal_references_of (xml_root : Element) : list string :=
  omap (λ ref, match text ref with
               | Some t => if truthy t && negb (bool_decide (strip t = "")) then Some (strip t) else None
               | None => None
               end)
       (findall xml_root [Desc "LegalLiterals"; Child "LegalReference"]).

(** The extractor; [now] is the clock reading that the signature validator
    takes while it runs. *)
Definition _extract_invoice_data_from_xml (now : Z) (xml_root : Element)
    : exn InvoiceData :=
  let emitter := or_dict (_extract_party_full xml_root "SellerParty") emitter_fallback in
  let receptor := receptor_of xml_root in
  let tercero := _extract_party_full xml_root "ThirdParty" in
  let invoice_element := find xml_root [Desc "Invoices"; Child "Invoice"] in
  let '(invoice_number, issue_date, invoice_type, invoice_currency,
        invoice_class_desc, invoicing_period) :=
    match invoice_element with
    | Some invoice_element =>
        let invoice_number :=
          findtext invoice_element [Desc "InvoiceHeader"; Child "InvoiceNumber"] NA in
        let invoice_series :=
          or_str (findtext invoice_element [Desc "InvoiceHeader"; Child "InvoiceSeriesCode"] "") "" in
        let invoice_type :=
          findtext invoice_element [Desc "InvoiceHeader"; Child "InvoiceDocumentType"] NA in
        let invoice_currency :=
          findtext invoice_element [Desc "InvoiceIssueData"; Child "InvoiceCurrencyCode"] NA in
        let raw_date :=
          findtext invoice_element [Desc "InvoiceIssueData"; Child "IssueDate"] NA in
        let invoice_class :=
          findtext invoice_element [Desc "InvoiceHeader"; Child "InvoiceClass"] NA in
        let invoice_class_desc := default NA (invoice_class_map !! invoice_class) in
        let issue_date := try_default (reformat_date raw_date) raw_date in
        let invoice_number := invoice_series +:+ invoice_number in
        (invoice_number, issue_date, invoice_type, invoice_currency,
         invoice_class_desc, invoicing_period_of invoice_element)
    | None => (NA, NA, NA, NA, NA, ∅)
    end in
  let invoice_additional_info :=
    strip (or_str (findtext xml_root [Desc "AdditionalData"; Child "InvoiceAdditionalInformation"] "") "") in
  let totals := totals_of invoice_element in
  firma ← _extract_signature_info_from_xml now xml_root;
  Return {|
    Numero_de_Factura := invoice_number;
    Fecha := issue_date;
    Tipo_Dcomento := invoice_type;
    Moneda := invoice_currency;
    Clase_Factura := invoice_class_desc;
    PeriodoFactura := invoicing_period;
    Total_Factura := default NA (totals !! "InvoiceTotal");
    Totales := totals;
    Emisor := emitter;
    Receptor := receptor;
    Tercero := tercero;
    Conceptos := items_of invoice_element;
    Firma := firma;
    InfoAdicional := invoice_additional_info;
    ReferenciasLegales := legal_references_of xml_root;
    TaxesWithheldDetails := taxes_withheld_details_of invoice_element;
    TaxesOutputDetails := taxes_output_details_of invoice_element;
    PaymentDetails := payment_details_of invoice_element
  |}.

End Extractor.

(** The local [_fmt_rate] of the totals block of the renderer. *)
Definition _fmt_rate (x : string) : string :=
  match float_of_str (replace_char "," "." x) with
  | Some val => rstrip "." (rstrip "0" (format_2f val))
  | None => strip (or_str x "")
  end.

End XsigPdf.

(** ** core/areas.py *)

Module Areas.
Import PyStr Exn.

(** The file system as the loader sees it: [os.path.exists], and the rows
    that [csv.reader(f, delimiter=';')] yields for a file, or the exception
    that opening or decoding it raises. *)
Record FileSystem : Type := {
  path_exists : string → bool;
  is_file : string → bool;
  csv_rows : string → exn (list (list string));
}.

(** The body of the loop over the rows. *)
Definition add_row (d : gmap string string) (row : list string) : gmap string string :=
  match row with
  | r0 :: r1 :: _ =>
      let area_raw := strip r0 in
      let nombre := strip r1 in
      if truthy area_raw then <[zfill 2 area_raw := nombre]> d else d
  | _ => d
  end.

(** The undecorated function. *)
Definition load_areas (fs : FileSystem) (csv_path : option string)
    : exn (gmap string string) :=
  match csv_path with
  | None => Return ∅
  | Some p =>
      if negb (truthy p) || negb (path_exists fs p) then Return ∅
      else rows ← csv_rows fs p; Return (foldl add_row ∅ rows)
  end.

(** The state of [@lru_cache(maxsize=1)]: the last argument and its result. *)
Definition Cache : Type := option (option string * gmap string string).

(** [cargar_diccionario_areas]: a call with the cached argument returns the
    cached dictionary; any other call runs the loader and, when it returns,
    replaces the entry. A raised exception leaves the cache as it was. *)
Definition cargar_diccionario_areas (fs : FileSystem) (cache : Cache)
    (csv_path : option string) : exn (gmap string string) * Cache :=
  let miss :=
    match load_areas fs csv_path with
    | Return d => (Return d, Some (csv_path, d))
    | Raise e => (Raise e, cache)
    end in
  match cache with
  | Some (k, d) => if decide (k = csv_path) then (Return d, cache) else miss
  | None => miss
  end.

Definition normalizar_area (area_val : option string) : string :=
  match area_val with
  | None => ""
  | Some a =>
      let s := strip a in
      match int s with
      | Some n => format_02d n
      | None => if isdigit s then zfill 2 s else s
      end
  end.

End Areas.

(** ** core/service.py *)

Module Service.
Import PyStr Exn Areas.

Definition _normalize_area_code (area_code : option string) : string :=
  match area_code with
  | None => ""
  | Some a =>
      if negb (truthy a) then ""
      else
        let ac := strip a in
        if isdigit ac then zfill 2 ac else ac
  end.

(** [os.path.join(root, name)] for a non-empty relative [root]. *)
Definition path_join (root name : string) : string := root +:+ "/" +:+ name.

Definition _find_logo_for_area (fs : FileSystem) (area_code : string) : option string :=
  if negb (truthy area_code) then None
  else
    let exts := ["png"; "jpg"; "jpeg"; "gif"; "bmp"] in
    let search_roots := ["images"; "."; "assets"; "static"] in
    head (filter (λ p, is_file fs p = true)
            (root ← search_roots; ext ← exts;
             [path_join root ("logo_" +:+ area_code +:+ "." +:+ ext)])).

(** The payload, a dictionary of the request: its text entries (a key may be
    missing, or hold [None]), the list of budget applications and the
    single-row flag. *)
Record Payload : Type := {
  fields : gmap string (option string);
  aplicaciones : option (list (gmap string (option string)));
  apps_single_row : option bool;
}.

(** [d.get(k)], with [None] for a missing key. *)
Definition get (d : gmap string (option string)) (k : string) : option string :=
  default None (d !! k).

(** [d.get(k, dflt)] *)
Definition get_default (d : gmap string (option string)) (k : string) (dflt : string)
    : option string :=
  default (Some dflt) (d !! k).

(** [x or ""] for [x] a string or [None]. *)
Definition or_empty (x : option string) : string :=
  match x with
  | Some s => or_str s ""
  | None => ""
  end.

(** [a or b] for [a], [b] strings or [None]. *)
Definition or_opt (a b : option string) : option string :=
  match a with
  | Some s => if truthy s then a else b
  | None => b
  end.

(** The dictionary handed to the renderer. *)
Record InformeData : Type := {
  punto_entrada : option string;
  id_punto_entrada : option string;
  fecha_hora_entrada : option string;
  num_rcf : option string;
  proveedor : option string;
  nif_proveedor : option string;
  fecha_expedicion : option string;
  vfacnum : option string;
  importe_total : option string;
  concepto : option string;
  area_code : string;
  area_name : string;
  area_logo : option string;
  area : string;
  unidad : string;
  aplicaciones_out : list (string * string * string);
  expediente_contrato : string;
  apps_single_row_out : bool;
  resultado_conformidad : string;
  motivo_no_conformidad : string;
  observaciones : string;
}.

Definition msg_resultado_invalido : string :=
  "resultado_conformidad debe ser 'conforme' o 'no_conforme'".

Definition msg_motivo_obligatorio : string :=
  "motivo_no_conformidad es obligatorio cuando resultado_conformidad = 'no_conforme'".

Definition AREA_PREFIX : string := Eval cbv in lit "Área ".

(** [generar_informe_conformidad_pdf_desde_payload], up to the dictionary
    that it passes to [generate_acta_pdf]. *)
Definition generar_informe_conformidad_pdf_desde_payload
    (fs : FileSystem) (cache : Cache) (payload : Payload)
    (areas_csv_path : option string) : exn InformeData * Cache :=
  let '(loaded, cache') := cargar_diccionario_areas fs cache areas_csv_path in
  (areas_dict ← loaded;
   let area_code := _normalize_area_code (get (fields payload) "area_code") in
   let area_name :=
     or_empty
       (or_opt (or_opt (get (fields payload) "area_name") (areas_dict !! area_code))
          (Some (if truthy area_code then AREA_PREFIX +:+ area_code else ""))) in
   let area_logo := if truthy area_code then _find_logo_for_area fs area_code else None in
   let aplicaciones :=
     (λ item,
        (strip (or_empty (or_opt (get item "org") (get item "vaplorg"))),
         strip (or_empty (or_opt (get item "fun") (get item "vaplfun"))),
         strip (or_empty (or_opt (or_opt (get item "eco") (get item "vapleco"))
                            (get item "vapleco")))))
     <$> default [] (aplicaciones payload) in
   let resultado := get_default (fields payload) "resultado_conformidad" "conforme" in
   if negb (bool_decide (resultado = Some "conforme") ||
            bool_decide (resultado = Some "no_conforme"))
   then Raise msg_resultado_invalido
   else if bool_decide (resultado = Some "no_conforme") &&
           negb (truthy (strip (or_empty (get (fields payload) "motivo_no_conformidad"))))
   then Raise msg_motivo_obligatorio
   else
     let observaciones := strip (or_empty (get (fields payload) "observaciones")) in
     Return {|
       punto_entrada := get_default (fields payload) "punto_entrada" "";
       id_punto_entrada := get_default (fields payload) "id_punto_entrada" "";
       fecha_hora_entrada := get_default (fields payload) "fecha_hora_entrada" "";
       num_rcf := get_default (fields payload) "num_rcf" "";
       proveedor := get_default (fields payload) "proveedor" "";
       nif_proveedor := get_default (fields payload) "nif_proveedor" "";
       fecha_expedicion := get_default (fields payload) "fecha_expedicion" "";
       vfacnum := get_default (fields payload) "vfacnum" "";
       importe_total := get_default (fields payload) "importe_total" "";
       concepto := get_default (fields payload) "concepto" "";
       area_code := area_code;
       area_name := area_name;
       area_logo := area_logo;
       area := area_name;
       unidad := or_empty (get_default (fields payload) "unidad" "");
       aplicaciones_out := aplicaciones;
       expediente_contrato := or_empty (get_default (fields payload) "expediente_contrato" "");
       apps_single_row_out := default true (apps_single_row payload);
       resultado_conformidad := default "" resultado;
       motivo_no_conformidad :=
         strip (or_empty (get (fields payload) "motivo_no_conformidad"));
       observaciones := observaciones
     |},
   cache').

End Service.

(** ** api/main.py: the validator of [InformeWSPayload] *)

Module ApiMain.
Import PyStr Exn Service.


End ApiMain.

(** ** core/utils.py *)

Module Utils.
Import PyBytes PyStr Exn.

Definition MAX_FACTURA_LENGTH : Z := 50.
Definition MAX_FILENAME_LENGTH : Z := 128.

(** [\w] on the range of the embedding: [c.isalnum()] or the underscore. *)
Definition is_word (c : ascii) : bool :=
  in_range 48 57 c || in_range 65 90 c || (ord c =? 95)%N || in_range 97 122 c ||
  (ord c =? 170)%N || (ord c =? 178)%N || (ord c =? 179)%N || (ord c =? 181)%N ||
  (ord c =? 185)%N || (ord c =? 186)%N || in_range 188 190 c ||
  in_range 192 214 c || in_range 216 246 c || in_range 248 255 c.

(** The class [[\w/\-\.]] of [ALLOWED_CHARS_PATTERN]. *)
Definition allowed_char (c : ascii) : bool :=
  is_word c || Ascii.eqb c "/" || Ascii.eqb c "-" || Ascii.eqb c ".".

(** [s] without the line feed that ends it, if any: [$] also matches just
    before a final line feed. *)
Fixpoint chop_newline (s : string) : string :=
  match s with
  | EmptyString => EmptyString
  | String c EmptyString => if (ord c =? 10)%N then EmptyString else s
  | String c s' => String c (chop_newline s')
  end.

(** [_ALLOWED_RE.match(v)] for the pattern [^[\w/\-\.]{1,50}$]. *)
Definition allowed_re_match (v : string) : bool :=
  let t := chop_newline v in
  (1 <=? String.length t)%nat && (String.length t <=? 50)%nat && all_chars allowed_char t.

Definition msg_vacio : string := Eval cbv in lit "El valor no puede estar vacío.".

Definition msg_excede_prefix : string :=
  Eval cbv in lit "El valor excede la longitud máxima de ".

(** The text of the [ValueError] that the interpreter raises when an
    integer of more than [INT_MAX_STR_DIGITS] digits is written out. *)
Definition msg_int_str_limit : string :=
  "Exceeds the limit (4300 digits) for integer string conversion; use sys.set_int_max_str_digits() to increase the limit".

(** [n] inside an f-string: [format(n, "")], which raises beyond the limit. *)
Definition str_int (n : Z) : exn string :=
  if 10 ^ INT_MAX_STR_DIGITS <=? Z.abs n then Raise msg_int_str_limit
  else Return (str_of_Z n).

(** [raise ValueError(m)] for a text [m] whose evaluation may itself raise. *)
Definition raise_ValueError {A} (m : exn string) : exn A :=
  match m with
  | Return t => Raise t
  | Raise e => Raise e
  end.

Definition msg_excede (max_length : Z) : exn string :=
  n ← str_int max_length; Return (msg_excede_prefix +:+ n +:+ " caracteres.").

(** The dash of this message is kept byte for byte, as [EN_DASH] is. *)
Definition msg_invalido_prefix : string :=
  Eval cbv in
    lit "Valor inválido. Usa letras, números, guiones, guiones bajos, barras o puntos (1–".

Definition msg_invalido (max_length : Z) : exn string :=
  n ← str_int max_length; Return (msg_invalido_prefix +:+ n +:+ ").").

Definition sanitize_text (value : option string) (max_length : Z) : exn string :=
  let v := strip (match value with Some s => or_str s "" | None => "" end) in
  if negb (truthy v) then Raise msg_vacio
  else if Z.of_nat (String.length v) >? max_length
       then raise_ValueError (msg_excede max_length)
  else if negb (allowed_re_match v) then raise_ValueError (msg_invalido max_length)
  else Return v.

(** The class [[^\w\.-]] of [make_safe_filename]. *)
Definition unsafe_char (c : ascii) : bool :=
  negb (is_word c || Ascii.eqb c "." || Ascii.eqb c "-").

(** [re.sub(r"[^\w\.-]+", "_", s)]: every maximal run of unsafe characters
    becomes one underscore; [in_run] holds inside such a run. *)
Fixpoint sub_unsafe_runs (in_run : bool) (s : string) : string :=
  match s with
  | EmptyString => EmptyString
  | String c s' =>
      if unsafe_char c then
        (if in_run then sub_unsafe_runs true s' else String "_" (sub_unsafe_runs true s'))
      else String c (sub_unsafe_runs false s')
  end.

(** [s[:b]] on a string. *)
Definition str_slice_to (s : string) (b : Z) : string :=
  string_of_list_ascii (slice (list_ascii_of_string s) 0 b).

Definition make_safe_filename (base : string) (max_length : Z) : string :=
  let base := sub_unsafe_runs false (strip base) in
  if Z.of_nat (String.length base) >? max_length then str_slice_to base max_length
  else base.

End Utils.

(** ** core/pdf.py *)

Module Pdf.
Import PyStr.

Definition _html_escape (text : option string) : string :=
  match text with
  | None => ""
  | Some text =>
      replace_char ">" "&gt;" (replace_char "<" "&lt;" (replace_char "&" "&amp;" text))
  end.

End Pdf.

(** ** core/xsig_pdf.py: what the renderer decides from the record *)

Module XsigRender.
Import PyBytes PyStr Exn ET Lib XsigPdf.

(** The guard of the signature block:
    [firma and firma.get("estado", "").startswith("Firma")]. *)
Definition firma_block_shown (firma : gmap string string) : bool :=
  negb (bool_decide (firma = ∅)) && String.prefix "Firma" (default "" (firma !! "estado")).

(** The guard of the payment block:
    [payment_info and (payment_info.get("iban") or payment_info.get("due_date"))]. *)
Definition payment_block_shown (payment_info : gmap string string) : bool :=
  negb (bool_decide (payment_info = ∅)) &&
  (truthy (default "" (payment_info !! "iban")) ||
   truthy (default "" (payment_info !! "due_date"))).

Definition msg_archivo_vacio : string := Eval cbv in lit "Archivo vacío o no legible.".

Definition msg_no_xml_prefix : string :=
  Eval cbv in lit "El archivo no parece un XSIG/XML válido: ".

(** [render_pdf_from_xsig], up to the record that it hands to the layout;
    [fromstring] is [ET.fromstring]. *)
Definition render_pdf_from_xsig `{Externals} (fromstring : list byte → exn Element)
    (now : Z) (xsig_bytes : list byte) : exn InvoiceData :=
  match xsig_bytes with
  | [] => Raise msg_archivo_vacio
  | _ =>
      let xml_bytes := Unwrapper._extract_xml_from_xsig_bytes xsig_bytes in
      match fromstring xml_bytes with
      | Raise e => Raise (msg_no_xml_prefix +:+ e)
      | Return root => _extract_invoice_data_from_xml now root
      end
  end.

End XsigRender.

(** ** The format specification [,.2f] *)

Module PyFormat.
Import PyStr PyFloat.

(** The digits [s] with [sep] before each group of three that follows. *)
Fixpoint group_digits (sep : ascii) (s : string) : string :=
  match s with
  | EmptyString => EmptyString
  | String c s' =>
      if (0 <? String.length s')%nat && (String.length s' mod 3 =? 0)%nat
      then String c (String sep (group_digits sep s'))
      else String c (group_digits sep s')
  end.

(** A float with two decimals, [tsep] between the thousands and [dsep]
    before the decimals. *)
Definition format_grouped (tsep dsep : ascii) (v : float) : string :=
  match v with
  | Nan => "nan"
  | Inf neg => if neg then "-inf" else "inf"
  | Fin neg m e =>
      let h := if 0 <=? e then 100 * m * 2 ^ e
               else div_half_even (100 * m) (2 ^ (- e)) in
      (if neg then "-" else "") +:+ group_digits tsep (str_of_Z (h / 100)) +:+
      String dsep (two_digits (h mod 100))
  end.

(** [f"{v:,.2f}"] *)
Definition format_comma_2f (v : float) : string := format_grouped "," "." v.

End PyFormat.

(** ** core/xsig_pdf.py: the amounts of the tax table *)

Module XsigAmounts.
Import PyStr PyFloat PyFormat.

(** The local [_fmt_num] of the tax table, which every call gives two
    decimals. *)
Definition _fmt_num (val : string) : string :=
  match float_of_str val with
  | Some v =>
      replace_char "X" "." (replace_char "." "," (replace_char "," "X" (format_comma_2f v)))
  | None => or_str val "0"
  end.

End XsigAmounts.

(** ** api/main.py: amounts in euros *)

Module ApiAmounts.
Import PyStr PyFloat PyFormat.

(** The text [" €"]; the euro sign is outside the range of the embedding
    and is kept as the three bytes of its UTF-8 form, which the
    replacements of [_fmt_eur] leave alone. *)
Definition EURO_SUFFIX : string := Eval cbv in lit " €".

(** [val or 0.0] for a float or [None]: a zero of either sign is falsy. *)
Definition or_zero (val : option float) : float :=
  match val with
  | Some (Fin neg m e) => if m =? 0 then Fin false 0 0 else Fin neg m e
  | Some v => v
  | None => Fin false 0 0
  end.

(** [_fmt_eur] on a float or [None], for which nothing in its [try] raises. *)
Definition _fmt_eur (val : option float) : string :=
  let f := or_zero val in
  let s := format_comma_2f f +:+ EURO_SUFFIX in
  replace_char "X" "." (replace_char "." "," (replace_char "," "X" s)).

End ApiAmounts.

(** ** Sample inputs *)

Module Samples.
Import PyStr Exn ET Lib.

(** A certificate valid from instant 1000 to instant 2000, without a
    serial number in its subject. *)
Definition sample_cert : Certificate := {|
  subject_common_name := Return "ACME SA";
  subject_serial_number := Raise "list index out of range";
  issuer_common_name := Return "AC Pruebas";
  signature_hash_algorithm_name_upper := Return "SHA256";
  not_valid_before_utc := 1000;
  not_valid_after_utc := 2000;
|}.

(** Libraries that decode one certificate text, read one timestamp and
    reformat one date. *)
Definition sample_externals : Externals := {|
  load_certificate t :=
    if String.eqb t "MIIB" then Return sample_cert else Raise "Incorrect padding";
  parse_datetime _ t :=
    if String.eqb t "1970-01-01T00:00:00.001500Z" then Return 1500
    else Raise ("Unknown string format: " +:+ t);
  strftime_Ymd _ := "1970-01-01";
  reformat_date d :=
    if String.eqb d "2024-01-31" then Return "31/01/2024"
    else Raise "time data does not match format '%Y-%m-%d'";
|}.

(** A document with a signature block and nothing else. *)
Definition signed_doc (signing_time : string) : Element :=
  Elem "Facturae" None [
    Elem "{http://www.w3.org/2000/09/xmldsig#}Signature" None [
      Elem XsigPdf.ds_X509Certificate (Some "MIIB") [];
      Elem XsigPdf.xades_SigningTime (Some signing_time) []
    ]
  ].

Definition leaf (t x : string) : Element := Elem t (Some x) [].

(** An invoice with a corporate seller, an individual buyer, no third
    party, and one installment paid by the means [payment_means]. *)
Definition invoice_doc (payment_means : string) : Element :=
  Elem "{http://www.facturae.gob.es/formato/Versiones/Facturaev3_2_2.xml}Facturae" None [
    Elem "Parties" None [
      Elem "SellerParty" None [
        Elem "TaxIdentification" None [leaf "TaxIdentificationNumber" "A12345678"];
        Elem "LegalEntity" None [
          leaf "CorporateName" "ACME SA";
          Elem "AddressInSpain" None [
            leaf "Address" "Calle Mayor 1"; leaf "PostCode" "41001";
            leaf "Town" "Sevilla"; leaf "CountryCode" "ESP"
          ]
        ]
      ];
      Elem "BuyerParty" None [
        Elem "Individual" None [leaf "Name" "Ana"; leaf "FirstSurname" "Ruiz"]
      ]
    ];
    Elem "Invoices" None [
      Elem "Invoice" None [
        Elem "InvoiceHeader" None [
          leaf "InvoiceNumber" "5"; leaf "InvoiceSeriesCode" "A"; leaf "InvoiceClass" "ZZ"
        ];
        Elem "PaymentDetails" None [
          Elem "Installment" None [
            leaf "InstallmentDueDate" "2024-01-31"; leaf "PaymentMeans" payment_means
          ]
        ]
      ]
    ]
  ].

(** The seller, the buyer and the address of the seller in [invoice_doc]. *)
Definition sample_seller_address : Element :=
  Elem "AddressInSpain" None [
    leaf "Address" "Calle Mayor 1"; leaf "PostCode" "41001";
    leaf "Town" "Sevilla"; leaf "CountryCode" "ESP"
  ].

Definition sample_seller_entity : Element :=
  Elem "LegalEntity" None [leaf "CorporateName" "ACME SA"; sample_seller_address].

Definition sample_seller : Element :=
  Elem "SellerParty" None [
    Elem "TaxIdentification" None [leaf "TaxIdentificationNumber" "A12345678"];
    sample_seller_entity
  ].

(** A file system with one area table, and one without any file. *)
Definition sample_fs : Areas.FileSystem := {|
  Areas.path_exists p := String.eqb p "areas.csv";
  Areas.is_file p := String.eqb p "areas.csv" || String.eqb p "images/logo_01.png";
  Areas.csv_rows p :=
    if String.eqb p "areas.csv"
    then Return [["1"; " Hacienda "]; ["02"; "Cultura"]; ["sin nombre"]; [" "; "nada"]]
    else Raise "No such file or directory";
|}.

Definition empty_fs : Areas.FileSystem := {|
  Areas.path_exists _ := false;
  Areas.is_file _ := false;
  Areas.csv_rows _ := Raise "No such file or directory";
|}.


End Samples.

(** ** The vocabulary of the properties *)

Module Spec.
Import PyBytes PyStr Exn ET Lib XsigPdf Areas.

(** [sub] occurs in [l] at index [i]. *)
Definition occurs_at (sub l : list byte) (i : nat) : Prop :=
  (i <= length l)%nat ∧ sub `prefix_of` drop i l.

Definition first_occurrence (sub l : list byte) (i : nat) : Prop :=
  occurs_at sub l i ∧ ∀ j, (j < i)%nat → ¬ occurs_at sub l j.

Definition last_occurrence (sub l : list byte) (i : nat) : Prop :=
  occurs_at sub l i ∧ ∀ j, (i < j)%nat → ¬ occurs_at sub l j.

(** The record with another signature block. *)
Definition set_Firma (f : gmap string string) (d : InvoiceData) : InvoiceData :=
  {| Numero_de_Factura := Numero_de_Factura d; Fecha := Fecha d;
     Tipo_Dcomento := Tipo_Dcomento d; Moneda := Moneda d;
     Clase_Factura := Clase_Factura d; PeriodoFactura := PeriodoFactura d;
     Total_Factura := Total_Factura d; Totales := Totales d;
     Emisor := Emisor d; Receptor := Receptor d; Tercero := Tercero d;
     Conceptos := Conceptos d; Firma := f; InfoAdicional := InfoAdicional d;
     ReferenciasLegales := ReferenciasLegales d;
     TaxesWithheldDetails := TaxesWithheldDetails d;
     TaxesOutputDetails := TaxesOutputDetails d;
     PaymentDetails := PaymentDetails d |}.

Definition party_fields : list string :=
  ["Nombre"; "NIF"; k_Direccion; "Poblacion"; "Cod.Postal"; "Provincia"].

Definition address_fields : list string :=
  [k_Direccion; "Poblacion"; "Cod.Postal"; "Provincia"].

(** Every field of [fs] is present in [r] and holds a non-empty string. *)
Definition complete_record (fs : list string) (r : gmap string string) : Prop :=
  ∀ k, k ∈ fs → ∃ v, r !! k = Some v ∧ v ≠ "".

(** The element of a party that carries its name and its address. *)
Definition party_entity (party : Element) : option Element :=
  match find party [Desc "LegalEntity"] with
  | Some legal => Some legal
  | None => find party [Desc "Individual"]
  end.

(** The record [r] of the party element [party] holds ["N/A"] in each field
    whose source node is missing. *)
Definition sentinel_on_missing (party : Element) (r : gmap string string) : Prop :=
  (find party [Desc "TaxIdentification"; Child "TaxIdentificationNumber"] = None →
   r !! "NIF" = Some NA) ∧
  (∀ legal, find party [Desc "LegalEntity"] = Some legal →
            find legal [Child "CorporateName"] = None → r !! "Nombre" = Some NA) ∧
  (∀ ind, find party [Desc "LegalEntity"] = None →
          find party [Desc "Individual"] = Some ind →
          find ind [Child "Name"] = None → find ind [Child "FirstSurname"] = None →
          find ind [Child "SecondSurname"] = None → r !! "Nombre" = Some NA) ∧
  (party_entity party = None →
   r !! "Nombre" = Some NA ∧ ∀ k, k ∈ address_fields → r !! k = Some NA) ∧
  (∀ e, party_entity party = Some e → find e [Child "AddressInSpain"] = None →
        r !! "Poblacion" = Some NA ∧ r !! "Cod.Postal" = Some NA ∧
        r !! "Provincia" = Some NA ∧
        (find e [Child "OverseasAddress"] = None → r !! k_Direccion = Some NA)) ∧
  (∀ e addr, party_entity party = Some e → find e [Child "AddressInSpain"] = Some addr →
             (find addr [Child "Town"] = None → r !! "Poblacion" = Some NA) ∧
             (find addr [Child "PostCode"] = None → r !! "Cod.Postal" = Some NA) ∧
             (find addr [Child "Province"] = None → r !! "Provincia" = Some NA) ∧
             (find addr [Child "Address"] = None → find addr [Child "PostCode"] = None →
              find addr [Child "Town"] = None → find addr [Child "Province"] = None →
              find addr [Child "CountryCode"] = None → r !! k_Direccion = Some NA)).

Definition comma : ascii := ","%char.

(** The entry [k ↦ v] comes from the row [row]: its first field, trimmed,
    is not empty and fills up to [k], and its second field trims to [v]. *)
Definition entry_of_row (k v : string) (row : list string) : Prop :=
  ∃ r0 r1 rest, row = r0 :: r1 :: rest ∧ strip r0 ≠ "" ∧
                k = zfill 2 (strip r0) ∧ v = strip r1.

(** Every entry of a dictionary that the loader returns was read from a row
    of some file. *)
Definition loaded (d : gmap string string) : Prop :=
  ∀ k v, d !! k = Some v → ∃ row, entry_of_row k v row.

(** The caches that a run of calls can leave behind. *)
Inductive reachable : Cache → Prop :=
  | reachable_init : reachable None
  | reachable_call fs cache p :
      reachable cache → reachable (cargar_diccionario_areas fs cache p).2.

(** The cached dictionary is what the loader returned for the cached
    argument, in the file system of the call that filled the cache. *)
Definition cache_inv (cache : Cache) : Prop :=
  ∀ p d, cache = Some (p, d) → ∃ fs, load_areas fs p = Return d.

End Spec.

(** ** More vocabulary *)

Module Vocabulary.
Import PyStr Exn ET Lib XsigPdf Areas Service Utils.

(** [value or ""] for a value that may be [None]. *)
Definition text_of (value : option string) : string :=
  match value with Some s => or_str s "" | None => "" end.

(** The characters that [make_safe_filename] lets through. *)
Definition safe_char (c : ascii) : bool := negb (unsafe_char c).

(** What the three replacements of [_html_escape] make of one character. *)
Definition escape_char (c : ascii) : string :=
  if Ascii.eqb c "&" then "&amp;"
  else if Ascii.eqb c "<" then "&lt;"
  else if Ascii.eqb c ">" then "&gt;"
  else String c "".

Fixpoint escape_each (s : string) : string :=
  match s with
  | EmptyString => EmptyString
  | String c s' => escape_char c +:+ escape_each s'
  end.

(** The inverse of [escape_each]; [fuel] bounds the characters read. *)
Fixpoint unescape (fuel : nat) (s : string) : string :=
  match fuel with
  | O => s
  | S fuel =>
      match s with
      | String "&" (String "a" (String "m" (String "p" (String ";" r)))) =>
          String "&" (unescape fuel r)
      | String "&" (String "l" (String "t" (String ";" r))) => String "<" (unescape fuel r)
      | String "&" (String "g" (String "t" (String ";" r))) => String ">" (unescape fuel r)
      | String c r => String c (unescape fuel r)
      | EmptyString => EmptyString
      end
  end.

(** The paths that [_find_logo_for_area] tries for a code. *)
Definition logo_candidate (area_code p : string) : Prop :=
  ∃ root ext, root ∈ ["images"; "."; "assets"; "static"] ∧
              ext ∈ ["png"; "jpg"; "jpeg"; "gif"; "bmp"] ∧
              p = path_join root ("logo_" +:+ area_code +:+ "." +:+ ext).

(** The result of the payload is one of the two accepted values. *)
Definition valid_resultado (payload : Payload) : Prop :=
  get_default (fields payload) "resultado_conformidad" "conforme" = Some "conforme" ∨
  get_default (fields payload) "resultado_conformidad" "conforme" = Some "no_conforme".

(** The payload passes the two checks of the report. *)
Definition accepted (payload : Payload) : Prop :=
  get_default (fields payload) "resultado_conformidad" "conforme" = Some "conforme" ∨
  (get_default (fields payload) "resultado_conformidad" "conforme" = Some "no_conforme" ∧
   strip (or_empty (get (fields payload) "motivo_no_conformidad")) ≠ "").

(** What [destinos_of] writes for one administrative centre. *)
Definition centre_label (admin : Element) : string :=
  findtext admin [Child "CentreCode"] NA +:+ " - " +:+ findtext admin [Child "Name"] NA.

(** The value of a string of decimal digits, on top of [acc]. *)
Fixpoint digits_value (acc : Z) (s : string) : Z :=
  match s with
  | EmptyString => acc
  | String c s' => digits_value (10 * acc + digit_value c) s'
  end.

(** The value [m * 2^e] in hundredths, rounded with ties to even, as
    [format_2f] computes it. *)
Definition hundredths (m e : Z) : Z :=
  if 0 <=? e then 100 * m * 2 ^ e else PyFloat.div_half_even (100 * m) (2 ^ (- e)).

(** The mantissa of a finite float is not negative. *)
Definition float_wf (v : PyFloat.float) : Prop :=
  match v with
  | PyFloat.Fin _ m _ => 0 <= m
  | _ => True
  end.

End Vocabulary.

(** ** More sample inputs *)

Module MoreSamples.
Import PyStr Exn ET Lib Samples.

(** A container: two junk bytes, a short document, one trailing byte. *)
Definition sample_document : list byte := Eval cbv in list_byte_of_string "<?xml?><a/>".

(** A parser that knows [sample_document] only. *)
Definition sample_fromstring (b : list byte) : exn Element :=
  if decide (b = sample_document) then Return (signed_doc "junk")
  else Raise "syntax error: line 1, column 0".

(** A certificate that the libraries decode: version 3, self-signed by
    [CN=ACME SA, serialNumber=A12345678] with ECDSA and SHA-256, valid from
    2024-01-01 00:00:00 to 2025-01-01 00:00:00 (UTC), in the Base64 form of
    its DER encoding. *)
Definition acme_certificate_text : string :=
  "MIIBaDCCAQ2gAwIBAgIBATAKBggqhkjOPQQDAjAmMRAwDgYDVQQDDAdBQ01FIFNBMRIwEAYDVQQFEwlBMTIzNDU2NzgwHhcNMjQwMTAxMDAwMDAwWhcNMjUwMTAxMDAwMDAwWjAmMRAwDgYDVQQDDAdBQ01FIFNBMRIwEAYDVQQFEwlBMTIzNDU2NzgwWTATBgcqhkjOPQIBBggqhkjOPQMBBwNCAASVKb14If+ViMlSUnDGyis9sMS9CqShT2rhvejq8S3JV00p7sKXoqo3HPPsDL/hU/X4gtFq8tI+sH1691Fu7BTAoywwKjAJBgNVHRMEAjAAMB0GA1UdDgQWBBR6F5dcMrivdN7To4FPQRQmJfb4sDAKBggqhkjOPQQDAgNJADBGAiEA4Hq1WFbqGdJwe6BW29OnKGQsFD+PRKTICMMGaZYvivwCIQCeLnUV3rYgOF5I2nP9/Lndi+Ewg6lFV2kuh1ESmIq4vw==".

(** What the validator reads from it; the instants are microseconds since
    the epoch. *)
Definition acme_certificate : Certificate := {|
  subject_common_name := Return "ACME SA";
  subject_serial_number := Return "A12345678";
  issuer_common_name := Return "ACME SA";
  signature_hash_algorithm_name_upper := Return "SHA256";
  not_valid_before_utc := 1704067200000000;
  not_valid_after_utc := 1735689600000000;
|}.

Definition MICROSECONDS_PER_DAY : Z := 86400000000.

(** The date of an instant in the proleptic Gregorian calendar (UTC), as
    year, month and day. *)
Definition civil_of_instant (i : Z) : Z * Z * Z :=
  let z := i / MICROSECONDS_PER_DAY + 719468 in
  let era := z / 146097 in
  let doe := z - era * 146097 in
  let yoe := (doe - doe / 1460 + doe / 36524 - doe / 146096) / 365 in
  let doy := doe - (365 * yoe + yoe / 4 - yoe / 100) in
  let mp := (5 * doy + 2) / 153 in
  let d := doy - (153 * mp + 2) / 5 + 1 in
  let m := if mp <? 10 then mp + 3 else mp - 9 in
  let y := yoe + era * 400 + (if m <=? 2 then 1 else 0) in
  (y, m, d).

(** [i.strftime("%Y-%m-%d")] for an instant of the years 1000 to 9999. *)
Definition ymd_of_instant (i : Z) : string :=
  let '(y, m, d) := civil_of_instant i in
  str_of_Z y +:+ "-" +:+ format_02d m +:+ "-" +:+ format_02d d.

(** The libraries on a machine whose local time is UTC, as far as the
    sample documents go: they decode [acme_certificate_text], read a full
    timestamp as it stands and the time ["10:30"] on the date of the clock,
    and reformat one date. *)
Definition acme_externals : Externals := {|
  load_certificate t :=
    if String.eqb t acme_certificate_text then Return acme_certificate
    else Raise "Incorrect padding";
  parse_datetime now t :=
    if String.eqb t "2024-06-01T10:00:00Z" then Return 1717236000000000
    else if String.eqb t "10:30"
         then Return (now - now mod MICROSECONDS_PER_DAY + 37800000000)
    else Raise ("Unknown string format: " +:+ t);
  strftime_Ymd := ymd_of_instant;
  reformat_date d :=
    if String.eqb d "2024-01-31" then Return "31/01/2024"
    else Raise "time data does not match format '%Y-%m-%d'";
|}.

(** A document signed with [acme_certificate_text] that claims the signing
    time [signing_time]. *)
Definition acme_signed_doc (signing_time : string) : Element :=
  Elem "Facturae" None [
    Elem "{http://www.w3.org/2000/09/xmldsig#}Signature" None [
      Elem XsigPdf.ds_X509Certificate (Some acme_certificate_text) [];
      Elem XsigPdf.xades_SigningTime (Some signing_time) []
    ]
  ].

(** Four clock readings (UTC): noon of 2024-03-01, of 2024-09-01 and of
    2025-06-01, and the last instant of the validity of the certificate,
    2025-01-01 00:00:00. *)
Definition march_2024 : Z := 1709294400000000.
Definition september_2024 : Z := 1725192000000000.
Definition june_2025 : Z := 1748779200000000.
Definition new_year_2025 : Z := 1735689600000000.

(** A payload that names the area [" 2 "] and nothing else about it. *)
Definition area_payload : Service.Payload := {|
  Service.fields := list_to_map [("area_code", Some " 2 "); ("num_rcf", Some "2025-0002")];
  Service.aplicaciones := None;
  Service.apps_single_row := None;
|}.

End MoreSamples.

(** * Properties *)

(** ** Searching in byte sequences *)

Section BytesSearch.
Import PyBytes Spec.

Lemma startswith_prefix sub l : startswith sub l = true ↔ sub `prefix_of` l.
Proof.
  revert l. induction sub as [|a sub IH]; intros l; simpl.
  - split; [intros _; apply prefix_nil | done].
  - destruct l as [|b l].
    + split; [done | intros [k Hk]; discriminate].
    + rewrite andb_true_iff, bool_decide_eq_true, IH. split.
      * intros [-> H]. by apply prefix_cons.
      * intros H. split; [by eapply prefix_cons_inv_1 | by eapply prefix_cons_inv_2].
Qed.

Lemma startswith_false sub l : startswith sub l = false ↔ ¬ sub `prefix_of` l.
Proof. rewrite <- startswith_prefix. destruct (startswith sub l); naive_solver. Qed.

Lemma occurs_at_0 sub l : occurs_at sub l 0 ↔ sub `prefix_of` l.
Proof. unfold occurs_at. simpl. split; [by intros [_ ?] | split; [lia | done]]. Qed.

Lemma occurs_at_S sub x l i : occurs_at sub (x :: l) (S i) ↔ occurs_at sub l i.
Proof. unfold occurs_at. simpl. split; intros [? ?]; split; auto; lia. Qed.

Lemma occurs_at_nil sub i : occurs_at sub [] i → i = 0%nat.
Proof. intros [H _]. simpl in H. lia. Qed.

(** [find_from] either reports the offset of the first occurrence, or it
    reports [-1] and there is no occurrence at all. *)
Lemma find_from_spec sub l i :
  (∃ k : nat, find_from sub l i = i + Z.of_nat k ∧ first_occurrence sub l k) ∨
  (find_from sub l i = -1 ∧ ∀ k, ¬ occurs_at sub l k).
Proof.
  revert i. induction l as [|x l IH]; intros i; simpl.
  - destruct (startswith sub []) eqn:E.
    + left. exists 0%nat. split; [lia|]. split; [|intros; lia].
      apply occurs_at_0. by apply startswith_prefix.
    + right. split; [done|]. intros k Hk.
      pose proof (occurs_at_nil _ _ Hk) as ->.
      apply occurs_at_0 in Hk. by apply startswith_false in E.
  - destruct (startswith sub (x :: l)) eqn:E.
    + left. exists 0%nat. split; [lia|]. split; [|intros; lia].
      apply occurs_at_0. by apply startswith_prefix.
    + apply startswith_false in E.
      destruct (IH (i + 1)) as [(k & Hk & Hocc & Hmin)|[Hk Hnone]].
      * left. exists (S k). split; [lia|]. split; [by apply occurs_at_S|].
        intros [|j] Hj; [by rewrite occurs_at_0|].
        rewrite occurs_at_S. apply Hmin. lia.
      * right. split; [done|]. intros [|k]; [by rewrite occurs_at_0|].
        rewrite occurs_at_S. apply Hnone.
Qed.

Lemma rfind_from_spec sub l i :
  0 <= i →
  (∃ k : nat, rfind_from sub l i = i + Z.of_nat k ∧ last_occurrence sub l k) ∨
  (rfind_from sub l i = -1 ∧ ∀ k, ¬ occurs_at sub l k).
Proof.
  revert i. induction l as [|x l IH]; intros i Hi; simpl.
  - destruct (startswith sub []) eqn:E.
    + left. exists 0%nat. split; [lia|]. split.
      * apply occurs_at_0. by apply startswith_prefix.
      * intros j Hj Hocc. apply occurs_at_nil in Hocc. lia.
    + right. split; [done|]. intros k Hk.
      pose proof (occurs_at_nil _ _ Hk) as ->.
      apply occurs_at_0 in Hk. by apply startswith_false in E.
  - destruct (IH (i + 1)) as [(k & Hk & Hocc & Hmax)|[Hk Hnone]]; [lia|..].
    + rewrite Hk. destruct (Z.eqb_spec (i + 1 + Z.of_nat k) (-1)); [lia|].
      left. exists (S k). split; [lia|]. split; [by apply occurs_at_S|].
      intros [|j] Hj; [lia|]. rewrite occurs_at_S. apply Hmax. lia.
    + rewrite Hk. simpl. destruct (startswith sub (x :: l)) eqn:E.
      * left. exists 0%nat. split; [lia|]. split.
        -- apply occurs_at_0. by apply startswith_prefix.
        -- intros [|j] Hj; [lia|]. rewrite occurs_at_S. apply Hnone.
      * apply startswith_false in E. right. split; [done|].
        intros [|k]; [by rewrite occurs_at_0|]. rewrite occurs_at_S. apply Hnone.
Qed.

Lemma first_occurrence_unique sub l i j :
  first_occurrence sub l i → first_occurrence sub l j → i = j.
Proof.
  intros [Hi Hmi] [Hj Hmj].
  destruct (lt_eq_lt_dec i j) as [[H| ->]|H]; [|done|].
  - by destruct (Hmj i H).
  - by destruct (Hmi j H).
Qed.

Lemma last_occurrence_unique sub l i j :
  last_occurrence sub l i → last_occurrence sub l j → i = j.
Proof.
  intros [Hi Hmi] [Hj Hmj].
  destruct (lt_eq_lt_dec i j) as [[H| ->]|H]; [|done|].
  - by destruct (Hmi j H).
  - by destruct (Hmj i H).
Qed.

Lemma find_first l sub k :
  first_occurrence sub l k → find l sub = Z.of_nat k.
Proof.
  intros Hk. unfold find.
  destruct (find_from_spec sub l 0) as [(k' & -> & Hk')|[_ Hnone]].
  - rewrite (first_occurrence_unique _ _ _ _ Hk Hk'). lia.
  - destruct Hk as [Hk _]. by destruct (Hnone k).
Qed.

Lemma find_absent l sub :
  (∀ k, ¬ occurs_at sub l k) → find l sub = -1.
Proof.
  intros Hnone. unfold find.
  destruct (find_from_spec sub l 0) as [(k' & _ & Hk' & _)|[-> _]]; [|done].
  by destruct (Hnone k').
Qed.

Lemma rfind_last l sub k :
  last_occurrence sub l k → rfind l sub = Z.of_nat k.
Proof.
  intros Hk. unfold rfind.
  destruct (rfind_from_spec sub l 0) as [(k' & -> & Hk')|[_ Hnone]]; [lia|..].
  - rewrite (last_occurrence_unique _ _ _ _ Hk Hk'). lia.
  - destruct Hk as [Hk _]. by destruct (Hnone k).
Qed.

Lemma rfind_absent l sub :
  (∀ k, ¬ occurs_at sub l k) → rfind l sub = -1.
Proof.
  intros Hnone. unfold rfind.
  destruct (rfind_from_spec sub l 0) as [(k' & _ & Hk' & _)|[-> _]]; [lia| |done].
  by destruct (Hnone k').
Qed.

(** Some occurrence exists: then a first and a last one exist. *)
Lemma occurs_first sub l k :
  occurs_at sub l k → ∃ s, (s <= k)%nat ∧ first_occurrence sub l s.
Proof.
  intros Hk. destruct (find_from_spec sub l 0) as [(s & _ & Hs)|[_ Hnone]].
  - exists s. split; [|done]. destruct Hs as [_ Hmin].
    destruct (le_lt_dec s k); [done|]. by destruct (Hmin k).
  - by destruct (Hnone k).
Qed.

Lemma occurs_last sub l k :
  occurs_at sub l k → ∃ e, (k <= e)%nat ∧ last_occurrence sub l e.
Proof.
  intros Hk. destruct (rfind_from_spec sub l 0) as [(e & _ & He)|[_ Hnone]]; [lia|..].
  - exists e. split; [|done]. destruct He as [_ Hmax].
    destruct (le_lt_dec k e); [done|]. by destruct (Hmax k).
  - by destruct (Hnone k).
Qed.

Lemma occurs_at_lookup x sub l k :
  occurs_at (x :: sub) l k → l !! k = Some x.
Proof.
  intros [_ [t Ht]]. rewrite <- (Nat.add_0_r k), <- lookup_drop, Ht. done.
Qed.

Lemma occurs_at_lt x sub l k : occurs_at (x :: sub) l k → (k < length l)%nat.
Proof. intros H. eapply lookup_lt_Some, occurs_at_lookup, H. Qed.

Lemma occurs_at_app sub pre l suf :
  sub `prefix_of` l → occurs_at sub (pre ++ l ++ suf) (length pre).
Proof.
  intros H. split; [rewrite length_app; lia|].
  rewrite drop_app_length. by apply prefix_app_r.
Qed.

Lemma slice_inside {A} (l : list A) (s e : nat) :
  (s <= e)%nat → (e <= length l)%nat →
  slice l (Z.of_nat s) (Z.of_nat e) = take (e - s) (drop s l).
Proof.
  intros Hse Hel. unfold slice, clamp_index.
  destruct (Z.ltb_spec (Z.of_nat s) 0); [lia|].
  destruct (Z.ltb_spec (Z.of_nat e) 0); [lia|].
  do 2 f_equal; lia.
Qed.

End BytesSearch.

(** ** The container unwrapper (claim C1) *)

Section UnwrapperProps.
Import PyBytes Unwrapper Spec.

Lemma unwrap_slice b s e :
  first_occurrence xml_marker b s → last_occurrence gt_marker b e → (s < e)%nat →
  _extract_xml_from_xsig_bytes b = take (e + 1 - s) (drop s b).
Proof.
  intros Hs He Hlt. unfold _extract_xml_from_xsig_bytes.
  rewrite (find_first _ _ _ Hs), (rfind_last _ _ _ He).
  destruct (Z.eqb_spec (Z.of_nat s) (-1)); [lia|].
  destruct (Z.gtb_spec (Z.of_nat e + 1) (Z.of_nat s)); [|lia]. simpl.
  replace (Z.of_nat e + 1) with (Z.of_nat (e + 1)) by lia.
  apply slice_inside; [lia|].
  destruct He as [He _]. apply occurs_at_lt in He. lia.
Qed.

Lemma unwrap_no_marker b :
  (∀ i, ¬ occurs_at xml_marker b i) → _extract_xml_from_xsig_bytes b = b.
Proof.
  intros H. unfold _extract_xml_from_xsig_bytes. by rewrite (find_absent _ _ H).
Qed.

Lemma unwrap_no_gt b :
  (∀ i, ¬ occurs_at gt_marker b i) → _extract_xml_from_xsig_bytes b = b.
Proof.
  intros H. unfold _extract_xml_from_xsig_bytes. rewrite (rfind_absent _ _ H).
  destruct (find_from_spec xml_marker b 0) as [(k & Hk & _)|[Hk _]];
    unfold find; rewrite Hk; [|done].
  destruct (Z.gtb_spec (-1 + 1) (0 + Z.of_nat k)); [lia|].
  by rewrite andb_false_r.
Qed.

Lemma unwrap_gt_before b s e :
  first_occurrence xml_marker b s → last_occurrence gt_marker b e → (e <= s)%nat →
  _extract_xml_from_xsig_bytes b = b.
Proof.
  intros Hs He Hle. unfold _extract_xml_from_xsig_bytes.
  rewrite (find_first _ _ _ Hs), (rfind_last _ _ _ He).
  assert (e ≠ s) as Hne.
  { intros ->. destruct Hs as [Hs _], He as [He _].
    apply occurs_at_lookup in Hs, He. rewrite Hs in He. discriminate. }
  destruct (Z.gtb_spec (Z.of_nat e + 1) (Z.of_nat s)); [lia|].
  by rewrite andb_false_r.
Qed.

(** C1. A document that starts with [<?xml] and ends with [>], wrapped in
    arbitrary prefix and suffix bytes, is cut out from the first [<?xml] of
    the container to its last [>], inclusive; a container without [<?xml],
    or whose last [>] is at or before the first [<?xml], is returned as it
    is. *)
Theorem C1_unwrapper_slices_first_marker_to_last_gt :
  (∀ pre doc suf : list byte,
     xml_marker `prefix_of` doc → last doc = Some x3e →
     ∃ s e : nat,
       first_occurrence xml_marker (pre ++ doc ++ suf) s ∧
       last_occurrence gt_marker (pre ++ doc ++ suf) e ∧
       (s < e)%nat ∧
       _extract_xml_from_xsig_bytes (pre ++ doc ++ suf)
       = take (e + 1 - s) (drop s (pre ++ doc ++ suf))) ∧
  (∀ b : list byte,
     (∀ i, ¬ occurs_at xml_marker b i) → _extract_xml_from_xsig_bytes b = b) ∧
  (∀ (b : list byte) (s e : nat),
     first_occurrence xml_marker b s → last_occurrence gt_marker b e →
     (e <= s)%nat → _extract_xml_from_xsig_bytes b = b).
Proof.
  split; [|split; [apply unwrap_no_marker | apply unwrap_gt_before]].
  intros pre doc suf Hpre Hlast.
  destruct (occurs_first _ _ _ (occurs_at_app _ pre _ suf Hpre)) as (s & Hs & Hfirst).
  apply last_Some in Hlast as [doc' ->].
  assert (occurs_at gt_marker (pre ++ (doc' ++ [x3e]) ++ suf) (length pre + length doc')) as Hgt.
  { split; [rewrite !length_app; simpl; lia|].
    rewrite <- (assoc_L (++) doc'), (assoc_L (++) pre), <- length_app.
    rewrite drop_app_length. by exists suf. }
  destruct (occurs_last _ _ _ Hgt) as (e & He & Hlast).
  assert (5 <= length (doc' ++ [x3e]))%nat as Hlen.
  { destruct Hpre as [k ->]. rewrite length_app. simpl. lia. }
  rewrite length_app in Hlen. simpl in Hlen.
  exists s, e. split; [done|]. split; [done|]. split; [lia|].
  apply unwrap_slice; [done..|lia].
Qed.

(** The theorem at a concrete container: two junk bytes, a short document,
    one trailing byte. *)
Lemma C1_unwrapper_witness :
  ∃ s e : nat,
    first_occurrence xml_marker
      ([x00; x3e] ++ list_byte_of_string "<?xml?><a/>" ++ [xff]) s ∧
    last_occurrence gt_marker
      ([x00; x3e] ++ list_byte_of_string "<?xml?><a/>" ++ [xff]) e ∧
    (s < e)%nat ∧
    _extract_xml_from_xsig_bytes
      ([x00; x3e] ++ list_byte_of_string "<?xml?><a/>" ++ [xff])
    = take (e + 1 - s)
        (drop s ([x00; x3e] ++ list_byte_of_string "<?xml?><a/>" ++ [xff])).
Proof.
  apply (proj1 C1_unwrapper_slices_first_marker_to_last_gt).
  - by exists (list_byte_of_string "?><a/>").
  - reflexivity.
Defined.

Example unwrap_example :
  _extract_xml_from_xsig_bytes
    ([x00; x3e] ++ list_byte_of_string "<?xml?><a/>" ++ [xff])
  = list_byte_of_string "<?xml?><a/>".
Proof. reflexivity. Qed.

End UnwrapperProps.

(** ** Dictionaries written as literals *)

(** The lookup of a literal key in a dictionary literal. *)
Ltac lookup_literal :=
  cbn [list_to_map foldr uncurry fst snd];
  repeat (rewrite lookup_insert_ne by (intros ?; discriminate));
  first [ apply lookup_insert_eq | apply lookup_empty | apply lookup_singleton_eq ].

(** ** The signature validator (claims C3 and C4) *)

Section SignatureProps.
Import PyStr Exn ET Lib XsigPdf.
Context `{Externals}.

(** The outcome for a document with a certificate that decodes. *)
Lemma signature_found now xml_root cert :
  truthy (findtext xml_root [Desc ds_X509Certificate] "") = true →
  load_certificate (findtext xml_root [Desc ds_X509Certificate] "") = Return cert →
  ∃ d, _extract_signature_info_from_xml now xml_root = Return d ∧
       d !! "estado" = Some "Firma encontrada" ∧
       d !! "estado_certificado"
       = Some (estado_actual now (not_valid_before_utc cert) (not_valid_after_utc cert)) ∧
       d !! "validez_en_firma"
       = Some (validez_en_firma now
                 (findtext xml_root [Desc xades_SigningTime] "No especificada")
                 (not_valid_before_utc cert) (not_valid_after_utc cert)).
Proof.
  intros Htext Hload.
  unfold _extract_signature_info_from_xml, signature_info_body.
  rewrite Htext. cbn [negb]. rewrite Hload. cbn [mbind exn_bind bind try_except].
  eexists. split; [reflexivity|].
  split; [|split]; lookup_literal.
Qed.

Lemma status_messages_distinct :
  msg_currently_valid ≠ msg_not_yet_valid ∧ msg_currently_valid ≠ msg_expired ∧
  msg_not_yet_valid ≠ msg_expired.
Proof. repeat split; discriminate. Qed.

(** C3. With a certificate whose validity runs from [not_valid_before] to
    [not_valid_after], the reported current status is "currently valid"
    when the clock lies within the window, "not yet valid" when it lies
    before it, and "expired" when it lies after it. *)
Theorem C3_current_status_follows_window now xml_root cert :
  truthy (findtext xml_root [Desc ds_X509Certificate] "") = true →
  load_certificate (findtext xml_root [Desc ds_X509Certificate] "") = Return cert →
  not_valid_before_utc cert <= not_valid_after_utc cert →
  ∃ d, _extract_signature_info_from_xml now xml_root = Return d ∧
       (not_valid_before_utc cert <= now <= not_valid_after_utc cert →
        d !! "estado_certificado" = Some msg_currently_valid) ∧
       (now < not_valid_before_utc cert →
        d !! "estado_certificado" = Some msg_not_yet_valid) ∧
       (not_valid_after_utc cert < now →
        d !! "estado_certificado" = Some msg_expired).
Proof.
  intros Htext Hload Hwin.
  destruct (signature_found now _ _ Htext Hload) as (d & Hd & _ & Hst & _).
  exists d. split; [done|]. rewrite Hst. unfold estado_actual.
  repeat split; intros Hnow;
    destruct (Z.ltb_spec now (not_valid_before_utc cert));
    destruct (Z.gtb_spec now (not_valid_after_utc cert)); (done || lia).
Qed.

(** Outside the hypothesis of C3: when the two limits are in the wrong
    order, an instant between them is reported as "not yet valid". *)
Lemma current_status_inverted_window now valido_desde valido_hasta :
  valido_hasta < now < valido_desde →
  estado_actual now valido_desde valido_hasta = msg_not_yet_valid.
Proof.
  intros Hnow. unfold estado_actual.
  destruct (Z.ltb_spec now valido_desde); [done | lia].
Qed.

(** The outer handler turns every exception into a dictionary. *)
Lemma signature_info_returns now xml_root :
  ∃ d, _extract_signature_info_from_xml now xml_root = Return d.
Proof.
  unfold _extract_signature_info_from_xml.
  destruct (signature_info_body now xml_root); simpl; eauto.
Qed.


End SignatureProps.

Section SignatureWitnesses.
Import PyStr Exn ET Lib XsigPdf Samples.

Lemma C3_current_status_witness :
  ∃ d, @_extract_signature_info_from_xml sample_externals 1500 (signed_doc "junk") = Return d ∧
       (1000 <= 1500 <= 2000 → d !! "estado_certificado" = Some msg_currently_valid) ∧
       (1500 < 1000 → d !! "estado_certificado" = Some msg_not_yet_valid) ∧
       (2000 < 1500 → d !! "estado_certificado" = Some msg_expired).
Proof.
  apply (@C3_current_status_follows_window sample_externals 1500 (signed_doc "junk") sample_cert).
  - reflexivity.
  - reflexivity.
  - simpl. lia.
Defined.


Example validator_examples :
  @_extract_signature_info_from_xml sample_externals 2500 (Elem "Facturae" None [])
  = Return {[ "estado" := msg_no_certificate ]} ∧
  @_extract_signature_info_from_xml sample_externals 2500
     (Elem "Facturae" None [Elem ds_X509Certificate (Some "????") []])
  = Return {[ "estado" := "Error al extraer firma: Incorrect padding" ]}.
Proof. split; reflexivity. Qed.

End SignatureWitnesses.

(** ** The invoice extractor (claims C2, C5 and C9) *)

Section ExtractorProps.
Import PyStr Exn ET Lib XsigPdf Spec.
Context `{Externals}.

Lemma set_Firma_same d : set_Firma (Firma d) d = d.
Proof. by destruct d. Qed.

(** The extractor returns for every document and clock reading, and the
    fields that the claims are about are the ones computed by the helpers. *)
Lemma extractor_returns now xml_root :
  ∃ d firma,
    _extract_invoice_data_from_xml now xml_root = Return d ∧
    _extract_signature_info_from_xml now xml_root = Return firma ∧
    Firma d = firma ∧
    Emisor d = or_dict (_extract_party_full xml_root "SellerParty") emitter_fallback ∧
    Receptor d = receptor_of xml_root ∧
    Tercero d = _extract_party_full xml_root "ThirdParty" ∧
    PaymentDetails d = payment_details_of (find xml_root [Desc "Invoices"; Child "Invoice"]) ∧
    Clase_Factura d
    = match find xml_root [Desc "Invoices"; Child "Invoice"] with
      | Some invoice_element =>
          default NA (invoice_class_map
                        !! findtext invoice_element [Desc "InvoiceHeader"; Child "InvoiceClass"] NA)
      | None => NA
      end.
Proof.
  destruct (signature_info_returns now xml_root) as [firma Hf].
  unfold _extract_invoice_data_from_xml. rewrite Hf.
  destruct (find xml_root [Desc "Invoices"; Child "Invoice"]);
    cbv beta iota zeta delta [mbind exn_bind bind]; eexists _, firma; by repeat split.
Qed.

Lemma Return_inj {A} (a b : A) : Return a = Return b → a = b.
Proof. by intros [= ->]. Qed.

(** Two runs differ at most in the signature block. *)
Lemma extractor_clock now1 now2 xml_root d1 d2 :
  _extract_invoice_data_from_xml now1 xml_root = Return d1 →
  _extract_invoice_data_from_xml now2 xml_root = Return d2 →
  d2 = set_Firma (Firma d2) d1.
Proof.
  unfold _extract_invoice_data_from_xml.
  destruct (_extract_signature_info_from_xml now1 xml_root) as [f1|];
    destruct (_extract_signature_info_from_xml now2 xml_root) as [f2|];
    destruct (find xml_root [Desc "Invoices"; Child "Invoice"]);
    cbv beta iota zeta delta [mbind exn_bind bind]; try discriminate;
    intros H1%Return_inj H2%Return_inj; subst d1 d2; reflexivity.
Qed.

(** The signature block depends on the clock through two entries only:
    the current status, and the status at signing time, whose parser reads
    the clock. *)
Lemma signature_clock now1 now2 xml_root f1 f2 :
  _extract_signature_info_from_xml now1 xml_root = Return f1 →
  _extract_signature_info_from_xml now2 xml_root = Return f2 →
  (∀ k, k ≠ "estado_certificado" → k ≠ "validez_en_firma" → f1 !! k = f2 !! k) ∧
  (parse_datetime now1 (findtext xml_root [Desc xades_SigningTime] "No especificada")
   = parse_datetime now2 (findtext xml_root [Desc xades_SigningTime] "No especificada") →
   f1 !! "validez_en_firma" = f2 !! "validez_en_firma") ∧
  ((∀ cert, load_certificate (findtext xml_root [Desc ds_X509Certificate] "") = Return cert →
            estado_actual now1 (not_valid_before_utc cert) (not_valid_after_utc cert)
            = estado_actual now2 (not_valid_before_utc cert) (not_valid_after_utc cert) ∧
            validez_en_firma now1
              (findtext xml_root [Desc xades_SigningTime] "No especificada")
              (not_valid_before_utc cert) (not_valid_after_utc cert)
            = validez_en_firma now2
                (findtext xml_root [Desc xades_SigningTime] "No especificada")
                (not_valid_before_utc cert) (not_valid_after_utc cert)) →
   f1 = f2).
Proof.
  unfold _extract_signature_info_from_xml, signature_info_body.
  destruct (truthy (findtext xml_root [Desc ds_X509Certificate] "")); cbn [negb].
  - destruct (load_certificate (findtext xml_root [Desc ds_X509Certificate] "")) as [cert|e];
      cbn [mbind exn_bind bind try_except]; intros [= <-] [= <-].
    + split_and!.
      * intros k Hk Hk'. cbn [list_to_map foldr uncurry fst snd].
        rewrite !lookup_insert. repeat case_decide; congruence.
      * intros Hparse. cbn [list_to_map foldr uncurry fst snd].
        rewrite !lookup_insert. repeat case_decide; try congruence.
        unfold validez_en_firma. by rewrite Hparse.
      * intros Hsame. destruct (Hsame cert eq_refl) as [-> ->]. done.
    + done.
  - cbn [try_except]. intros [= <-] [= <-]. done.
Qed.

(** *** Party records *)

Lemma or_str_nonempty x d : d ≠ "" → or_str x d ≠ "".
Proof. intros Hd. unfold or_str. by destruct x. Qed.

Lemma findtext_absent e path d : find e path = None → findtext e path d = d.
Proof. intros Hf. unfold findtext. by rewrite Hf. Qed.

(** Membership of a literal in a literal list of fields. *)
Ltac in_fields :=
  unfold party_fields, address_fields;
  repeat first [ apply list_elem_of_here | apply list_elem_of_further ].

Ltac each_field Hk :=
  repeat (apply elem_of_cons in Hk as [->|Hk]); [..|by apply elem_of_nil in Hk].

Lemma address_components_complete entity :
  complete_record address_fields (_address_components entity).
Proof.
  intros k Hk. unfold _address_components, address_defaults.
  destruct entity as [e|]; [destruct (find e [Child "AddressInSpain"]);
    [|destruct (find e [Child "OverseasAddress"])]|];
  each_field Hk; eexists; (split; [lookup_literal|]).
  all: try (apply or_str_nonempty); try done.
Qed.

Lemma address_defaults_lookup k :
  k ∈ address_fields → address_defaults !! k = Some NA.
Proof. intros Hk. each_field Hk; reflexivity. Qed.

Lemma address_defaults_complete : complete_record address_fields address_defaults.
Proof. intros k Hk. exists NA. split; [by apply address_defaults_lookup | done]. Qed.

(** The address of an entity without [AddressInSpain]. *)
Lemma address_components_no_spain e :
  find e [Child "AddressInSpain"] = None →
  _address_components (Some e) !! "Poblacion" = Some NA ∧
  _address_components (Some e) !! "Cod.Postal" = Some NA ∧
  _address_components (Some e) !! "Provincia" = Some NA ∧
  (find e [Child "OverseasAddress"] = None →
   _address_components (Some e) !! k_Direccion = Some NA).
Proof.
  intros Hes. unfold _address_components, address_defaults. rewrite Hes.
  destruct (find e [Child "OverseasAddress"]).
  - repeat split; [lookup_literal..|done].
  - repeat split; reflexivity.
Qed.

(** The address of an entity with [AddressInSpain]. *)
Lemma address_components_spain e addr :
  find e [Child "AddressInSpain"] = Some addr →
  (find addr [Child "Town"] = None → _address_components (Some e) !! "Poblacion" = Some NA) ∧
  (find addr [Child "PostCode"] = None → _address_components (Some e) !! "Cod.Postal" = Some NA) ∧
  (find addr [Child "Province"] = None → _address_components (Some e) !! "Provincia" = Some NA) ∧
  (find addr [Child "Address"] = None → find addr [Child "PostCode"] = None →
   find addr [Child "Town"] = None → find addr [Child "Province"] = None →
   find addr [Child "CountryCode"] = None →
   _address_components (Some e) !! k_Direccion = Some NA).
Proof.
  intros Hes. unfold _address_components, address_defaults. rewrite Hes.
  repeat split.
  - intros Ht. rewrite (findtext_absent _ _ _ Ht). lookup_literal.
  - intros Ht. rewrite (findtext_absent _ _ _ Ht). lookup_literal.
  - intros Ht. rewrite (findtext_absent _ _ _ Ht). lookup_literal.
  - intros H1 H2 H3 H4 H5.
    rewrite (findtext_absent _ _ _ H1), (findtext_absent _ _ _ H2),
      (findtext_absent _ _ _ H3), (findtext_absent _ _ _ H4), (findtext_absent _ _ _ H5).
    lookup_literal.
Qed.

(** The dictionary [out] of [_extract_party_full]. *)
Lemma party_out_lookup name tax_id (addr_parts : gmap string string) :
  complete_record address_fields addr_parts →
  let out :=
    copy_key "Provincia" addr_parts
      (copy_key "Cod.Postal" addr_parts
         (copy_key "Poblacion" addr_parts
            (list_to_map [("Nombre", name); ("NIF", tax_id);
                          (k_Direccion, default NA (addr_parts !! k_Direccion))]))) in
  out !! "Nombre" = Some name ∧ out !! "NIF" = Some tax_id ∧
  ∀ k, k ∈ address_fields → out !! k = addr_parts !! k.
Proof.
  intros Hc.
  destruct (Hc k_Direccion) as (a & Ha & _); [in_fields|].
  destruct (Hc "Poblacion") as (p & Hp & _); [in_fields|].
  destruct (Hc "Cod.Postal") as (c & Hcp & _); [in_fields|].
  destruct (Hc "Provincia") as (v & Hv & _); [in_fields|].
  unfold copy_key. rewrite Ha, Hp, Hcp, Hv. cbn [default].
  split; [lookup_literal|]. split; [lookup_literal|].
  intros k Hk. each_field Hk.
  - rewrite Ha. lookup_literal.
  - rewrite Hp. lookup_literal.
  - rewrite Hcp. lookup_literal.
  - rewrite Hv. lookup_literal.
Qed.

(** The record of a party that is present: complete, and ["N/A"] wherever
    the source node is missing. *)
Lemma party_present xml_root party_tag party :
  find xml_root [Desc party_tag] = Some party →
  complete_record party_fields (_extract_party_full xml_root party_tag) ∧
  sentinel_on_missing party (_extract_party_full xml_root party_tag).
Proof.
  intros Hparty. unfold _extract_party_full. rewrite Hparty.
  unfold sentinel_on_missing, party_entity.
  destruct (find party [Desc "LegalEntity"]) as [legal|] eqn:Hlegal;
    [|destruct (find party [Desc "Individual"]) as [ind|] eqn:Hind]; cbv zeta iota beta.
  - pose proof (address_components_complete (Some legal)) as Hc.
    match goal with |- context [copy_key "Provincia" ?a (copy_key _ _ (copy_key _ _
        (list_to_map [("Nombre", ?n); ("NIF", ?t); _])))] =>
      destruct (party_out_lookup n t a Hc) as (Hn & Ht & Ha) end.
    split; [|split_and!].
    + intros k Hk. unfold party_fields in Hk.
      apply elem_of_cons in Hk as [->|Hk]; [|apply elem_of_cons in Hk as [->|Hk]].
      * eexists. split; [exact Hn|]. by apply or_str_nonempty.
      * eexists. split; [exact Ht|]. by apply or_str_nonempty.
      * rewrite (Ha k Hk). by apply Hc.
    + intros Htax. rewrite Ht. by rewrite (findtext_absent _ _ _ Htax).
    + intros legal' [= <-] Hname. rewrite Hn. by rewrite (findtext_absent _ _ _ Hname).
    + done.
    + done.
    + intros e [= <-] Hes. rewrite !Ha by in_fields.
      by apply address_components_no_spain.
    + intros e addr [= <-] Hes. rewrite !Ha by in_fields.
      by apply address_components_spain.
  - pose proof (address_components_complete (Some ind)) as Hc.
    match goal with |- context [copy_key "Provincia" ?a (copy_key _ _ (copy_key _ _
        (list_to_map [("Nombre", ?n); ("NIF", ?t); _])))] =>
      destruct (party_out_lookup n t a Hc) as (Hn & Ht & Ha) end.
    split; [|split_and!].
    + intros k Hk. unfold party_fields in Hk.
      apply elem_of_cons in Hk as [->|Hk]; [|apply elem_of_cons in Hk as [->|Hk]].
      * eexists. split; [exact Hn|]. by apply or_str_nonempty.
      * eexists. split; [exact Ht|]. by apply or_str_nonempty.
      * rewrite (Ha k Hk). by apply Hc.
    + intros Htax. rewrite Ht. by rewrite (findtext_absent _ _ _ Htax).
    + done.
    + intros ind' _ [= <-] H1 H2 H3. rewrite Hn.
      by rewrite (findtext_absent _ _ _ H1), (findtext_absent _ _ _ H2),
        (findtext_absent _ _ _ H3).
    + done.
    + intros e [= <-] Hes. rewrite !Ha by in_fields.
      by apply address_components_no_spain.
    + intros e addr [= <-] Hes. rewrite !Ha by in_fields.
      by apply address_components_spain.
  - pose proof address_defaults_complete as Hc.
    match goal with |- context [copy_key "Provincia" ?a (copy_key _ _ (copy_key _ _
        (list_to_map [("Nombre", ?n); ("NIF", ?t); _])))] =>
      destruct (party_out_lookup n t a Hc) as (Hn & Ht & Ha) end.
    split; [|split_and!].
    + intros k Hk. unfold party_fields in Hk.
      apply elem_of_cons in Hk as [->|Hk]; [|apply elem_of_cons in Hk as [->|Hk]].
      * eexists. split; [exact Hn|]. done.
      * eexists. split; [exact Ht|]. by apply or_str_nonempty.
      * rewrite (Ha k Hk). by apply Hc.
    + intros Htax. rewrite Ht. by rewrite (findtext_absent _ _ _ Htax).
    + done.
    + done.
    + intros _. split; [by rewrite Hn|].
      intros k Hk. rewrite (Ha k Hk). by apply address_defaults_lookup.
    + done.
    + done.
Qed.

Lemma party_absent xml_root party_tag :
  find xml_root [Desc party_tag] = None → _extract_party_full xml_root party_tag = ∅.
Proof. intros Hparty. unfold _extract_party_full. by rewrite Hparty. Qed.

Lemma or_dict_present (r fallback : gmap string string) k v :
  r !! k = Some v → or_dict r fallback = r.
Proof.
  intros Hk. unfold or_dict. case_decide as He; [|done].
  rewrite He in Hk. by rewrite lookup_empty in Hk.
Qed.

(** The entries that [receptor_of] adds do not touch the party fields. *)
Lemma receptor_lookup xml_root k :
  k ∈ party_fields →
  receptor_of xml_root !! k
  = or_dict (_extract_party_full xml_root "BuyerParty") receptor_fallback !! k.
Proof.
  intros Hk. unfold receptor_of. cbv zeta.
  each_field Hk; by rewrite !lookup_insert_ne by discriminate.
Qed.

(** The payment-means table has the nineteen keys ["01"] to ["19"], and the
    class table the six two-letter codes. *)
Lemma payment_means_keys :
  payment_means_table.*1
  = ["01"; "02"; "03"; "04"; "05"; "06"; "07"; "08"; "09"; "10";
     "11"; "12"; "13"; "14"; "15"; "16"; "17"; "18"; "19"] ∧
  length payment_means_table = 19%nat ∧
  dom invoice_class_map = list_to_set ["OO"; "OR"; "OC"; "CO"; "CR"; "CC"].
Proof. split; [reflexivity|]. split; [reflexivity|]. by vm_compute. Qed.

(** C9. A payment-means code outside the nineteen keys of the table is
    itself the label of the payment terms; an invoice class outside its
    table is reported as ["N/A"]. *)
Theorem C9_unknown_payment_means_keeps_code now xml_root invoice_element payment :
  find xml_root [Desc "Invoices"; Child "Invoice"] = Some invoice_element →
  find invoice_element [Desc "PaymentDetails"; Child "Installment"] = Some payment →
  ∃ d, _extract_invoice_data_from_xml now xml_root = Return d ∧
       (strip (or_str (findtext payment [Child "PaymentMeans"] "") "") ∉ payment_means_table.*1 →
        PaymentDetails d !! "means_code"
        = Some (strip (or_str (findtext payment [Child "PaymentMeans"] "") "")) ∧
        PaymentDetails d !! "means"
        = Some (strip (or_str (findtext payment [Child "PaymentMeans"] "") ""))) ∧
       (findtext invoice_element [Desc "InvoiceHeader"; Child "InvoiceClass"] NA
          ∉ dom invoice_class_map →
        Clase_Factura d = NA).
Proof.
  intros Hinv Hpay.
  destruct (extractor_returns now xml_root) as (d & firma & Hd & _ & _ & _ & _ & _ & Hp & Hc).
  exists d. split; [done|]. rewrite Hp, Hc, Hinv. split.
  - intros Hcode. unfold payment_details_of. rewrite Hpay.
    unfold payment_means_map. rewrite (not_elem_of_list_to_map_1 _ _ Hcode).
    split; lookup_literal.
  - intros Hclass. apply not_elem_of_dom in Hclass. by rewrite Hclass.
Qed.

(** C5, as amended. The extractor returns for every document and every
    clock reading; two runs on the same document agree on every field
    outside the signature block and on every entry of the signature block
    other than the current status of the certificate and its status at
    signing time; they agree on the status at signing time as well when
    the signing time reads the same at both clock readings; and they agree
    on the whole record as soon as the two clock readings give the same
    current status and the same status at signing time. *)
Theorem C5_extraction_depends_on_clock_only_through_status now1 now2 xml_root :
  ∃ d1 d2,
    _extract_invoice_data_from_xml now1 xml_root = Return d1 ∧
    _extract_invoice_data_from_xml now2 xml_root = Return d2 ∧
    d2 = set_Firma (Firma d2) d1 ∧
    (∀ k, k ≠ "estado_certificado" → k ≠ "validez_en_firma" →
          Firma d1 !! k = Firma d2 !! k) ∧
    (parse_datetime now1 (findtext xml_root [Desc xades_SigningTime] "No especificada")
     = parse_datetime now2 (findtext xml_root [Desc xades_SigningTime] "No especificada") →
     Firma d1 !! "validez_en_firma" = Firma d2 !! "validez_en_firma") ∧
    ((∀ cert, load_certificate (findtext xml_root [Desc ds_X509Certificate] "") = Return cert →
              estado_actual now1 (not_valid_before_utc cert) (not_valid_after_utc cert)
              = estado_actual now2 (not_valid_before_utc cert) (not_valid_after_utc cert) ∧
              validez_en_firma now1
                (findtext xml_root [Desc xades_SigningTime] "No especificada")
                (not_valid_before_utc cert) (not_valid_after_utc cert)
              = validez_en_firma now2
                  (findtext xml_root [Desc xades_SigningTime] "No especificada")
                  (not_valid_before_utc cert) (not_valid_after_utc cert)) →
     d1 = d2).
Proof.
  destruct (extractor_returns now1 xml_root) as (d1 & f1 & Hd1 & Hf1 & Hfirma1 & _).
  destruct (extractor_returns now2 xml_root) as (d2 & f2 & Hd2 & Hf2 & Hfirma2 & _).
  exists d1, d2. split; [done|]. split; [done|].
  pose proof (extractor_clock _ _ _ _ _ Hd1 Hd2) as Heq.
  destruct (signature_clock _ _ _ _ _ Hf1 Hf2) as (Hother & Hparse & Hsame).
  split; [done|]. rewrite Hfirma1, Hfirma2. split_and!; [done..|].
  intros Hst. rewrite Heq, Hfirma2, <- (Hsame Hst), <- Hfirma1. by rewrite set_Firma_same.
Qed.

Lemma complete_record_ext fs (r r' : gmap string string) :
  (∀ k, k ∈ fs → r' !! k = r !! k) → complete_record fs r → complete_record fs r'.
Proof. intros Hext Hc k Hk. rewrite (Hext k Hk). by apply Hc. Qed.

Lemma sentinel_on_missing_ext party (r r' : gmap string string) :
  (∀ k, k ∈ party_fields → r' !! k = r !! k) →
  sentinel_on_missing party r → sentinel_on_missing party r'.
Proof.
  intros Hext (S1 & S2 & S3 & S4 & S5 & S6).
  assert (∀ k, k ∈ address_fields → r' !! k = r !! k) as Hext'.
  { intros k Hk. apply Hext. by apply list_elem_of_further, list_elem_of_further. }
  unfold sentinel_on_missing.
  rewrite !(Hext "NIF"), !(Hext "Nombre"), !(Hext "Poblacion"), !(Hext "Cod.Postal"),
    !(Hext "Provincia"), !(Hext k_Direccion) by in_fields.
  split_and!; try done.
  intros Hnone. destruct (S4 Hnone) as [Hn Ha]. split; [done|].
  intros k Hk. rewrite (Hext' k Hk). by apply Ha.
Qed.

(** C2, as amended. The extractor returns for every document. The record of
    a party whose element is present has the six fields [Nombre], [NIF],
    [Dirección], [Poblacion], [Cod.Postal] and [Provincia], each a non-empty
    string, and each ["N/A"] when its source node is missing. A missing
    seller gives the six fields, all ["N/A"]; a missing buyer gives
    [Nombre], [NIF] and [Dirección] as ["N/A"] and no [Poblacion],
    [Cod.Postal] or [Provincia]; a missing third party gives the empty
    record. *)
Theorem C2_party_records_sentinel_when_present now xml_root :
  ∃ d, _extract_invoice_data_from_xml now xml_root = Return d ∧
    (∀ party, find xml_root [Desc "SellerParty"] = Some party →
       complete_record party_fields (Emisor d) ∧ sentinel_on_missing party (Emisor d)) ∧
    (find xml_root [Desc "SellerParty"] = None →
       ∀ k, k ∈ party_fields → Emisor d !! k = Some NA) ∧
    (∀ party, find xml_root [Desc "BuyerParty"] = Some party →
       complete_record party_fields (Receptor d) ∧ sentinel_on_missing party (Receptor d)) ∧
    (find xml_root [Desc "BuyerParty"] = None →
       (∀ k, k ∈ ["Nombre"; "NIF"; k_Direccion] → Receptor d !! k = Some NA) ∧
       (∀ k, k ∈ ["Poblacion"; "Cod.Postal"; "Provincia"] → Receptor d !! k = None)) ∧
    (∀ party, find xml_root [Desc "ThirdParty"] = Some party →
       complete_record party_fields (Tercero d) ∧ sentinel_on_missing party (Tercero d)) ∧
    (find xml_root [Desc "ThirdParty"] = None → Tercero d = ∅).
Proof.
  destruct (extractor_returns now xml_root) as (d & firma & Hd & _ & _ & He & Hr & Ht & _).
  exists d. split; [done|]. rewrite He, Ht. split_and!.
  - intros party Hp. destruct (party_present _ _ _ Hp) as [Hc Hs].
    destruct (Hc "Nombre") as (v & Hv & _); [in_fields|].
    by rewrite (or_dict_present _ _ _ _ Hv).
  - intros Hp k Hk. rewrite (party_absent _ _ Hp). each_field Hk; reflexivity.
  - intros party Hp. destruct (party_present _ _ _ Hp) as [Hc Hs].
    assert (∀ k, k ∈ party_fields →
              Receptor d !! k = _extract_party_full xml_root "BuyerParty" !! k) as Hext.
    { intros k Hk. rewrite Hr, (receptor_lookup _ _ Hk).
      destruct (Hc "Nombre") as (v & Hv & _); [in_fields|].
      by rewrite (or_dict_present _ _ _ _ Hv). }
    split; [by eapply complete_record_ext | by eapply sentinel_on_missing_ext].
  - intros Hp. split; intros k Hk.
    + each_field Hk; rewrite Hr, receptor_lookup by in_fields;
        rewrite (party_absent _ _ Hp); reflexivity.
    + each_field Hk; rewrite Hr, receptor_lookup by in_fields;
        rewrite (party_absent _ _ Hp); reflexivity.
  - intros party Hp. by apply party_present.
  - apply party_absent.
Qed.

End ExtractorProps.

Section ExtractorWitnesses.
Import PyStr Exn ET Lib XsigPdf Samples Spec.

Lemma C9_unknown_payment_means_witness :
  ∃ d, @_extract_invoice_data_from_xml sample_externals 1500 (invoice_doc " 99 ") = Return d ∧
       PaymentDetails d !! "means_code" = Some "99" ∧
       PaymentDetails d !! "means" = Some "99" ∧
       Clase_Factura d = NA.
Proof.
  destruct (@C9_unknown_payment_means_keeps_code sample_externals 1500 (invoice_doc " 99 ")
              (Elem "Invoice" None [
                 Elem "InvoiceHeader" None [
                   leaf "InvoiceNumber" "5"; leaf "InvoiceSeriesCode" "A"; leaf "InvoiceClass" "ZZ"
                 ];
                 Elem "PaymentDetails" None [
                   Elem "Installment" None [
                     leaf "InstallmentDueDate" "2024-01-31"; leaf "PaymentMeans" " 99 "
                   ]
                 ]
               ])
              (Elem "Installment" None [
                 leaf "InstallmentDueDate" "2024-01-31"; leaf "PaymentMeans" " 99 "
               ]) eq_refl eq_refl) as (d & Hd & Hmeans & Hclass).
  exists d. split; [exact Hd|].
  destruct Hmeans as [Hcode Hlabel].
  - vm_compute. intros Hin. repeat (apply elem_of_cons in Hin as [Hin|Hin]; [discriminate|]).
    by apply elem_of_nil in Hin.
  - split; [exact Hcode|]. split; [exact Hlabel|].
    apply Hclass. vm_compute. intros Hin. set_solver.
Defined.

Lemma C2_party_records_witness :
  ∃ d, @_extract_invoice_data_from_xml sample_externals 1500 (invoice_doc "04") = Return d ∧
       complete_record party_fields (Emisor d) ∧
       Emisor d !! "Provincia" = Some NA ∧
       Tercero d = ∅.
Proof.
  destruct (@C2_party_records_sentinel_when_present sample_externals 1500 (invoice_doc "04"))
    as (d & Hd & Hseller & _ & _ & _ & _ & Hthird).
  exists d. split; [exact Hd|].
  destruct (Hseller sample_seller eq_refl) as [Hc (_ & _ & _ & _ & _ & Hspain)].
  split; [exact Hc|]. split; [|exact (Hthird eq_refl)].
  destruct (Hspain sample_seller_entity sample_seller_address eq_refl eq_refl)
    as (_ & _ & Hprov & _).
  exact (Hprov eq_refl).
Defined.

(** The claim C2 as it is worded fails: a document without parties gives a
    third-party record without any field, and a buyer record without
    [Poblacion], [Cod.Postal] and [Provincia]. *)
Lemma C2_absent_party_fields_omitted :
  ¬ (∀ (X : Externals) (now : Z) (xml_root : Element) (d : InvoiceData),
       @_extract_invoice_data_from_xml X now xml_root = Return d →
       ∀ k, k ∈ party_fields →
            is_Some (Emisor d !! k) ∧ is_Some (Receptor d !! k) ∧ is_Some (Tercero d !! k)).
Proof.
  intros Hall.
  destruct (@extractor_returns sample_externals 1500 (Elem "Facturae" None []))
    as (d & firma & Hd & _ & _ & _ & _ & Ht & _).
  destruct (Hall _ _ _ _ Hd "Nombre") as (_ & _ & Hthird).
  - apply list_elem_of_here.
  - rewrite Ht in Hthird. vm_compute in Hthird. by destruct Hthird.
Qed.

Example absent_parties_values :
  _extract_party_full (Elem "Facturae" None []) "ThirdParty" = ∅ ∧
  receptor_of (Elem "Facturae" None []) !! "Nombre" = Some NA ∧
  receptor_of (Elem "Facturae" None []) !! "Poblacion" = None ∧
  receptor_of (Elem "Facturae" None []) !! "OfiCont" = Some NA.
Proof. repeat split. Qed.

(** The claim C5 as it is worded fails: the same document, signed with a
    certificate that the libraries decode, read within the validity window
    of the certificate and after it, gives two different records. *)
Lemma C5_two_runs_differ :
  ¬ (∀ (X : Externals) (now1 now2 : Z) (xml_root : Element),
       @_extract_invoice_data_from_xml X now1 xml_root
       = @_extract_invoice_data_from_xml X now2 xml_root).
Proof.
  intros Hsame.
  specialize (Hsame MoreSamples.acme_externals MoreSamples.september_2024
                MoreSamples.june_2025
                (MoreSamples.acme_signed_doc "2024-06-01T10:00:00Z")).
  apply (f_equal (λ r, match r with
                       | Return d => Firma d !! "estado_certificado"
                       | Raise _ => None
                       end)) in Hsame.
  vm_compute in Hsame. discriminate.
Qed.

Lemma C5_extraction_witness :
  ∃ d1 d2,
    @_extract_invoice_data_from_xml MoreSamples.acme_externals MoreSamples.march_2024
      (MoreSamples.acme_signed_doc "2024-06-01T10:00:00Z") = Return d1 ∧
    @_extract_invoice_data_from_xml MoreSamples.acme_externals MoreSamples.september_2024
      (MoreSamples.acme_signed_doc "2024-06-01T10:00:00Z") = Return d2 ∧
    d1 = d2.
Proof.
  destruct (@C5_extraction_depends_on_clock_only_through_status MoreSamples.acme_externals
              MoreSamples.march_2024 MoreSamples.september_2024
              (MoreSamples.acme_signed_doc "2024-06-01T10:00:00Z"))
    as (d1 & d2 & H1 & H2 & _ & _ & _ & Hsame).
  exists d1, d2. split; [exact H1|]. split; [exact H2|].
  apply Hsame. intros cert Hload. vm_compute in Hload.
  injection Hload as <-. split; reflexivity.
Defined.

(** The entries of the signature block that follow the clock, for the
    sample certificate: the current status within its validity and after
    it; and, for a signing time that states no date, the status at signing
    time at two readings with the same current status. *)
Example two_runs_status_values :
  (∃ f1 f2,
     @_extract_signature_info_from_xml MoreSamples.acme_externals MoreSamples.september_2024
       (MoreSamples.acme_signed_doc "2024-06-01T10:00:00Z") = Return f1 ∧
     @_extract_signature_info_from_xml MoreSamples.acme_externals MoreSamples.june_2025
       (MoreSamples.acme_signed_doc "2024-06-01T10:00:00Z") = Return f2 ∧
     f1 !! "estado_certificado" = Some msg_currently_valid ∧
     f2 !! "estado_certificado" = Some msg_expired ∧
     f1 !! "validez_en_firma" = Some msg_valid_at_signing ∧
     f2 !! "validez_en_firma" = Some msg_valid_at_signing ∧
     f1 !! "valido_desde" = Some "2024-01-01" ∧ f1 !! "valido_hasta" = Some "2025-01-01" ∧
     f1 !! "firmante" = Some "ACME SA" ∧ f1 !! "nif" = Some "A12345678") ∧
  (∃ f1 f2,
     @_extract_signature_info_from_xml MoreSamples.acme_externals MoreSamples.september_2024
       (MoreSamples.acme_signed_doc "10:30") = Return f1 ∧
     @_extract_signature_info_from_xml MoreSamples.acme_externals MoreSamples.new_year_2025
       (MoreSamples.acme_signed_doc "10:30") = Return f2 ∧
     f1 !! "estado_certificado" = Some msg_currently_valid ∧
     f2 !! "estado_certificado" = Some msg_currently_valid ∧
     f1 !! "validez_en_firma" = Some msg_valid_at_signing ∧
     f2 !! "validez_en_firma" = Some msg_not_valid_at_signing).
Proof.
  split; eexists _, _; (split; [reflexivity|]); (split; [reflexivity|]); by vm_compute.
Qed.

End ExtractorWitnesses.

(** ** Strings *)

Section StringProps.
Import PyStr PyFloat Spec.
#[local] Arguments Ascii.eqb : simpl never.

Lemma truthy_false s : truthy s = false ↔ s = "".
Proof. by destruct s. Qed.

Lemma truthy_true s : truthy s = true ↔ s ≠ "".
Proof. by destruct s. Qed.

Lemma or_str_empty x : or_str x "" = x.
Proof. by destruct x. Qed.

Lemma mem_char_cons c a s :
  mem_char c (String a s) = Ascii.eqb c a || mem_char c s.
Proof. reflexivity. Qed.

Lemma rstrip_by_empty p s : rstrip_by p s = "" ↔ all_chars p s = true.
Proof.
  induction s as [|c s IH]; [done|]. simpl.
  destruct (rstrip_by p s) eqn:Hr.
  - destruct (p c); simpl; [|done]. split; [intros _; by apply IH | done].
  - split; [done|]. intros [_ Hs]%andb_true_iff. by apply IH in Hs.
Qed.

Lemma lstrip_by_empty p s : lstrip_by p s = "" ↔ all_chars p s = true.
Proof.
  induction s as [|c s IH]; [done|]. simpl. destruct (p c); simpl; [done|]. split; done.
Qed.

(** What [rstrip_by] leaves does not consist of stripped characters. *)
Lemma rstrip_by_all p s : all_chars p (rstrip_by p s) = true → rstrip_by p s = "".
Proof.
  induction s as [|c s IH]; [done|]. simpl.
  destruct (rstrip_by p s) eqn:Hr.
  - destruct (p c) eqn:Hp; [done|]. simpl. by rewrite Hp.
  - simpl. intros [_ Hs]%andb_true_iff. by specialize (IH Hs).
Qed.

(** What [rstrip_by] leaves does not end in a stripped character. *)
Lemma rstrip_by_last p s t c : rstrip_by p s = t +:+ String c "" → p c = false.
Proof.
  revert t. induction s as [|a s IH]; intros t; simpl.
  - by destruct t.
  - destruct (rstrip_by p s) as [|b r] eqn:Hr.
    + destruct (p a) eqn:Hp; [by destruct t|].
      destruct t as [|a' t]; simpl; [by intros [= <-]|]. by destruct t.
    + destruct t as [|a' t]; simpl; [done|]. intros [= <- Ht]. by eapply IH.
Qed.

(** A string is empty after trimming exactly when it consists of white
    space. *)
Lemma strip_empty s : strip s = "" ↔ all_chars isspace s = true.
Proof.
  unfold strip. rewrite lstrip_by_empty. split.
  - intros Ha. by apply rstrip_by_empty, rstrip_by_all.
  - intros Ha. apply rstrip_by_empty in Ha. by rewrite Ha.
Qed.

Lemma length_zeros n : String.length (zeros n) = n.
Proof. induction n as [|n IH]; simpl; [done | by rewrite IH]. Qed.

Lemma length_append s t : String.length (s +:+ t) = (String.length s + String.length t)%nat.
Proof. induction s as [|c s IH]; simpl; [done | by rewrite IH]. Qed.

(** [zfill] never shortens, and fills up to the width. *)
Lemma length_zfill width s :
  String.length (zfill width s) = Nat.max width (String.length s).
Proof.
  unfold zfill. destruct (Nat.leb_spec width (String.length s)); [lia|].
  destruct s as [|c s]; [rewrite length_zeros; simpl; lia|].
  destruct (is_sign c); simpl; rewrite length_append, length_zeros; simpl in *; lia.
Qed.

(** Without a leading sign the zeros go in front. *)
Lemma zfill_unsigned width c s :
  is_sign c = false →
  zfill width (String c s) = zeros (width - String.length (String c s)) +:+ String c s.
Proof.
  intros Hc. unfold zfill.
  destruct (Nat.leb_spec width (String.length (String c s))) as [Hle|Hlt].
  - replace (width - String.length (String c s))%nat with 0%nat by lia. done.
  - by rewrite Hc.
Qed.

(** A digit is not a sign, so a string of digits is filled on its left. *)
Lemma zfill_digits width s :
  isdigit s = true → zfill width s = zeros (width - String.length s) +:+ s.
Proof.
  intros Hd. destruct s as [|c s]; [done|]. apply zfill_unsigned.
  unfold isdigit in Hd. simpl in Hd. apply andb_true_iff in Hd as [Hc _].
  unfold is_sign, isdigit_char, isdecimal, in_range in *.
  destruct (N.eqb_spec (ord c) 43) as [E|]; [by rewrite E in Hc|].
  destruct (N.eqb_spec (ord c) 45) as [E|]; [by rewrite E in Hc|done].
Qed.

(** *** No comma in what [float()] accepts *)

Lemma lstrip_by_keeps p c s :
  p c = false → mem_char c s = true → mem_char c (lstrip_by p s) = true.
Proof.
  intros Hp. induction s as [|a s IH]; [done|]. intros Hm. simpl.
  destruct (p a) eqn:Hpa; [|done]. apply IH.
  rewrite mem_char_cons in Hm. destruct (Ascii.eqb_spec c a) as [->|]; [congruence|done].
Qed.

Lemma rstrip_by_keeps p c s :
  p c = false → mem_char c s = true → mem_char c (rstrip_by p s) = true.
Proof.
  intros Hp. induction s as [|a s IH]; [done|]. intros Hm. simpl.
  rewrite mem_char_cons in Hm.
  destruct (Ascii.eqb_spec c a) as [->|Hne].
  - destruct (rstrip_by p s); [rewrite Hp|]; simpl; by rewrite Ascii.eqb_refl.
  - simpl in Hm. specialize (IH Hm).
    destruct (rstrip_by p s); [done|]. rewrite mem_char_cons, IH. apply orb_true_r.
Qed.

Lemma strip_underscores_keeps prev s t :
  strip_underscores prev s = Some t → mem_char comma s = true → mem_char comma t = true.
Proof.
  revert prev t. induction s as [|a s IH]; intros prev t; [by intros _ [=]|].
  cbn [strip_underscores]. rewrite mem_char_cons.
  destruct (Ascii.eqb_spec a "_") as [->|Hne].
  - destruct (isdecimal prev); [|done]. intros Hs Hm. eapply IH; [exact Hs | exact Hm].
  - destruct (Ascii.eqb prev "_" && negb (isdecimal a)); [done|].
    destruct (strip_underscores a s) as [t'|] eqn:Hs; [|done].
    intros [= <-] Hm. rewrite mem_char_cons.
    destruct (Ascii.eqb comma a); [done|]. eapply IH; [exact Hs | exact Hm].
Qed.

Lemma parse_sign_keeps t neg r :
  parse_sign t = (neg, r) → mem_char comma t = true → mem_char comma r = true.
Proof.
  destruct t as [|a t]; simpl; [by intros [= <- <-]|].
  destruct (Ascii.eqb_spec a "-") as [->|]; [by intros [= <- <-]|].
  destruct (Ascii.eqb_spec a "+") as [->|]; [by intros [= <- <-]|].
  by intros [= <- <-].
Qed.

Lemma lower_keeps r : mem_char comma r = true → mem_char comma (lower r) = true.
Proof.
  induction r as [|a r IH]; [done|]. simpl.
  destruct (Ascii.eqb_spec comma a) as [<-|]; [done|]. simpl. intros Hm.
  rewrite (IH Hm). apply orb_true_r.
Qed.

Lemma isdecimal_not_comma a : isdecimal a = true → Ascii.eqb comma a = false.
Proof. destruct (Ascii.eqb_spec comma a) as [<-|]; [done|done]. Qed.

Lemma span_digits_rest acc n s v k rest :
  span_digits acc n s = (v, k, rest) → mem_char comma s = mem_char comma rest.
Proof.
  revert acc n. induction s as [|a s IH]; intros acc n; simpl.
  - by intros [= <- <- <-].
  - destruct (isdecimal a) eqn:Hd; [|by intros [= <- <- <-]].
    intros Hs. rewrite (isdecimal_not_comma _ Hd). simpl. by eapply IH.
Qed.

Lemma parse_exponent_no_comma s x :
  parse_exponent s = Some x → mem_char comma s = false.
Proof.
  destruct s as [|c r]; [done|]. simpl.
  destruct (Ascii.eqb_spec (lower_char c) "e") as [He|]; [|done].
  destruct (parse_sign r) as [neg r1] eqn:Hsign.
  destruct (span_digits 0 0 r1) as [[v n] r2] eqn:Hspan.
  destruct (n =? 0)%nat; [done|]. simpl.
  destruct (truthy r2) eqn:Ht; [done|]. intros _.
  apply truthy_false in Ht. subst r2.
  apply span_digits_rest in Hspan. simpl in Hspan.
  destruct (Ascii.eqb_spec comma c) as [<-|]; [done|]. simpl.
  destruct (mem_char comma r) eqn:Hm; [|done].
  by rewrite (parse_sign_keeps _ _ _ Hsign Hm) in Hspan.
Qed.

Lemma parse_number_no_comma s r :
  parse_number s = Some r → mem_char comma s = false.
Proof.
  unfold parse_number.
  destruct (span_digits 0 0 s) as [[ip ni] r0] eqn:Hspan.
  rewrite (span_digits_rest _ _ _ _ _ _ Hspan).
  destruct r0 as [|c r1].
  - done.
  - destruct (Ascii.eqb_spec c ".") as [->|Hne].
    + destruct (span_digits ip 0 r1) as [[D nf] r2] eqn:Hspan2.
      destruct (ni + nf =? 0)%nat; [done|].
      destruct (parse_exponent r2) as [x|] eqn:Hexp; [|done]. intros _.
      simpl. rewrite (span_digits_rest _ _ _ _ _ _ Hspan2).
      by eapply parse_exponent_no_comma.
    + destruct (ni + 0 =? 0)%nat; [done|].
      destruct (parse_exponent (String c r1)) as [x|] eqn:Hexp; [|done]. intros _.
      by eapply parse_exponent_no_comma.
Qed.

Lemma float_no_comma x v : float_of_str x = Some v → mem_char comma x = false.
Proof.
  unfold float_of_str. intros Hf.
  destruct (mem_char comma x) eqn:Hm; [|done]. exfalso.
  assert (mem_char comma (strip_numeric x) = true) as Hm1.
  { unfold strip_numeric. apply lstrip_by_keeps; [done|]. by apply rstrip_by_keeps. }
  destruct (strip_underscores zero (strip_numeric x)) as [t|] eqn:Hu; [|done].
  pose proof (strip_underscores_keeps _ _ _ Hu Hm1) as Hm2.
  cbn [mbind option_bind] in Hf.
  destruct (parse_sign t) as [neg r] eqn:Hsign.
  pose proof (parse_sign_keeps _ _ _ Hsign Hm2) as Hm3.
  pose proof (lower_keeps _ Hm3) as Hm4.
  repeat case_bool_decide; try (by match goal with H : lower r = _ |- _ => rewrite H in Hm4 end).
  simpl in Hf.
  destruct (parse_number r) as [[D e]|] eqn:Hn; [|done].
  apply parse_number_no_comma in Hn. congruence.
Qed.

Lemma replace_char_absent old new s :
  mem_char old s = false → replace_char old new s = s.
Proof.
  induction s as [|a s IH]; [done|]. simpl.
  rewrite (Ascii.eqb_sym a old). destruct (Ascii.eqb old a); [done|]. simpl.
  intros Hm. by rewrite IH.
Qed.

End StringProps.

(** ** The rate formatter (claim C6) *)

Section RateProps.
Import PyStr PyFloat XsigPdf Spec.

Lemma fmt_rate_parseable x v :
  float_of_str x = Some v → _fmt_rate x = rstrip "." (rstrip "0" (format_2f v)).
Proof.
  intros Hf. unfold _fmt_rate.
  rewrite (replace_char_absent _ _ _ (float_no_comma _ _ Hf)). by rewrite Hf.
Qed.

(** C6, as amended. A rate is parsed after its commas are replaced by
    points. When the result parses as a float, the rate is formatted with
    two decimals and loses its trailing zeros and then a trailing point, so
    that it never ends in a point; this covers every string that parses as
    it stands, and ["4.00"], ["4.50"] and ["4.25"] give ["4"], ["4.5"] and
    ["4.25"]. Otherwise the trimmed string is returned. *)
Theorem C6_rate_formatted_after_comma_replacement :
  (∀ x v, float_of_str x = Some v →
          _fmt_rate x = rstrip "." (rstrip "0" (format_2f v))) ∧
  (∀ x v, float_of_str (replace_char "," "." x) = Some v →
          _fmt_rate x = rstrip "." (rstrip "0" (format_2f v)) ∧
          ∀ t c, _fmt_rate x = t +:+ String c "" → c ≠ "."%char) ∧
  (∀ x, float_of_str (replace_char "," "." x) = None → _fmt_rate x = strip x) ∧
  _fmt_rate "4.00" = "4" ∧ _fmt_rate "4.50" = "4.5" ∧ _fmt_rate "4.25" = "4.25".
Proof.
  split_and!.
  - apply fmt_rate_parseable.
  - intros x v Hf. unfold _fmt_rate. rewrite Hf. split; [done|].
    intros t c Ht ->. apply rstrip_by_last in Ht. done.
  - intros x Hf. unfold _fmt_rate. by rewrite Hf, or_str_empty.
  - by vm_compute.
  - by vm_compute.
  - by vm_compute.
Qed.

Lemma C6_rate_witness :
  _fmt_rate "7,50" = rstrip "." (rstrip "0" (format_2f (Fin false 8444249301319680 (-50)))) ∧
  ∀ t c, _fmt_rate "7,50" = t +:+ String c "" → c ≠ "."%char.
Proof.
  apply (proj1 (proj2 C6_rate_formatted_after_comma_replacement) "7,50").
  by vm_compute.
Defined.

(** The claim C6 as it is worded fails: ["4,50"] does not parse as a float,
    and it is not returned trimmed. *)
Lemma C6_comma_string_is_reformatted :
  ¬ (∀ x, float_of_str x = None → _fmt_rate x = strip x).
Proof.
  intros Hall. specialize (Hall "4,50" eq_refl). vm_compute in Hall. discriminate.
Qed.

Example fmt_rate_examples :
  float_of_str "4,50" = None ∧ _fmt_rate "4,50" = "4.5" ∧ strip "4,50" = "4,50" ∧
  _fmt_rate "7.50" = "7.5" ∧ _fmt_rate "2.675" = "2.67" ∧ _fmt_rate "0.125" = "0.12" ∧
  _fmt_rate "1e3" = "1000" ∧ _fmt_rate "-0.001" = "-0" ∧ _fmt_rate "nan" = "nan" ∧
  _fmt_rate " n/d " = "n/d".
Proof. split_and!; by vm_compute. Qed.

End RateProps.

(** ** The area code (claim C8) *)

Section AreaCodeProps.
Import PyStr Areas Service.

(** C8, as amended. [_normalize_area_code] gives [""] for [None] and for
    the empty string; any other input is trimmed, and the trimmed text is
    filled with zeros on its left up to two characters when it consists of
    digits (so ["1"] gives ["01"]), and returned as it is otherwise.
    [normalizar_area] agrees with it whenever [int()] rejects the trimmed
    text, as it does for a text of more than 4300 digits; when [int()]
    accepts it, the value is written with at least two digits, so that
    ["+1"] gives ["01"] and ["007"] gives ["07"]. *)
Theorem C8_area_code_normalisation :
  (_normalize_area_code None = "" ∧ _normalize_area_code (Some "") = "" ∧
   _normalize_area_code (Some "1") = "01") ∧
  (∀ a, a ≠ "" → isdigit (strip a) = true →
        _normalize_area_code (Some a)
        = zeros (2 - String.length (strip a)) +:+ strip a) ∧
  (∀ a, a ≠ "" → isdigit (strip a) = false → _normalize_area_code (Some a) = strip a) ∧
  (normalizar_area None = "" ∧ normalizar_area (Some "") = "" ∧
   normalizar_area (Some "1") = "01") ∧
  (∀ a, int (strip a) = None → normalizar_area (Some a) = _normalize_area_code (Some a)) ∧
  (∀ a n, int (strip a) = Some n → normalizar_area (Some a) = format_02d n) ∧
  (normalizar_area (Some "+1") = "01" ∧ normalizar_area (Some "007") = "07" ∧
   _normalize_area_code (Some "+1") = "+1" ∧ _normalize_area_code (Some "007") = "007") ∧
  (int (zeros 4299 +:+ "7") = Some 7 ∧ int (zeros 4300 +:+ "7") = None ∧
   normalizar_area (Some (zeros 4299 +:+ "7")) = "07" ∧
   normalizar_area (Some (zeros 4300 +:+ "7")) = zeros 4300 +:+ "7").
Proof.
  split_and!.
  - reflexivity.
  - reflexivity.
  - reflexivity.
  - intros a Ha Hd. unfold _normalize_area_code.
    apply truthy_true in Ha. rewrite Ha, Hd. cbn [negb]. by apply zfill_digits.
  - intros a Ha Hd. unfold _normalize_area_code.
    apply truthy_true in Ha. by rewrite Ha, Hd.
  - reflexivity.
  - reflexivity.
  - by vm_compute.
  - intros a Hi. unfold normalizar_area, _normalize_area_code. rewrite Hi.
    destruct a as [|c a]; done.
  - intros a n Hi. unfold normalizar_area. by rewrite Hi.
  - by vm_compute.
  - by vm_compute.
  - by vm_compute.
  - by vm_compute.
  - by vm_compute.
  - by vm_compute.
  - by vm_compute.
  - by vm_compute.
Qed.

Lemma C8_area_code_witness :
  _normalize_area_code (Some " 7 ") = zeros (2 - String.length (strip " 7 ")) +:+ strip " 7 " ∧
  _normalize_area_code (Some " A1 ") = strip " A1 " ∧
  normalizar_area (Some "-5") = format_02d (-5).
Proof.
  destruct C8_area_code_normalisation as (_ & Hdigits & Hother & _ & _ & Hint & _).
  split; [|split].
  - apply Hdigits; [discriminate | reflexivity].
  - apply Hother; [discriminate | reflexivity].
  - apply Hint. reflexivity.
Defined.

(** The claim C8 as it is worded fails for [normalizar_area]: ["+1"] is not
    made of digits, and it is not left as it is. *)
Lemma C8_signed_code_is_renormalised :
  ¬ (∀ a, normalizar_area (Some a)
          = if isdigit (strip a) then zfill 2 (strip a) else strip a).
Proof.
  intros Hall. specialize (Hall "+1"). vm_compute in Hall. discriminate.
Qed.

End AreaCodeProps.

(** ** The conformity rule (claim C7) *)

Section ConformityProps.
Import PyStr Exn Areas Service ApiMain.




End ConformityProps.

(** ** The table of areas (claim C10) *)

Section LoaderProps.
Import PyStr Exn Areas Spec.

Lemma add_row_lookup d row k v :
  add_row d row !! k = Some v → d !! k = Some v ∨ entry_of_row k v row.
Proof.
  unfold add_row. destruct row as [|r0 [|r1 rest]]; [by left..|].
  destruct (truthy (strip r0)) eqn:Ht; [|by left].
  rewrite lookup_insert. case_decide as Hk; [|by left].
  intros [= <-]. right. exists r0, r1, rest. by apply truthy_true in Ht.
Qed.

Lemma add_row_keeps d row k : is_Some (d !! k) → is_Some (add_row d row !! k).
Proof.
  intros Hk. unfold add_row. destruct row as [|r0 [|r1 rest]]; [done..|].
  destruct (truthy (strip r0)); [|done].
  rewrite lookup_insert. by case_decide.
Qed.

Lemma add_row_entry d k v row : entry_of_row k v row → add_row d row !! k = Some v.
Proof.
  intros (r0 & r1 & rest & -> & Hne & -> & ->). unfold add_row.
  apply truthy_true in Hne. rewrite Hne. apply lookup_insert_eq.
Qed.

Lemma foldl_add_row_lookup rows d k v :
  foldl add_row d rows !! k = Some v →
  d !! k = Some v ∨ ∃ row, row ∈ rows ∧ entry_of_row k v row.
Proof.
  revert d. induction rows as [|row rows IH]; intros d; simpl; [by left|].
  intros Hk. destruct (IH _ Hk) as [Hd|(row' & Hin & He)].
  - destruct (add_row_lookup _ _ _ _ Hd) as [Hd'|He]; [by left|].
    right. exists row. split; [apply list_elem_of_here | done].
  - right. exists row'. split; [by apply list_elem_of_further | done].
Qed.

Lemma foldl_add_row_keeps rows d k :
  is_Some (d !! k) → is_Some (foldl add_row d rows !! k).
Proof.
  revert d. induction rows as [|row rows IH]; intros d; simpl; [done|].
  intros Hk. by apply IH, add_row_keeps.
Qed.

Lemma foldl_add_row_entry rows d k v row :
  row ∈ rows → entry_of_row k v row → is_Some (foldl add_row d rows !! k).
Proof.
  revert d. induction rows as [|row' rows IH]; intros d Hin He.
  - by apply elem_of_nil in Hin.
  - simpl. apply elem_of_cons in Hin as [->|Hin].
    + apply foldl_add_row_keeps. rewrite (add_row_entry _ _ _ _ He). by eexists.
    + by eapply IH.
Qed.

Lemma entry_key_length k v row : entry_of_row k v row → (2 <= String.length k)%nat.
Proof. intros (r0 & r1 & rest & _ & _ & -> & _). rewrite length_zfill. lia. Qed.

Lemma load_areas_loaded fs p d : load_areas fs p = Return d → loaded d.
Proof.
  unfold load_areas. destruct p as [p|]; [|by intros [= <-] k v Hk].
  destruct (negb (truthy p) || negb (path_exists fs p)); [by intros [= <-] k v Hk|].
  destruct (csv_rows fs p) as [rows|e]; [|done]. cbn [mbind exn_bind bind].
  intros [= <-] k v Hk.
  destruct (foldl_add_row_lookup _ _ _ _ Hk) as [Hd|(row & _ & He)]; [done|by exists row].
Qed.

Lemma load_areas_no_file fs p :
  p = None ∨ p = Some "" ∨ (∃ s, p = Some s ∧ path_exists fs s = false) →
  load_areas fs p = Return ∅.
Proof.
  intros [->|[->|(s & -> & Hs)]]; [done..|]. unfold load_areas.
  rewrite Hs. by rewrite orb_true_r.
Qed.

Lemma reachable_inv cache : reachable cache → cache_inv cache.
Proof.
  induction 1 as [|fs cache p _ IH]; [done|].
  unfold cargar_diccionario_areas.
  destruct cache as [[k d]|].
  - case_decide as Hk; [done|].
    destruct (load_areas fs p) as [d'|e] eqn:Hl; [|done].
    intros p' d'' [= <- <-]. by exists fs.
  - destruct (load_areas fs p) as [d'|e] eqn:Hl; [|done].
    intros p' d'' [= <- <-]. by exists fs.
Qed.

(** A call returns what the loader returns now, or what it returned when
    the cache was filled. *)
Lemma cargar_result fs cache p d :
  cache_inv cache →
  (cargar_diccionario_areas fs cache p).1 = Return d →
  ∃ fs', load_areas fs' p = Return d.
Proof.
  intros Hinv. unfold cargar_diccionario_areas.
  destruct cache as [[k d0]|].
  - case_decide as Hk.
    + intros [= <-]. subst k. by apply Hinv.
    + destruct (load_areas fs p) as [d'|e] eqn:Hl; [|done]. intros [= <-]. by exists fs.
  - destruct (load_areas fs p) as [d'|e] eqn:Hl; [|done]. intros [= <-]. by exists fs.
Qed.

Lemma cargar_miss fs cache p :
  (∀ d, cache ≠ Some (p, d)) →
  cargar_diccionario_areas fs cache p
  = match load_areas fs p with
    | Return d => (Return d, Some (p, d))
    | Raise e => (Raise e, cache)
    end.
Proof.
  intros Hmiss. unfold cargar_diccionario_areas.
  destruct cache as [[k d]|]; [|done].
  case_decide as Hk; [|done]. subst k. by destruct (Hmiss d).
Qed.

Lemma cargar_hit fs p d :
  cargar_diccionario_areas fs (Some (p, d)) p = (Return d, Some (p, d)).
Proof. unfold cargar_diccionario_areas. by case_decide. Qed.

(** C10, as amended. From any cache that earlier calls can have left: an
    argument that is [None] or empty gives the empty dictionary; an
    argument that names no existing file gives the empty dictionary when
    the cache holds no entry for it, and the cached dictionary when it
    does; no such call raises. Every key of a returned dictionary is the
    first field of a row, trimmed, not empty, and filled with zeros up to
    two characters, so it has at least two characters; and a call that
    reads the file stores an entry for every row with two fields and a
    first field that is not blank. *)
Theorem C10_loader_with_cache fs cache p :
  reachable cache →
  (p = None ∨ p = Some "" → (cargar_diccionario_areas fs cache p).1 = Return ∅) ∧
  ((∃ s, p = Some s ∧ path_exists fs s = false) → (∀ d, cache ≠ Some (p, d)) →
   (cargar_diccionario_areas fs cache p).1 = Return ∅) ∧
  (∀ d, cache = Some (p, d) → (cargar_diccionario_areas fs cache p).1 = Return d) ∧
  (∀ d, (cargar_diccionario_areas fs cache p).1 = Return d →
        ∀ k v, d !! k = Some v →
               (2 <= String.length k)%nat ∧ ∃ row, entry_of_row k v row) ∧
  (∀ s rows, p = Some s → s ≠ "" → path_exists fs s = true →
             csv_rows fs s = Return rows → (∀ d, cache ≠ Some (p, d)) →
             (cargar_diccionario_areas fs cache p).1 = Return (foldl add_row ∅ rows) ∧
             ∀ row k v, row ∈ rows → entry_of_row k v row →
                        is_Some (foldl add_row ∅ rows !! k)).
Proof.
  intros Hreach. pose proof (reachable_inv _ Hreach) as Hinv. split_and!.
  - intros Hp.
    assert (∀ fs', load_areas fs' p = Return ∅) as Hempty.
    { intros fs'. apply load_areas_no_file. destruct Hp; auto. }
    unfold cargar_diccionario_areas. rewrite Hempty.
    destruct cache as [[k d]|]; [|done]. case_decide as Hk; [|done]. subst k.
    destruct (Hinv p d eq_refl) as [fs' Hl].
    rewrite Hempty in Hl. by injection Hl as <-.
  - intros Hp Hmiss. rewrite (cargar_miss _ _ _ Hmiss).
    rewrite (load_areas_no_file fs p); [done|]. right. by right.
  - intros d ->. by rewrite cargar_hit.
  - intros d Hd k v Hk.
    destruct (cargar_result _ _ _ _ Hinv Hd) as [fs' Hl].
    destruct (load_areas_loaded _ _ _ Hl k v Hk) as [row He].
    split; [by eapply entry_key_length | by exists row].
  - intros s rows -> Hs Hex Hrows Hmiss. rewrite (cargar_miss _ _ _ Hmiss).
    unfold load_areas. apply truthy_true in Hs. rewrite Hs, Hex, Hrows.
    split; [done|]. intros row k v Hin He. by eapply foldl_add_row_entry.
Qed.

Lemma C10_loader_witness :
  (cargar_diccionario_areas Samples.empty_fs
     (cargar_diccionario_areas Samples.sample_fs None (Some "areas.csv")).2
     (Some "otra.csv")).1 = Return ∅.
Proof.
  apply (proj1 (proj2 (C10_loader_with_cache Samples.empty_fs
                         (cargar_diccionario_areas Samples.sample_fs None (Some "areas.csv")).2
                         (Some "otra.csv")
                         (reachable_call Samples.sample_fs None (Some "areas.csv") reachable_init)))).
  - by exists "otra.csv".
  - intros d. vm_compute. discriminate.
Defined.

(** The claim C10 as it is worded fails: after the table has been loaded
    and its file removed, the same argument names a file that does not
    exist, and the call returns the dictionary of the first load. *)
Lemma C10_removed_file_still_cached :
  ¬ (∀ fs cache p,
       reachable cache →
       (p = None ∨ p = Some "" ∨ ∃ s, p = Some s ∧ path_exists fs s = false) →
       (cargar_diccionario_areas fs cache p).1 = Return ∅).
Proof.
  intros Hall.
  specialize (Hall Samples.empty_fs
                (cargar_diccionario_areas Samples.sample_fs None (Some "areas.csv")).2
                (Some "areas.csv")
                (reachable_call Samples.sample_fs None (Some "areas.csv") reachable_init)).
  assert (@Return (gmap string string) (list_to_map [("01", "Hacienda"); ("02", "Cultura")])
          = Return ∅) as Heq.
  { rewrite <- Hall; [reflexivity|]. right. right. by exists "areas.csv". }
  apply (f_equal (λ r, match r with Return d => d !! "01" | Raise _ => None end)) in Heq.
  vm_compute in Heq. discriminate.
Qed.

Example loader_examples :
  (cargar_diccionario_areas Samples.sample_fs None (Some "areas.csv")).1
  = Return (list_to_map [("01", "Hacienda"); ("02", "Cultura")]) ∧
  (cargar_diccionario_areas Samples.sample_fs None None).1 = Return ∅ ∧
  (cargar_diccionario_areas Samples.sample_fs None (Some "")).1 = Return ∅ ∧
  zfill 2 (strip " - ") = "-0".
Proof. split_and!; reflexivity. Qed.

End LoaderProps.

(** ** More about the container unwrapper *)

Section UnwrapperMore.
Import PyBytes Unwrapper Spec.

Lemma slice_infix {A} (l : list A) (a b : Z) :
  ∃ pre suf, l = pre ++ slice l a b ++ suf.
Proof.
  unfold slice.
  exists (take (Z.to_nat (clamp_index (Z.of_nat (length l)) a)) l),
         (drop (Z.to_nat (clamp_index (Z.of_nat (length l)) b -
                          clamp_index (Z.of_nat (length l)) a))
               (drop (Z.to_nat (clamp_index (Z.of_nat (length l)) a)) l)).
  by rewrite !take_drop.
Qed.

(** The unwrapper either returns its input or cuts from the first marker to
    the last [>]. *)
Lemma unwrap_cases b :
  _extract_xml_from_xsig_bytes b = b ∨
  ∃ s e : nat, first_occurrence xml_marker b s ∧ last_occurrence gt_marker b e ∧
               (s < e)%nat ∧
               _extract_xml_from_xsig_bytes b = take (e + 1 - s) (drop s b).
Proof.
  destruct (find_from_spec xml_marker b 0) as [(s & Hs & Hfirst)|[Hs Hnone]];
    [|left; by apply unwrap_no_marker].
  destruct (rfind_from_spec gt_marker b 0) as [(e & He & Hlast)|[He Hnone]]; [lia|..];
    [|left; by apply unwrap_no_gt].
  destruct (le_lt_dec e s) as [Hle|Hlt].
  - left. by eapply unwrap_gt_before.
  - right. exists s, e. split_and!; [done..|]. by apply unwrap_slice.
Qed.

Lemma occurs_at_lookups sub l k i x :
  occurs_at sub l k → sub !! i = Some x → l !! (k + i)%nat = Some x.
Proof.
  intros [_ [t Ht]] Hi. rewrite <- lookup_drop, Ht. by apply lookup_app_l_Some.
Qed.

(** What is cut out starts with the marker and ends with [>]. *)
Lemma unwrap_slice_shape b s e :
  first_occurrence xml_marker b s → last_occurrence gt_marker b e → (s < e)%nat →
  xml_marker `prefix_of` take (e + 1 - s) (drop s b) ∧
  last (take (e + 1 - s) (drop s b)) = Some x3e.
Proof.
  intros [Hs _] [He _] Hlt.
  pose proof (occurs_at_lookup _ _ _ _ He) as Hgt.
  assert (s + 5 <= e)%nat as Hfar.
  { destruct (le_lt_dec (s + 5) e) as [|Hnear]; [done|]. exfalso.
    assert (∃ i x, (i < 5)%nat ∧ e = (s + i)%nat ∧ xml_marker !! i = Some x ∧ x ≠ x3e)
      as (i & x & Hi & -> & Hx & Hne).
    { destruct (decide (e = s + 1)%nat) as [->|];
        [exists 1%nat, x3f; split_and!; [lia|done|done|done]|].
      destruct (decide (e = s + 2)%nat) as [->|];
        [exists 2%nat, x78; split_and!; [lia|done|done|done]|].
      destruct (decide (e = s + 3)%nat) as [->|];
        [exists 3%nat, x6d; split_and!; [lia|done|done|done]|].
      destruct (decide (e = s + 4)%nat) as [->|];
        [exists 4%nat, x6c; split_and!; [lia|done|done|done]|]. lia. }
    rewrite (occurs_at_lookups _ _ _ _ _ Hs Hx) in Hgt. congruence. }
  split.
  - destruct Hs as [_ [t Ht]]. rewrite Ht.
    rewrite take_app_ge by (simpl; lia). by apply prefix_app_r.
  - rewrite last_lookup, length_take, length_drop.
    pose proof (lookup_lt_Some _ _ _ Hgt) as Hlen.
    replace (Nat.pred ((e + 1 - s) `min` (length b - s))) with (e - s)%nat by lia.
    rewrite lookup_take_lt by lia. rewrite lookup_drop.
    by replace (s + (e - s))%nat with e by lia.
Qed.

Lemma occurs_at_gt_lookup l k : occurs_at gt_marker l k ↔ l !! k = Some x3e.
Proof.
  split; [apply occurs_at_lookup|]. intros Hk. split.
  - apply lookup_lt_Some in Hk. lia.
  - rewrite (drop_S _ _ _ Hk). by apply prefix_cons, prefix_nil.
Qed.

Lemma unwrap_document pre doc suf :
  xml_marker `prefix_of` doc → last doc = Some x3e →
  (∀ j, (j < length pre)%nat → ¬ occurs_at xml_marker (pre ++ doc ++ suf) j) →
  x3e ∉ suf →
  _extract_xml_from_xsig_bytes (pre ++ doc ++ suf) = doc.
Proof.
  intros Hpre Hlast Hclean Hsuf.
  assert (5 <= length doc)%nat as Hlen.
  { destruct Hpre as [k ->]. rewrite length_app. simpl. lia. }
  assert (first_occurrence xml_marker (pre ++ doc ++ suf) (length pre)) as Hfirst.
  { split; [by apply occurs_at_app | done]. }
  assert (last_occurrence gt_marker (pre ++ doc ++ suf) (length pre + length doc - 1)) as Hl.
  { split.
    - apply occurs_at_gt_lookup. rewrite lookup_app_r by lia.
      rewrite lookup_app_l by lia. rewrite last_lookup in Hlast.
      rewrite <- Hlast. f_equal. lia.
    - intros j Hj Hocc. apply occurs_at_gt_lookup in Hocc.
      rewrite lookup_app_r in Hocc by lia. rewrite lookup_app_r in Hocc by lia.
      apply Hsuf. by eapply list_elem_of_lookup_2. }
  rewrite (unwrap_slice _ _ _ Hfirst Hl) by lia.
  rewrite drop_app_length.
  replace (length pre + length doc - 1 + 1 - length pre)%nat with (length doc) by lia.
  by rewrite take_app_length.
Qed.

(** X1. Unwrapping is idempotent: what the unwrapper returns is returned
    unchanged when it is unwrapped again. *)
Theorem X1_unwrapper_idempotent b :
  _extract_xml_from_xsig_bytes (_extract_xml_from_xsig_bytes b)
  = _extract_xml_from_xsig_bytes b.
Proof.
  destruct (unwrap_cases b) as [Hid|(s & e & Hs & He & Hlt & ->)]; [by rewrite !Hid|].
  destruct (unwrap_slice_shape _ _ _ Hs He Hlt) as [Hpre Hlast].
  pose proof (unwrap_document [] _ [] Hpre Hlast) as Hrec.
  rewrite app_nil_r in Hrec. simpl in Hrec. apply Hrec; [intros j Hj; simpl in Hj; lia|].
  apply not_elem_of_nil.
Qed.

(** X2. The unwrapper never invents bytes: its result is a contiguous part
    of its input, so it is never longer; and it is either the whole input
    or a part that starts with [<?xml] and ends with [>]. *)
Theorem X2_unwrapper_result_is_part_of_input b :
  (∃ pre suf, b = pre ++ _extract_xml_from_xsig_bytes b ++ suf) ∧
  (length (_extract_xml_from_xsig_bytes b) <= length b)%nat ∧
  (_extract_xml_from_xsig_bytes b = b ∨
   (xml_marker `prefix_of` _extract_xml_from_xsig_bytes b ∧
    last (_extract_xml_from_xsig_bytes b) = Some x3e)).
Proof.
  assert (∃ pre suf, b = pre ++ _extract_xml_from_xsig_bytes b ++ suf) as Hinfix.
  { unfold _extract_xml_from_xsig_bytes.
    destruct (negb _ && _); [apply slice_infix|]. exists [], []. by rewrite app_nil_r. }
  split; [done|]. split.
  - destruct Hinfix as (pre & suf & Hb). rewrite Hb at 2. rewrite !length_app. lia.
  - destruct (unwrap_cases b) as [Hid|(s & e & Hs & He & Hlt & ->)]; [by left|].
    right. by apply unwrap_slice_shape.
Qed.

(** X3. A document that starts with [<?xml] and ends with [>] is recovered
    exactly from a container whose leading bytes bring no earlier [<?xml]
    and whose trailing bytes hold no [>]. *)
Theorem X3_unwrapper_recovers_document pre doc suf :
  xml_marker `prefix_of` doc → last doc = Some x3e →
  (∀ j, (j < length pre)%nat → ¬ occurs_at xml_marker (pre ++ doc ++ suf) j) →
  x3e ∉ suf →
  _extract_xml_from_xsig_bytes (pre ++ doc ++ suf) = doc.
Proof. apply unwrap_document. Qed.

(** The sample container satisfies the hypotheses of X3. *)
Lemma sample_container_clean :
  xml_marker `prefix_of` MoreSamples.sample_document ∧
  last MoreSamples.sample_document = Some x3e ∧
  (∀ j, (j < length [x00; x3e])%nat →
        ¬ occurs_at xml_marker ([x00; x3e] ++ MoreSamples.sample_document ++ [xff]) j) ∧
  x3e ∉ [xff].
Proof.
  split_and!.
  - by exists (list_byte_of_string "?><a/>").
  - reflexivity.
  - intros j Hj [_ [k Hk]]. simpl in Hj.
    destruct j as [|[|j]]; [discriminate Hk | discriminate Hk | lia].
  - by intros ?%list_elem_of_singleton.
Defined.

Lemma X3_unwrapper_recovers_witness :
  _extract_xml_from_xsig_bytes ([x00; x3e] ++ MoreSamples.sample_document ++ [xff])
  = MoreSamples.sample_document.
Proof.
  apply (X3_unwrapper_recovers_document [x00; x3e] MoreSamples.sample_document [xff]).
  - apply sample_container_clean.
  - apply sample_container_clean.
  - apply sample_container_clean.
  - apply sample_container_clean.
Defined.

End UnwrapperMore.

(** ** The signature block and the upload *)

Section RendererProps.
Import PyBytes PyStr Exn ET Lib XsigPdf XsigRender Spec.
Context `{Externals}.

(** The three outcomes of the validator. *)
Lemma signature_outcomes now xml_root :
  (findtext xml_root [Desc ds_X509Certificate] "" = "" ∧
   _extract_signature_info_from_xml now xml_root = Return {[ "estado" := msg_no_certificate ]}) ∨
  (∃ e, findtext xml_root [Desc ds_X509Certificate] "" ≠ "" ∧
        load_certificate (findtext xml_root [Desc ds_X509Certificate] "") = Raise e ∧
        _extract_signature_info_from_xml now xml_root
        = Return {[ "estado" := "Error al extraer firma: " +:+ e ]}) ∨
  (∃ cert d, findtext xml_root [Desc ds_X509Certificate] "" ≠ "" ∧
             load_certificate (findtext xml_root [Desc ds_X509Certificate] "") = Return cert ∧
             _extract_signature_info_from_xml now xml_root = Return d ∧
             d !! "estado" = Some "Firma encontrada").
Proof.
  destruct (truthy (findtext xml_root [Desc ds_X509Certificate] "")) eqn:Ht.
  - right. pose proof Ht as Hne. apply truthy_true in Hne.
    destruct (load_certificate (findtext xml_root [Desc ds_X509Certificate] ""))
      as [cert|e] eqn:Hl.
    + right. destruct (signature_found now _ _ Ht Hl) as (d & Hd & Hest & _).
      by exists cert, d.
    + left. exists e. split_and!; [done..|].
      unfold _extract_signature_info_from_xml, signature_info_body.
      by rewrite Ht, Hl.
  - left. pose proof Ht as He. apply truthy_false in He. split; [done|].
    unfold _extract_signature_info_from_xml, signature_info_body. by rewrite Ht.
Qed.

Lemma firma_block_singleton v :
  firma_block_shown {[ "estado" := v ]} = String.prefix "Firma" v.
Proof.
  unfold firma_block_shown. rewrite lookup_singleton_eq.
  rewrite bool_decide_eq_false_2 by apply insert_non_empty. done.
Qed.

(** X4. The layout shows the signature block exactly when the document
    holds a certificate text that is not empty and that decodes: the
    outcomes "no certificate found" and "extraction error" never show it. *)
Theorem X4_signature_block_shown_iff_certificate_decoded now xml_root :
  ∃ firma,
    _extract_signature_info_from_xml now xml_root = Return firma ∧
    (firma_block_shown firma = true ↔
     findtext xml_root [Desc ds_X509Certificate] "" ≠ "" ∧
     ∃ cert, load_certificate (findtext xml_root [Desc ds_X509Certificate] "") = Return cert).
Proof.
  destruct (signature_outcomes now xml_root)
    as [[He Hd]|[(e & Hne & Hl & Hd)|(cert & d & Hne & Hl & Hd & Hest)]];
    eexists; (split; [exact Hd|]).
  - rewrite firma_block_singleton. split; [done|]. by intros [Hne _].
  - rewrite firma_block_singleton. split; [done|]. intros [_ [cert Hc]]. congruence.
  - split; [intros _; split; [done | by exists cert]|]. intros _.
    unfold firma_block_shown. rewrite Hest.
    rewrite bool_decide_eq_false_2; [done|]. intros ->. by rewrite lookup_empty in Hest.
Qed.

(** X5. When the certificate decodes and the signing time parses, the
    status at signing time is "valid at the date of the signature" when the
    signing time lies within the validity window, limits included, and "was
    not valid" otherwise, whatever the clock reads. *)
Theorem X5_status_at_signing_time now xml_root cert t :
  truthy (findtext xml_root [Desc ds_X509Certificate] "") = true →
  load_certificate (findtext xml_root [Desc ds_X509Certificate] "") = Return cert →
  parse_datetime now (findtext xml_root [Desc xades_SigningTime] "No especificada") = Return t →
  ∃ d, _extract_signature_info_from_xml now xml_root = Return d ∧
       (not_valid_before_utc cert <= t <= not_valid_after_utc cert →
        d !! "validez_en_firma" = Some msg_valid_at_signing) ∧
       (t < not_valid_before_utc cert ∨ not_valid_after_utc cert < t →
        d !! "validez_en_firma" = Some msg_not_valid_at_signing).
Proof.
  intros Ht Hl Hp.
  destruct (signature_found now _ _ Ht Hl) as (d & Hd & _ & _ & Hval).
  exists d. split; [done|]. rewrite Hval. unfold validez_en_firma. rewrite Hp.
  split; intros Hw;
    destruct (Z.leb_spec (not_valid_before_utc cert) t);
    destruct (Z.leb_spec t (not_valid_after_utc cert)); simpl; (done || lia).
Qed.

(** X6. An empty upload is rejected as empty or unreadable. Any other
    upload is unwrapped and parsed: a parse error is reported with its
    text after the "not a valid XSIG/XML" prefix, and a parsed document
    always gives the record of the extractor, which does not raise. *)
Theorem X6_render_from_upload (fromstring : list byte → exn Element) now :
  render_pdf_from_xsig fromstring now [] = Raise msg_archivo_vacio ∧
  (∀ xsig_bytes, xsig_bytes ≠ [] →
     (∃ e, fromstring (Unwrapper._extract_xml_from_xsig_bytes xsig_bytes) = Raise e ∧
           render_pdf_from_xsig fromstring now xsig_bytes = Raise (msg_no_xml_prefix +:+ e)) ∨
     (∃ root d, fromstring (Unwrapper._extract_xml_from_xsig_bytes xsig_bytes) = Return root ∧
                render_pdf_from_xsig fromstring now xsig_bytes = Return d ∧
                _extract_invoice_data_from_xml now root = Return d)).
Proof.
  split; [done|]. intros b Hb. unfold render_pdf_from_xsig.
  destruct b as [|x b]; [done|].
  destruct (fromstring _) as [root|e] eqn:Hfs.
  - right. destruct (extractor_returns now root) as (d & _ & Hd & _). by exists root, d.
  - left. by exists e.
Qed.

(** X7. The envelope does not matter: a document that starts with [<?xml]
    and ends with [>], inside a container whose leading bytes bring no
    earlier [<?xml] and whose trailing bytes hold no [>], is rendered as
    the document alone is. *)
Theorem X7_render_ignores_envelope (fromstring : list byte → exn Element) now pre doc suf :
  Unwrapper.xml_marker `prefix_of` doc → last doc = Some x3e →
  (∀ j, (j < length pre)%nat →
        ¬ occurs_at Unwrapper.xml_marker (pre ++ doc ++ suf) j) →
  x3e ∉ suf →
  render_pdf_from_xsig fromstring now (pre ++ doc ++ suf)
  = render_pdf_from_xsig fromstring now doc.
Proof.
  intros Hpre Hlast Hclean Hsuf. unfold render_pdf_from_xsig.
  rewrite (unwrap_document _ _ _ Hpre Hlast Hclean Hsuf).
  pose proof (unwrap_document [] doc [] Hpre Hlast) as Hdoc.
  rewrite app_nil_r in Hdoc. simpl in Hdoc. rewrite Hdoc.
  - destruct Hpre as [k ->]. by destruct pre.
  - intros j Hj. simpl in Hj. lia.
  - apply not_elem_of_nil.
Qed.

End RendererProps.

Section RendererWitnesses.
Import PyBytes PyStr Exn ET Lib XsigPdf XsigRender Spec Samples MoreSamples.

Lemma X5_status_at_signing_time_witness :
  ∃ d, @_extract_signature_info_from_xml sample_externals 9999
         (signed_doc "1970-01-01T00:00:00.001500Z") = Return d ∧
       (1000 <= 1500 <= 2000 → d !! "validez_en_firma" = Some msg_valid_at_signing) ∧
       (1500 < 1000 ∨ 2000 < 1500 →
        d !! "validez_en_firma" = Some msg_not_valid_at_signing).
Proof.
  apply (@X5_status_at_signing_time sample_externals 9999
           (signed_doc "1970-01-01T00:00:00.001500Z") sample_cert 1500).
  - reflexivity.
  - reflexivity.
  - reflexivity.
Defined.

Lemma X7_render_ignores_envelope_witness :
  @render_pdf_from_xsig sample_externals sample_fromstring 1500
    ([x00; x3e] ++ sample_document ++ [xff])
  = @render_pdf_from_xsig sample_externals sample_fromstring 1500 sample_document.
Proof.
  apply (@X7_render_ignores_envelope sample_externals sample_fromstring 1500
           [x00; x3e] sample_document [xff]).
  - apply sample_container_clean.
  - apply sample_container_clean.
  - apply sample_container_clean.
  - apply sample_container_clean.
Defined.

Example render_examples :
  (∃ d, @render_pdf_from_xsig sample_externals sample_fromstring 1500
          ([x00; x3e] ++ sample_document ++ [xff]) = Return d ∧
        Firma d !! "estado" = Some "Firma encontrada" ∧
        firma_block_shown (Firma d) = true) ∧
  @render_pdf_from_xsig sample_externals sample_fromstring 1500 [x00]
  = Raise (msg_no_xml_prefix +:+ "syntax error: line 1, column 0").
Proof. split; [eexists; split; [reflexivity|]; split; reflexivity | reflexivity]. Qed.

End RendererWitnesses.

(** ** More about strings *)

(** A statement about every character is checked on the 256 of them. *)
Ltac each_ascii c := destruct c as [[] [] [] [] [] [] [] []]; vm_compute; try done.

Section StringMore.
Import PyStr.
#[local] Arguments Ascii.eqb : simpl never.

Lemma append_cons c (s t : string) : String c s +:+ t = String c (s +:+ t).
Proof. reflexivity. Qed.

Lemma append_nil_r (s : string) : s +:+ "" = s.
Proof. induction s as [|c s IH]; [done|]. rewrite append_cons. by rewrite IH. Qed.

Lemma append_assoc (s t u : string) : (s +:+ t) +:+ u = s +:+ (t +:+ u).
Proof.
  induction s as [|c s IH]; [done|].
  change (String c ((s +:+ t) +:+ u) = String c (s +:+ (t +:+ u))). by rewrite IH.
Qed.

Lemma lstrip_by_idem p s : lstrip_by p (lstrip_by p s) = lstrip_by p s.
Proof.
  induction s as [|c s IH]; [done|]. simpl. destruct (p c) eqn:Hp; [done|].
  simpl. by rewrite Hp.
Qed.

Lemma rstrip_by_idem p s : rstrip_by p (rstrip_by p s) = rstrip_by p s.
Proof.
  induction s as [|c s IH]; [done|]. simpl.
  destruct (rstrip_by p s) as [|b r] eqn:Hr.
  - destruct (p c) eqn:Hp; [done|]. simpl. by rewrite Hp.
  - simpl. simpl in IH. by rewrite IH.
Qed.

Lemma rstrip_by_tail p c s :
  rstrip_by p (String c s) = String c s → s = "" ∧ p c = false ∨ s ≠ "" ∧ rstrip_by p s = s.
Proof.
  simpl. destruct (rstrip_by p s) as [|b r] eqn:Hr.
  - destruct (p c); [done|]. intros [= <-]. by left.
  - intros [= <-]. by right.
Qed.

Lemma rstrip_by_lstrip_by p s :
  rstrip_by p s = s → rstrip_by p (lstrip_by p s) = lstrip_by p s.
Proof.
  induction s as [|c s IH]; [done|]. intros Hs. cbn [lstrip_by].
  destruct (p c) eqn:Hp; [|done].
  destruct (rstrip_by_tail _ _ _ Hs) as [[-> Hc]|[_ Hs']]; [done|by apply IH].
Qed.

Lemma lstrip_strip s : lstrip_by isspace (strip s) = strip s.
Proof. apply lstrip_by_idem. Qed.

Lemma rstrip_strip s : rstrip_by isspace (strip s) = strip s.
Proof. apply rstrip_by_lstrip_by, rstrip_by_idem. Qed.

(** Trimming twice is trimming once. *)
Lemma strip_idem s : strip (strip s) = strip s.
Proof. unfold strip at 1. by rewrite rstrip_strip, lstrip_strip. Qed.

(** A string without stripped characters is left alone. *)
Lemma strip_by_clean p s :
  all_chars (λ c, negb (p c)) s = true → lstrip_by p s = s ∧ rstrip_by p s = s.
Proof.
  induction s as [|c s IH]; [done|]. simpl.
  intros [Hc Hs]%andb_true_iff. apply negb_true_iff in Hc. rewrite Hc.
  split; [done|]. destruct (IH Hs) as [_ ->]. by destruct s.
Qed.

Lemma strip_clean s : all_chars (λ c, negb (isspace c)) s = true → strip s = s.
Proof.
  intros Hs. destruct (strip_by_clean isspace s Hs) as [Hl Hr].
  unfold strip. by rewrite Hr, Hl.
Qed.

Lemma all_chars_impl (p q : ascii → bool) s :
  (∀ c, p c = true → q c = true) → all_chars p s = true → all_chars q s = true.
Proof.
  intros Hpq. induction s as [|c s IH]; [done|]. simpl.
  intros [Hc Hs]%andb_true_iff. by rewrite (Hpq _ Hc), IH.
Qed.

Lemma all_chars_zeros p n : p "0"%char = true → all_chars p (zeros n) = true.
Proof. intros Hp. induction n as [|n IH]; simpl; [done | by rewrite Hp]. Qed.

Lemma all_chars_app p s t :
  all_chars p (s +:+ t) = all_chars p s && all_chars p t.
Proof.
  induction s as [|c s IH]; [done|].
  rewrite append_cons. simpl. by rewrite IH, andb_assoc.
Qed.

Lemma mem_char_app c s t : mem_char c (s +:+ t) = mem_char c s || mem_char c t.
Proof.
  induction s as [|a s IH]; [done|]. rewrite append_cons, !mem_char_cons, IH.
  by destruct (Ascii.eqb c a), (mem_char c s), (mem_char c t).
Qed.

Lemma replace_char_app old new s t :
  replace_char old new (s +:+ t) = replace_char old new s +:+ replace_char old new t.
Proof.
  induction s as [|c s IH]; [done|]. rewrite append_cons. simpl.
  destruct (Ascii.eqb c old); simpl.
  - rewrite IH. by rewrite append_assoc.
  - by rewrite IH.
Qed.

Lemma isdigit_not_space c : isdigit_char c = true → negb (isspace c) = true.
Proof. each_ascii c. Qed.

Lemma zfill_long width s : (width <= String.length s)%nat → zfill width s = s.
Proof.
  intros Hle. unfold zfill. by destruct (Nat.leb_spec width (String.length s)); [|lia].
Qed.

Lemma isdigit_zfill width s : isdigit s = true → isdigit (zfill width s) = true.
Proof.
  intros Hd. rewrite (zfill_digits _ _ Hd). unfold isdigit in *.
  apply andb_true_iff in Hd as [Ht Ha]. rewrite all_chars_app, Ha, all_chars_zeros by done.
  rewrite andb_true_r. destruct s; [done|]. by destruct (zeros _).
Qed.

Lemma length_string_of_list_ascii l :
  String.length (string_of_list_ascii l) = length l.
Proof. induction l as [|c l IH]; simpl; [done | by rewrite IH]. Qed.

Lemma length_list_ascii_of_string s :
  length (list_ascii_of_string s) = String.length s.
Proof. induction s as [|c s IH]; simpl; [done | by rewrite IH]. Qed.

Lemma all_chars_take p s k :
  all_chars p s = true →
  all_chars p (string_of_list_ascii (take k (list_ascii_of_string s))) = true.
Proof.
  revert k. induction s as [|c s IH]; intros k; [by destruct k|].
  simpl. intros [Hc Hs]%andb_true_iff. destruct k as [|k]; [done|].
  simpl. by rewrite Hc, IH.
Qed.

End StringMore.

(** ** The invoice record beyond the parties *)

Section InvoiceProps.
Import PyBytes PyStr Exn ET Lib XsigPdf XsigRender Spec Vocabulary.
Context `{Externals}.

(** The fields of the record that come from the invoice element. *)
Lemma extractor_invoice_fields now xml_root :
  ∃ d, _extract_invoice_data_from_xml now xml_root = Return d ∧
    Receptor d = receptor_of xml_root ∧
    ReferenciasLegales d = legal_references_of xml_root ∧
    Totales d = totals_of (find xml_root [Desc "Invoices"; Child "Invoice"]) ∧
    Total_Factura d = default NA (Totales d !! "InvoiceTotal") ∧
    Conceptos d = items_of (find xml_root [Desc "Invoices"; Child "Invoice"]) ∧
    TaxesWithheldDetails d
    = taxes_withheld_details_of (find xml_root [Desc "Invoices"; Child "Invoice"]) ∧
    TaxesOutputDetails d
    = taxes_output_details_of (find xml_root [Desc "Invoices"; Child "Invoice"]) ∧
    PaymentDetails d = payment_details_of (find xml_root [Desc "Invoices"; Child "Invoice"]) ∧
    (find xml_root [Desc "Invoices"; Child "Invoice"] = None →
     Numero_de_Factura d = NA ∧ Fecha d = NA ∧ Tipo_Dcomento d = NA ∧ Moneda d = NA ∧
     Clase_Factura d = NA ∧ PeriodoFactura d = ∅).
Proof.
  destruct (signature_info_returns now xml_root) as [firma Hf].
  unfold _extract_invoice_data_from_xml. rewrite Hf.
  destruct (find xml_root [Desc "Invoices"; Child "Invoice"]);
    cbv beta iota zeta delta [mbind exn_bind bind]; eexists; by split_and!.
Qed.

(** X8. A document without an invoice element still gives a record: its
    number, date, type, currency, class and total are ["N/A"], its period,
    totals and payment terms are empty dictionaries, it has no lines and no
    tax details, and the layout shows no payment block for it. *)
Theorem X8_document_without_invoice now xml_root :
  find xml_root [Desc "Invoices"; Child "Invoice"] = None →
  ∃ d, _extract_invoice_data_from_xml now xml_root = Return d ∧
       Numero_de_Factura d = NA ∧ Fecha d = NA ∧ Tipo_Dcomento d = NA ∧ Moneda d = NA ∧
       Clase_Factura d = NA ∧ Total_Factura d = NA ∧
       PeriodoFactura d = ∅ ∧ Totales d = ∅ ∧ PaymentDetails d = ∅ ∧
       Conceptos d = [] ∧ TaxesWithheldDetails d = [] ∧ TaxesOutputDetails d = [] ∧
       payment_block_shown (PaymentDetails d) = false.
Proof.
  intros Hinv.
  destruct (extractor_invoice_fields now xml_root)
    as (d & Hd & _ & _ & Htot & Htotal & Hitems & Hw & Ho & Hpay & Hhead).
  destruct (Hhead Hinv) as (Hn & Hf & Ht & Hm & Hc & Hp).
  rewrite Hinv in *. exists d.
  rewrite Htotal, Htot, Hitems, Hw, Ho, Hpay. by split_and!.
Qed.

(** X9. The buyer record always holds the four destination fields. The
    accounting office, the managing body and the processing unit are the
    first, second and third administrative centres that [findall] yields
    for the buyer, each written as its code, [" - "] and its name, and ["N/A"] when
    there are fewer centres or no buyer; the field [UndTram] repeats
    [Und.Tram]. *)
Theorem X9_receptor_destinations now xml_root :
  ∃ d, _extract_invoice_data_from_xml now xml_root = Return d ∧
       Receptor d !! "OfiCont" = Some (default NA (destinos_of xml_root !! 0%nat)) ∧
       Receptor d !! "OrgGest" = Some (default NA (destinos_of xml_root !! 1%nat)) ∧
       Receptor d !! "Und.Tram" = Some (default NA (destinos_of xml_root !! 2%nat)) ∧
       Receptor d !! "UndTram" = Receptor d !! "Und.Tram" ∧
       (find xml_root [Desc "BuyerParty"] = None →
        ∀ k, k ∈ ["OfiCont"; "OrgGest"; "Und.Tram"; "UndTram"] → Receptor d !! k = Some NA) ∧
       (∀ buyer, find xml_root [Desc "BuyerParty"] = Some buyer →
          destinos_of xml_root
          = centre_label
            <$> findall buyer [Desc "AdministrativeCentres"; Child "AdministrativeCentre"]).
Proof.
  destruct (extractor_invoice_fields now xml_root) as (d & Hd & Hr & _).
  exists d. split; [done|]. rewrite Hr. unfold receptor_of. cbv zeta.
  set (r := or_dict _ _).
  split_and!.
  - rewrite !lookup_insert_ne by discriminate. apply lookup_insert_eq.
  - rewrite !lookup_insert_ne by discriminate. apply lookup_insert_eq.
  - rewrite !lookup_insert_ne by discriminate. apply lookup_insert_eq.
  - rewrite lookup_insert_eq. rewrite (lookup_insert_ne _ "UndTram") by discriminate.
    rewrite lookup_total_alt. rewrite lookup_insert_eq. done.
  - intros Hb k Hk. unfold destinos_of. rewrite Hb.
    rewrite lookup_total_alt, lookup_insert_eq.
    repeat (apply elem_of_cons in Hk as [->|Hk]); [..|by apply elem_of_nil in Hk].
    + rewrite !lookup_insert_ne by discriminate. apply lookup_insert_eq.
    + rewrite !lookup_insert_ne by discriminate. apply lookup_insert_eq.
    + rewrite !lookup_insert_ne by discriminate. apply lookup_insert_eq.
    + apply lookup_insert_eq.
  - intros buyer Hb. unfold destinos_of. by rewrite Hb.
Qed.

(** X10. The legal references of the record are the trimmed texts of the
    legal-reference nodes whose text is not blank: each one is not empty
    and has no white space at its ends, none is lost, and there are at most
    as many as nodes. *)
Theorem X10_legal_references_trimmed now xml_root :
  ∃ d, _extract_invoice_data_from_xml now xml_root = Return d ∧
    (∀ r, r ∈ ReferenciasLegales d →
          r ≠ "" ∧ strip r = r ∧
          ∃ ref t, ref ∈ findall xml_root [Desc "LegalLiterals"; Child "LegalReference"] ∧
                   text ref = Some t ∧ r = strip t) ∧
    (∀ ref t, ref ∈ findall xml_root [Desc "LegalLiterals"; Child "LegalReference"] →
              text ref = Some t → strip t ≠ "" → strip t ∈ ReferenciasLegales d) ∧
    (length (ReferenciasLegales d)
     <= length (findall xml_root [Desc "LegalLiterals"; Child "LegalReference"]))%nat.
Proof.
  destruct (extractor_invoice_fields now xml_root) as (d & Hd & _ & Hl & _).
  exists d. split; [done|]. rewrite Hl. unfold legal_references_of.
  split_and!.
  - intros r (ref & Hin & Hr)%list_elem_of_omap.
    destruct (text ref) as [t|] eqn:Ht; [|done].
    destruct (truthy t); [|done]. simpl in Hr. case_bool_decide as Hs; [done|].
    injection Hr as <-. split_and!; [done | apply strip_idem |]. by exists ref, t.
  - intros ref t Hin Ht Hs. apply list_elem_of_omap. exists ref. split; [done|].
    rewrite Ht. assert (truthy t = true) as ->.
    { destruct t; [|done]. by vm_compute in Hs. }
    simpl. by rewrite bool_decide_eq_false_2.
  - match goal with |- context [omap ?g _] => set (f := g) end.
    generalize (findall xml_root [Desc "LegalLiterals"; Child "LegalReference"]).
    intros l. induction l as [|x l IH]; [done|]. cbn [omap list_omap].
    destruct (f x); simpl; lia.
Qed.

(** X11. The payment terms and their block in the layout. Without an
    installment the terms are the empty dictionary and the block is not
    shown. With one, the block is shown when the trimmed IBAN is not empty,
    and when the trimmed due date is not empty and its reformatting fails
    or gives a text that is not empty; it is not shown when both the
    trimmed IBAN and the trimmed due date are empty. *)
Theorem X11_payment_block now xml_root :
  ∃ d, _extract_invoice_data_from_xml now xml_root = Return d ∧
    ((∀ inv, find xml_root [Desc "Invoices"; Child "Invoice"] = Some inv →
             find inv [Desc "PaymentDetails"; Child "Installment"] = None) →
     PaymentDetails d = ∅ ∧ payment_block_shown (PaymentDetails d) = false) ∧
    (∀ inv payment,
       find xml_root [Desc "Invoices"; Child "Invoice"] = Some inv →
       find inv [Desc "PaymentDetails"; Child "Installment"] = Some payment →
       let iban := strip (findtext payment [Desc "AccountToBeCredited"; Child "IBAN"] "") in
       let due := strip (findtext payment [Child "InstallmentDueDate"] "") in
       (iban ≠ "" → payment_block_shown (PaymentDetails d) = true) ∧
       (due ≠ "" → (∀ e, reformat_date due ≠ Return e ∨ e ≠ "") →
        payment_block_shown (PaymentDetails d) = true) ∧
       (iban = "" → due = "" → payment_block_shown (PaymentDetails d) = false)).
Proof.
  destruct (extractor_invoice_fields now xml_root)
    as (d & Hd & _ & _ & _ & _ & _ & _ & _ & Hpay & _).
  exists d. split; [done|]. rewrite Hpay. split.
  - intros Hno. unfold payment_details_of.
    destruct (find xml_root [Desc "Invoices"; Child "Invoice"]) as [inv|]; [|done].
    by rewrite (Hno inv eq_refl).
  - intros inv payment -> Hp. cbv zeta. unfold payment_details_of. rewrite Hp.
    rewrite !or_str_empty.
    remember (strip (findtext payment [Desc "AccountToBeCredited"; Child "IBAN"] ""))
      as iban eqn:Ei.
    remember (strip (findtext payment [Child "InstallmentDueDate"] "")) as due eqn:Edue.
    remember (try_default (if truthy due then reformat_date due else Return "") due)
      as due_date eqn:Edd.
    match goal with
    | |- context [list_to_map ?l] => set (m := list_to_map l : gmap string string)
    end.
    assert (m !! "iban" = Some iban) as Hiban by (subst m; lookup_literal).
    assert (m !! "due_date" = Some due_date) as Hdue by (subst m; lookup_literal).
    assert (m ≠ ∅) as Hne by (intros He; by rewrite He, lookup_empty in Hiban).
    clearbody m. unfold payment_block_shown.
    rewrite Hiban, Hdue, bool_decide_eq_false_2 by done.
    cbn [negb andb default from_option id]. split_and!.
    + intros Hi. apply truthy_true in Hi. by rewrite Hi.
    + intros Hdne Hfmt. apply truthy_true in Hdne. subst due_date. rewrite Hdne.
      unfold try_default.
      destruct (reformat_date due) as [e|e] eqn:Hr.
      * destruct (Hfmt e) as [Hbad|Hbad]; [done|]. apply truthy_true in Hbad.
        rewrite Hbad. apply orb_true_r.
      * rewrite Hdne. apply orb_true_r.
    + intros Hi Hdu. subst due_date. rewrite Hi, Hdu. reflexivity.
Qed.

End InvoiceProps.

Section InvoiceWitnesses.
Import PyStr Exn ET Lib XsigPdf XsigRender Samples.

Lemma X8_document_without_invoice_witness :
  ∃ d, @_extract_invoice_data_from_xml sample_externals 1500 (signed_doc "junk") = Return d ∧
       Numero_de_Factura d = NA ∧ Fecha d = NA ∧ Tipo_Dcomento d = NA ∧ Moneda d = NA ∧
       Clase_Factura d = NA ∧ Total_Factura d = NA ∧
       PeriodoFactura d = ∅ ∧ Totales d = ∅ ∧ PaymentDetails d = ∅ ∧
       Conceptos d = [] ∧ TaxesWithheldDetails d = [] ∧ TaxesOutputDetails d = [] ∧
       payment_block_shown (PaymentDetails d) = false.
Proof.
  apply (@X8_document_without_invoice sample_externals 1500 (signed_doc "junk")).
  reflexivity.
Defined.

End InvoiceWitnesses.

(** ** core/utils.py and core/pdf.py *)

Section UtilsProps.
Import PyBytes PyStr Exn Utils Pdf Vocabulary.
#[local] Arguments Ascii.eqb : simpl never.

Lemma chop_newline_stripped v : rstrip_by isspace v = v → chop_newline v = v.
Proof.
  induction v as [|c v IH]; [done|]. intros Hv.
  destruct (rstrip_by_tail _ _ _ Hv) as [[-> Hc]|[Hne Hv']].
  - simpl. destruct (N.eqb_spec (ord c) 10) as [E|]; [|done].
    exfalso. revert Hc E. each_ascii c.
  - destruct v as [|b v]; [done|].
    change (chop_newline (String c (String b v)))
      with (String c (chop_newline (String b v))).
    by rewrite (IH Hv').
Qed.

(** The pattern on a trimmed text: between one and fifty characters, all of
    them allowed. *)
Lemma allowed_re_match_stripped t :
  allowed_re_match (strip t)
  = (1 <=? String.length (strip t))%nat && (String.length (strip t) <=? 50)%nat &&
    all_chars allowed_char (strip t).
Proof. unfold allowed_re_match. by rewrite (chop_newline_stripped _ (rstrip_strip _)). Qed.

Lemma raise_ValueError_Return {A} (m : exn string) (r : A) :
  raise_ValueError m = Return r ↔ False.
Proof. by destruct m. Qed.

(** The text of an [int] within the limit, and beyond it. *)
Lemma str_int_cases n :
  (Z.abs n < 10 ^ INT_MAX_STR_DIGITS → str_int n = Return (str_of_Z n)) ∧
  (10 ^ INT_MAX_STR_DIGITS <= Z.abs n → str_int n = Raise msg_int_str_limit).
Proof.
  unfold str_int. destruct (Z.leb_spec (10 ^ INT_MAX_STR_DIGITS) (Z.abs n)).
  - split; [lia | done].
  - split; [done | lia].
Qed.

Lemma sanitize_text_returns value max_length r :
  sanitize_text value max_length = Return r ↔
  r = strip (text_of value) ∧ r ≠ "" ∧
  Z.of_nat (String.length r) <= max_length ∧ (String.length r <= 50)%nat ∧
  all_chars allowed_char r = true.
Proof.
  unfold sanitize_text. fold (text_of value).
  destruct (truthy (strip (text_of value))) eqn:Ht; cbn [negb].
  2:{ apply truthy_false in Ht. split; [done|]. intros (-> & Hne & _). done. }
  apply truthy_true in Ht.
  destruct (Z.gtb_spec (Z.of_nat (String.length (strip (text_of value)))) max_length)
    as [Hgt|Hle].
  { rewrite raise_ValueError_Return. split; [done|]. intros (-> & _ & Hle & _). lia. }
  rewrite allowed_re_match_stripped.
  destruct (Nat.leb_spec 1 (String.length (strip (text_of value)))) as [H1|H1];
    cbn [andb negb].
  2:{ destruct (strip (text_of value)); simpl in *; [done|lia]. }
  destruct (Nat.leb_spec (String.length (strip (text_of value))) 50) as [H50|H50];
    cbn [andb negb].
  2:{ rewrite raise_ValueError_Return. split; [done|].
      intros (-> & _ & _ & Hle50 & _). lia. }
  destruct (all_chars allowed_char (strip (text_of value))) eqn:Ha; cbn [negb].
  - split; [intros [= <-]; done|]. by intros (-> & _).
  - rewrite raise_ValueError_Return. split; [done|].
    intros (-> & _ & _ & _ & Ha'). congruence.
Qed.

(** X12. [sanitize_text] returns a text exactly when the trimmed input is
    not empty, is no longer than [max_length] nor than the fifty characters
    of the pattern, and is made of word characters, slashes, hyphens and
    points; what it returns is the trimmed input. So a limit above fifty
    has no effect. *)
Theorem X12_sanitize_text_accepts value max_length r :
  sanitize_text value max_length = Return r ↔
  r = strip (text_of value) ∧ r ≠ "" ∧
  Z.of_nat (String.length r) <= max_length ∧ (String.length r <= 50)%nat ∧
  all_chars allowed_char r = true.
Proof. apply sanitize_text_returns. Qed.

(** X13. The errors of [sanitize_text], in the order of its checks: an
    input that is [None], empty or blank is reported as empty; otherwise a
    trimmed input longer than [max_length] is reported as too long;
    otherwise one longer than fifty characters, or with a character that is
    not allowed, is reported as invalid. The last two texts carry
    [max_length] written out; for a [max_length] of more than 4300 digits
    the interpreter refuses to write it, and its own error is what is
    raised. *)
Theorem X13_sanitize_text_rejections value max_length :
  (strip (text_of value) = "" → sanitize_text value max_length = Raise msg_vacio) ∧
  (value = None ∨ (∃ s, value = Some s ∧ all_chars isspace s = true) →
   sanitize_text value max_length = Raise msg_vacio) ∧
  (strip (text_of value) ≠ "" →
   max_length < Z.of_nat (String.length (strip (text_of value))) →
   (Z.abs max_length < 10 ^ INT_MAX_STR_DIGITS →
    sanitize_text value max_length
    = Raise (msg_excede_prefix +:+ str_of_Z max_length +:+ " caracteres.")) ∧
   (10 ^ INT_MAX_STR_DIGITS <= Z.abs max_length →
    sanitize_text value max_length = Raise msg_int_str_limit)) ∧
  (strip (text_of value) ≠ "" →
   Z.of_nat (String.length (strip (text_of value))) <= max_length →
   (50 < String.length (strip (text_of value)))%nat ∨
   all_chars allowed_char (strip (text_of value)) = false →
   (Z.abs max_length < 10 ^ INT_MAX_STR_DIGITS →
    sanitize_text value max_length
    = Raise (msg_invalido_prefix +:+ str_of_Z max_length +:+ ").")) ∧
   (10 ^ INT_MAX_STR_DIGITS <= Z.abs max_length →
    sanitize_text value max_length = Raise msg_int_str_limit)).
Proof.
  assert (strip (text_of value) = "" → sanitize_text value max_length = Raise msg_vacio)
    as Hblank.
  { intros He. unfold sanitize_text. fold (text_of value). by rewrite He. }
  destruct (str_int_cases max_length) as [Hin Hout].
  split_and!; [done|..].
  - intros [->|(s & -> & Hs)]; apply Hblank; [done|]. simpl. rewrite or_str_empty.
    by apply strip_empty.
  - intros Hne Hlen.
    assert (sanitize_text value max_length = raise_ValueError (msg_excede max_length)) as ->.
    { unfold sanitize_text. fold (text_of value).
      apply truthy_true in Hne. rewrite Hne. cbn [negb].
      by destruct (Z.gtb_spec (Z.of_nat (String.length (strip (text_of value)))) max_length);
        [|lia]. }
    unfold msg_excede. split; intros Hmax.
    + by rewrite (Hin Hmax).
    + by rewrite (Hout Hmax).
  - intros Hne Hlen Hbad.
    assert (sanitize_text value max_length = raise_ValueError (msg_invalido max_length))
      as ->.
    { unfold sanitize_text. fold (text_of value).
      apply truthy_true in Hne. rewrite Hne. cbn [negb].
      destruct (Z.gtb_spec (Z.of_nat (String.length (strip (text_of value)))) max_length);
        [lia|].
      rewrite allowed_re_match_stripped.
      destruct Hbad as [Hlong|Hchar].
      - destruct (Nat.leb_spec (String.length (strip (text_of value))) 50); [lia|].
        by rewrite andb_false_r.
      - by rewrite Hchar, andb_false_r. }
    unfold msg_invalido. split; intros Hmax.
    + by rewrite (Hin Hmax).
    + by rewrite (Hout Hmax).
Qed.

(** X14. [sanitize_text] is idempotent on what it accepts: a returned text
    is accepted again, under the same limit, and returned unchanged. *)
Theorem X14_sanitize_text_idempotent value max_length r :
  sanitize_text value max_length = Return r →
  sanitize_text (Some r) max_length = Return r.
Proof.
  intros Hr. apply sanitize_text_returns in Hr as (-> & Hne & Hle & H50 & Ha).
  apply sanitize_text_returns. simpl. rewrite or_str_empty, strip_idem. done.
Qed.

Lemma X14_sanitize_text_idempotent_witness :
  sanitize_text (Some "2025/000123") MAX_FACTURA_LENGTH = Return "2025/000123".
Proof.
  apply (X14_sanitize_text_idempotent (Some "  2025/000123 ") MAX_FACTURA_LENGTH).
  reflexivity.
Defined.

Lemma safe_not_space c : safe_char c = true → negb (isspace c) = true.
Proof. each_ascii c. Qed.

Lemma sub_unsafe_runs_safe in_run s :
  all_chars safe_char (sub_unsafe_runs in_run s) = true.
Proof.
  revert in_run. induction s as [|c s IH]; intros in_run; [done|]. simpl.
  destruct (unsafe_char c) eqn:Hc.
  - destruct in_run; [apply IH|]. simpl. apply IH.
  - simpl. unfold safe_char at 1. rewrite Hc. apply IH.
Qed.

Lemma sub_unsafe_runs_clean s :
  all_chars safe_char s = true → sub_unsafe_runs false s = s.
Proof.
  induction s as [|c s IH]; [done|]. simpl. intros [Hc Hs]%andb_true_iff.
  unfold safe_char in Hc. apply negb_true_iff in Hc. rewrite Hc. by rewrite IH.
Qed.

Lemma str_slice_to_take s b :
  ∃ k, str_slice_to s b = string_of_list_ascii (take k (list_ascii_of_string s)) ∧
       (0 <= b → b <= Z.of_nat (String.length s) → k = Z.to_nat b).
Proof.
  unfold str_slice_to, slice.
  change (clamp_index (Z.of_nat (length (list_ascii_of_string s))) 0) with
    (Z.min 0 (Z.of_nat (length (list_ascii_of_string s)))).
  rewrite Z.min_l by lia. change (Z.to_nat 0) with 0%nat. rewrite drop_0.
  eexists. split; [reflexivity|].
  intros H0 Hb. rewrite length_list_ascii_of_string. unfold clamp_index.
  destruct (Z.ltb_spec b 0); [lia|]. lia.
Qed.

Lemma make_safe_filename_result base max_length :
  all_chars safe_char (make_safe_filename base max_length) = true ∧
  (0 <= max_length →
   Z.of_nat (String.length (make_safe_filename base max_length)) <= max_length).
Proof.
  unfold make_safe_filename.
  destruct (Z.gtb_spec (Z.of_nat (String.length (sub_unsafe_runs false (strip base))))
              max_length) as [Hgt|Hle].
  - destruct (str_slice_to_take (sub_unsafe_runs false (strip base)) max_length)
      as (k & -> & Hk).
    split; [apply all_chars_take, sub_unsafe_runs_safe|].
    intros H0. rewrite length_string_of_list_ascii, length_take.
    rewrite (Hk H0) by lia. lia.
  - split; [apply sub_unsafe_runs_safe | done].
Qed.

(** X15. A file name made by [make_safe_filename] holds only word
    characters, points and hyphens, whatever the limit; and for a limit
    that is not negative it is no longer than the limit. *)
Theorem X15_make_safe_filename_safe base max_length :
  0 <= max_length →
  all_chars safe_char (make_safe_filename base max_length) = true ∧
  Z.of_nat (String.length (make_safe_filename base max_length)) <= max_length.
Proof.
  intros H0. destruct (make_safe_filename_result base max_length) as [Hsafe Hlen]. auto.
Qed.

Lemma X15_make_safe_filename_witness :
  all_chars safe_char (make_safe_filename "Factura #123 (copia).pdf" 12) = true ∧
  Z.of_nat (String.length (make_safe_filename "Factura #123 (copia).pdf" 12)) <= 12.
Proof. apply (X15_make_safe_filename_safe "Factura #123 (copia).pdf" 12). lia. Defined.

(** X16. [make_safe_filename] is idempotent for a limit that is not
    negative: a name that it made is left as it is. *)
Theorem X16_make_safe_filename_idempotent base max_length :
  0 <= max_length →
  make_safe_filename (make_safe_filename base max_length) max_length
  = make_safe_filename base max_length.
Proof.
  intros H0. destruct (make_safe_filename_result base max_length) as [Hsafe Hlen].
  specialize (Hlen H0). set (r := make_safe_filename base max_length) in *.
  unfold make_safe_filename at 1.
  rewrite (strip_clean r) by (eapply all_chars_impl; [apply safe_not_space | done]).
  rewrite (sub_unsafe_runs_clean _ Hsafe).
  destruct (Z.gtb_spec (Z.of_nat (String.length r)) max_length); [lia|done].
Qed.

Lemma X16_make_safe_filename_idempotent_witness :
  make_safe_filename (make_safe_filename "Factura #123 (copia).pdf" 12) 12
  = make_safe_filename "Factura #123 (copia).pdf" 12.
Proof. apply (X16_make_safe_filename_idempotent "Factura #123 (copia).pdf" 12). lia. Defined.

Example utils_examples :
  make_safe_filename "Factura #123.pdf" MAX_FILENAME_LENGTH = "Factura_123.pdf" ∧
  make_safe_filename "test file (2).txt" MAX_FILENAME_LENGTH = "test_file_2_.txt" ∧
  make_safe_filename "Factura #123 (copia).pdf" 12 = "Factura_123_" ∧
  make_safe_filename "abcdef" (-2) = "abcd" ∧
  sanitize_text (Some "  ABC123  ") MAX_FACTURA_LENGTH = Return "ABC123" ∧
  sanitize_text (Some "test file") MAX_FACTURA_LENGTH
  = Raise (msg_invalido_prefix +:+ "50).") ∧
  sanitize_text (Some "test file") (10 ^ 4300) = Raise msg_int_str_limit ∧
  sanitize_text (Some "test") (- 10 ^ 4300) = Raise msg_int_str_limit ∧
  sanitize_text (Some "   ") MAX_FACTURA_LENGTH = Raise msg_vacio.
Proof. split_and!; by vm_compute. Qed.

(** The three replacements act on each character by itself. *)
Lemma html_escape_each s : _html_escape (Some s) = escape_each s.
Proof.
  unfold _html_escape. induction s as [|c s IH]; [done|].
  cbn [replace_char escape_each]. unfold escape_char.
  destruct (Ascii.eqb_spec c "&") as [->|Hamp].
  - rewrite !replace_char_app, IH. reflexivity.
  - cbn [replace_char]. destruct (Ascii.eqb_spec c "<") as [->|Hlt].
    + rewrite !replace_char_app, IH. reflexivity.
    + cbn [replace_char]. destruct (Ascii.eqb_spec c ">") as [->|Hgt].
      * by rewrite IH.
      * by rewrite IH.
Qed.

Lemma escape_each_unescape fuel s :
  (String.length s <= fuel)%nat → unescape fuel (escape_each s) = s.
Proof.
  revert s. induction fuel as [|fuel IH]; intros s Hs.
  - destruct s; [done | simpl in Hs; lia].
  - destruct s as [|c s]; [done|]. simpl in Hs. cbn [escape_each]. unfold escape_char.
    destruct (Ascii.eqb_spec c "&") as [->|Hamp].
    { rewrite !append_cons. change ("" +:+ escape_each s) with (escape_each s).
      simpl. by rewrite IH by lia. }
    destruct (Ascii.eqb_spec c "<") as [->|Hlt].
    { rewrite !append_cons. change ("" +:+ escape_each s) with (escape_each s).
      simpl. by rewrite IH by lia. }
    destruct (Ascii.eqb_spec c ">") as [->|Hgt].
    { rewrite !append_cons. change ("" +:+ escape_each s) with (escape_each s).
      simpl. by rewrite IH by lia. }
    change (String c "" +:+ escape_each s) with (String c (escape_each s)).
    assert (∀ r, unescape (S fuel) (String c r) = String c (unescape fuel r)) as ->.
    { intros r. simpl.
      destruct c as [[] [] [] [] [] [] [] []]; try reflexivity; by destruct Hamp. }
    by rewrite IH by lia.
Qed.

(** X17. The escaped text holds no [<] and no [>]; escaping loses nothing,
    since two texts with the same escaped form are the same text; a text
    without [&], [<] and [>] is left as it is; and [None] gives the empty
    text. *)
Theorem X17_html_escape :
  (∀ text, mem_char "<" (_html_escape text) = false ∧
           mem_char ">" (_html_escape text) = false) ∧
  (∀ s t, _html_escape (Some s) = _html_escape (Some t) → s = t) ∧
  (∀ s, mem_char "&" s = false → mem_char "<" s = false → mem_char ">" s = false →
        _html_escape (Some s) = s) ∧
  _html_escape None = "".
Proof.
  split_and!; [| | |done].
  - intros [s|]; [|done]. rewrite html_escape_each.
    induction s as [|c s [IH1 IH2]]; [done|]. cbn [escape_each].
    rewrite !mem_char_app, IH1, IH2, !orb_false_r. unfold escape_char.
    destruct (Ascii.eqb_spec c "&") as [->|Hamp]; [done|].
    destruct (Ascii.eqb_spec c "<") as [->|Hlt]; [done|].
    destruct (Ascii.eqb_spec c ">") as [->|Hgt]; [done|].
    simpl. rewrite !orb_false_r.
    split; apply Ascii.eqb_neq; congruence.
  - intros s t Heq. rewrite !html_escape_each in Heq.
    rewrite <- (escape_each_unescape (String.length s + String.length t) s) by lia.
    rewrite <- (escape_each_unescape (String.length s + String.length t) t) at 2 by lia.
    by rewrite Heq.
  - intros s Ha Hl Hg. unfold _html_escape.
    rewrite (replace_char_absent "&") by done. rewrite (replace_char_absent "<") by done.
    by rewrite (replace_char_absent ">").
Qed.

Example html_escape_example :
  _html_escape (Some "a<b & c>d") = "a&lt;b &amp; c&gt;d" ∧
  _html_escape (Some "&lt;") = "&amp;lt;".
Proof. split; reflexivity. Qed.

End UtilsProps.

(** ** More about the table of areas and the report *)

Section TableProps.
Import PyStr Exn Areas Service Spec Vocabulary.

Lemma add_row_other d row k :
  (∀ v, ¬ entry_of_row k v row) → add_row d row !! k = d !! k.
Proof.
  intros Hno. unfold add_row. destruct row as [|r0 [|r1 rest]]; [done..|].
  destruct (truthy (strip r0)) eqn:Ht; [|done].
  rewrite lookup_insert. case_decide as Hk; [|done].
  destruct (Hno (strip r1)). exists r0, r1, rest. by apply truthy_true in Ht.
Qed.

Lemma foldl_add_row_other rows d k :
  (∀ row v, row ∈ rows → ¬ entry_of_row k v row) →
  foldl add_row d rows !! k = d !! k.
Proof.
  revert d. induction rows as [|row rows IH]; intros d Hno; [done|]. simpl.
  rewrite IH.
  - apply add_row_other. intros v. apply Hno, list_elem_of_here.
  - intros row' v Hin. by apply Hno, list_elem_of_further.
Qed.

Lemma foldl_add_row_last rows1 row rows2 d k v :
  entry_of_row k v row →
  (∀ row' v', row' ∈ rows2 → ¬ entry_of_row k v' row') →
  foldl add_row d (rows1 ++ row :: rows2) !! k = Some v.
Proof.
  intros He Hno. rewrite foldl_app. simpl.
  rewrite (foldl_add_row_other _ _ _ Hno). by apply add_row_entry.
Qed.

Lemma load_areas_reads fs p rows :
  p ≠ "" → path_exists fs p = true → csv_rows fs p = Return rows →
  load_areas fs (Some p) = Return (foldl add_row ∅ rows).
Proof.
  intros Hp Hex Hrows. unfold load_areas. apply truthy_true in Hp.
  by rewrite Hp, Hex, Hrows.
Qed.

(** X18. When a code has several rows in the file, the last one gives its
    name; and a key that no row gives has no entry in the table. *)
Theorem X18_loader_last_row_wins fs p rows :
  p ≠ "" → path_exists fs p = true → csv_rows fs p = Return rows →
  ∃ d, load_areas fs (Some p) = Return d ∧
       (∀ rows1 row rows2 k v,
          rows = rows1 ++ row :: rows2 → entry_of_row k v row →
          (∀ row' v', row' ∈ rows2 → ¬ entry_of_row k v' row') →
          d !! k = Some v) ∧
       (∀ k, (∀ row v, row ∈ rows → ¬ entry_of_row k v row) → d !! k = None).
Proof.
  intros Hp Hex Hrows. exists (foldl add_row ∅ rows). split_and!.
  - by apply load_areas_reads.
  - intros rows1 row rows2 k v -> He Hno. by apply foldl_add_row_last.
  - intros k Hno. by rewrite foldl_add_row_other.
Qed.

Lemma X18_loader_last_row_wins_witness :
  ∃ d, load_areas Samples.sample_fs (Some "areas.csv") = Return d ∧
       (∀ rows1 row rows2 k v,
          [["1"; " Hacienda "]; ["02"; "Cultura"]; ["sin nombre"]; [" "; "nada"]]
          = rows1 ++ row :: rows2 → entry_of_row k v row →
          (∀ row' v', row' ∈ rows2 → ¬ entry_of_row k v' row') →
          d !! k = Some v) ∧
       (∀ k, (∀ row v,
                row ∈ [["1"; " Hacienda "]; ["02"; "Cultura"]; ["sin nombre"]; [" "; "nada"]] →
                ¬ entry_of_row k v row) → d !! k = None).
Proof.
  apply (X18_loader_last_row_wins Samples.sample_fs "areas.csv").
  - done.
  - reflexivity.
  - reflexivity.
Defined.

Lemma normalize_area_code_stripped a :
  _normalize_area_code (Some a)
  = if isdigit (strip a) then zfill 2 (strip a) else strip a.
Proof. unfold _normalize_area_code. by destruct a. Qed.

Lemma loader_key_report_code r :
  strip r ≠ "" →
  (zfill 2 (strip r) = _normalize_area_code (Some r) ↔
   isdigit (strip r) = true ∨ (2 <= String.length (strip r))%nat).
Proof.
  intros Hne. rewrite normalize_area_code_stripped.
  destruct (isdigit (strip r)) eqn:Hd; [split; [by left | done]|].
  split.
  - intros Heq. right. rewrite <- Heq, length_zfill. lia.
  - intros [|Hlen]; [done|]. by apply zfill_long.
Qed.

(** X19. The key under which the loader stores the row of a code and the
    code under which the report looks it up are the same exactly when the
    trimmed code consists of digits or has at least two characters: a code
    of one character that is not a digit is stored with a zero in front and
    looked up without it. *)
Theorem X19_loader_key_agrees_with_report_code r :
  strip r ≠ "" →
  (zfill 2 (strip r) = _normalize_area_code (Some r) ↔
   isdigit (strip r) = true ∨ (2 <= String.length (strip r))%nat).
Proof. apply loader_key_report_code. Qed.

Lemma X19_loader_key_witness :
  zfill 2 (strip " 7 ") = _normalize_area_code (Some " 7 ") ↔
  isdigit (strip " 7 ") = true ∨ (2 <= String.length (strip " 7 "))%nat.
Proof. apply (X19_loader_key_agrees_with_report_code " 7 "). by vm_compute. Defined.

Example loader_key_examples :
  zfill 2 (strip "A") = "0A" ∧ _normalize_area_code (Some "A") = "A" ∧
  zfill 2 (strip " 7 ") = "07" ∧ _normalize_area_code (Some " 7 ") = "07".
Proof. split_and!; reflexivity. Qed.

(** X20. Normalising an area code is idempotent. *)
Theorem X20_normalize_area_code_idempotent area_code :
  _normalize_area_code (Some (_normalize_area_code area_code))
  = _normalize_area_code area_code.
Proof.
  destruct area_code as [a|]; [|done].
  rewrite (normalize_area_code_stripped a).
  destruct (isdigit (strip a)) eqn:Hd.
  - pose proof (isdigit_zfill 2 _ Hd) as Hz.
    rewrite normalize_area_code_stripped.
    assert (strip (zfill 2 (strip a)) = zfill 2 (strip a)) as ->.
    { apply strip_clean. unfold isdigit in Hz. apply andb_true_iff in Hz as [_ Hz].
      eapply all_chars_impl; [apply isdigit_not_space | done]. }
    rewrite Hz. apply zfill_long. rewrite length_zfill. lia.
  - rewrite normalize_area_code_stripped, strip_idem. by rewrite Hd.
Qed.

Lemma head_filter_Some {A} (P : A → bool) l x :
  head (filter (λ p, P p = true) l) = Some x →
  ∃ l1 l2, l = l1 ++ x :: l2 ∧ P x = true ∧ ∀ y, y ∈ l1 → P y = false.
Proof.
  induction l as [|a l IH]; [done|]. rewrite filter_cons.
  destruct (decide (P a = true)) as [Ha|Ha].
  - intros [= <-]. exists [], l. split_and!; [done..|]. by intros y ?%elem_of_nil.
  - intros (l1 & l2 & -> & Hx & Hl1)%IH. exists (a :: l1), l2. split_and!; [done..|].
    intros y [->|Hy]%elem_of_cons; [by destruct (P a) | by apply Hl1].
Qed.

Lemma head_filter_None {A} (P : A → bool) l :
  head (filter (λ p, P p = true) l) = None → ∀ y, y ∈ l → P y = false.
Proof.
  induction l as [|a l IH]; [by intros _ y ?%elem_of_nil|]. rewrite filter_cons.
  destruct (decide (P a = true)) as [Ha|Ha]; [done|].
  intros Hn y [->|Hy]%elem_of_cons; [by destruct (P a) | by apply IH].
Qed.

(** X21. The logo that [_find_logo_for_area] returns is a file, and it is
    one of the candidates [root/logo_<code>.<ext>]; it returns [None] only
    for the empty code or when no candidate is a file; and the PNG under
    [images] is returned whenever it is a file. *)
Theorem X21_find_logo_for_area fs area_code :
  match _find_logo_for_area fs area_code with
  | Some p => area_code ≠ "" ∧ is_file fs p = true ∧ logo_candidate area_code p
  | None => area_code = "" ∨ ∀ p, logo_candidate area_code p → is_file fs p = false
  end ∧
  (area_code ≠ "" →
   is_file fs (path_join "images" ("logo_" +:+ area_code +:+ ".png")) = true →
   _find_logo_for_area fs area_code
   = Some (path_join "images" ("logo_" +:+ area_code +:+ ".png"))).
Proof.
  unfold _find_logo_for_area. destruct area_code as [|c s]; [by split; [left|]|].
  cbn [truthy negb]. set (code := String c s). split.
  - destruct (head _) as [p|] eqn:Hh.
    + apply head_filter_Some in Hh as (l1 & l2 & Hl & Hp & _).
      split_and!; [done..|].
      assert (p ∈ l1 ++ p :: l2) as Hin by (apply elem_of_app; right; apply list_elem_of_here).
      rewrite <- Hl in Hin. clear Hl.
      apply list_elem_of_bind in Hin as (root & Hin & Hroot).
      apply list_elem_of_bind in Hin as (ext & Hin & Hext).
      apply list_elem_of_singleton in Hin. by exists root, ext.
    + right. intros p (root & ext & Hroot & Hext & ->).
      apply (head_filter_None (is_file fs) _ Hh).
      apply list_elem_of_bind. exists root. split; [|done].
      apply list_elem_of_bind. exists ext. split; [|done]. apply list_elem_of_here.
  - intros _ Hf. cbn [mbind list_bind]. simpl. rewrite filter_cons.
    by rewrite decide_True.
Qed.

(** What the report computes for the area. *)
Lemma informe_area fs cache payload areas_csv_path areas cache' data :
  cargar_diccionario_areas fs cache areas_csv_path = (Return areas, cache') →
  (generar_informe_conformidad_pdf_desde_payload fs cache payload areas_csv_path).1
  = Return data →
  area_code data = _normalize_area_code (get (fields payload) "area_code") ∧
  area data = area_name data ∧
  area_name data
  = or_empty (or_opt (or_opt (get (fields payload) "area_name")
                        (areas !! _normalize_area_code (get (fields payload) "area_code")))
                (Some (if truthy (_normalize_area_code (get (fields payload) "area_code"))
                       then AREA_PREFIX +:+ _normalize_area_code (get (fields payload) "area_code")
                       else ""))) ∧
  area_logo data
  = (if truthy (_normalize_area_code (get (fields payload) "area_code"))
     then _find_logo_for_area fs (_normalize_area_code (get (fields payload) "area_code"))
     else None).
Proof.
  intros Hload. unfold generar_informe_conformidad_pdf_desde_payload. rewrite Hload.
  cbn [fst mbind exn_bind bind].
  destruct (negb _); [done|]. destruct (_ && _); [done|]. by intros [= <-].
Qed.

Lemma informe_accepted fs cache payload areas_csv_path areas cache' :
  cargar_diccionario_areas fs cache areas_csv_path = (Return areas, cache') →
  accepted payload →
  ∃ data,
    (generar_informe_conformidad_pdf_desde_payload fs cache payload areas_csv_path).1
    = Return data.
Proof.
  intros Hload Hacc. unfold generar_informe_conformidad_pdf_desde_payload.
  rewrite Hload. cbn [fst mbind exn_bind bind].
  destruct Hacc as [->|[-> Hm]]; [by eexists|].
  apply truthy_true in Hm. rewrite Hm. by eexists.
Qed.

Lemma or_opt_left n b : n ≠ "" → or_opt (Some n) b = Some n.
Proof. intros Hn. apply truthy_true in Hn. unfold or_opt. by rewrite Hn. Qed.

Lemma or_empty_Some n : or_empty (Some n) = n.
Proof. apply or_str_empty. Qed.

Lemma area_name_cases fs cache payload areas_csv_path areas cache' data :
  cargar_diccionario_areas fs cache areas_csv_path = (Return areas, cache') →
  (generar_informe_conformidad_pdf_desde_payload fs cache payload areas_csv_path).1
  = Return data →
  (∀ n, get (fields payload) "area_name" = Some n → n ≠ "" → area_name data = n) ∧
  (or_empty (get (fields payload) "area_name") = "" →
   (∀ n, areas !! area_code data = Some n → n ≠ "" → area_name data = n) ∧
   (areas !! area_code data = None ∨ areas !! area_code data = Some "" →
    (area_code data ≠ "" → area_name data = AREA_PREFIX +:+ area_code data) ∧
    (area_code data = "" → area_name data = ""))).
Proof.
  intros Hload Hdata.
  destruct (informe_area _ _ _ _ _ _ _ Hload Hdata) as (Hcode & _ & Hname & _).
  rewrite Hname, Hcode. split.
  - intros n -> Hn. by rewrite !or_opt_left, or_empty_Some.
  - intros Hblank.
    assert (∀ b, or_opt (get (fields payload) "area_name") b = b) as Hskip.
    { intros b. unfold or_opt. destruct (get (fields payload) "area_name") as [n|]; [|done].
      simpl in Hblank. rewrite or_str_empty in Hblank. by subst n. }
    rewrite Hskip. split.
    + intros n -> Hn. by rewrite or_opt_left, or_empty_Some.
    + intros Hmiss.
      assert (∀ b, or_opt (areas !! _normalize_area_code (get (fields payload) "area_code")) b
                   = b) as ->.
      { intros b. by destruct Hmiss as [->| ->]. }
      split.
      * intros Hc. apply truthy_true in Hc. rewrite Hc. apply or_empty_Some.
      * intros ->. done.
Qed.

(** X22. The name of the area in the report of an accepted payload: the
    name that the payload gives, when it is not empty; else the name that
    the table holds for the normalised code, when it is not empty; else the
    word for "area" followed by the code, and the empty text when the code
    is empty. The field [area] repeats it, and the code of the report is
    the normalised code of the payload. *)
Theorem X22_area_name_resolution fs cache payload areas_csv_path areas cache' :
  cargar_diccionario_areas fs cache areas_csv_path = (Return areas, cache') →
  accepted payload →
  ∃ data,
    (generar_informe_conformidad_pdf_desde_payload fs cache payload areas_csv_path).1
    = Return data ∧
    area_code data = _normalize_area_code (get (fields payload) "area_code") ∧
    area data = area_name data ∧
    (∀ n, get (fields payload) "area_name" = Some n → n ≠ "" → area_name data = n) ∧
    (or_empty (get (fields payload) "area_name") = "" →
     (∀ n, areas !! area_code data = Some n → n ≠ "" → area_name data = n) ∧
     (areas !! area_code data = None ∨ areas !! area_code data = Some "" →
      (area_code data ≠ "" → area_name data = AREA_PREFIX +:+ area_code data) ∧
      (area_code data = "" → area_name data = ""))).
Proof.
  intros Hload Hacc. destruct (informe_accepted _ _ _ _ _ _ Hload Hacc) as [data Hdata].
  exists data. split; [done|].
  destruct (informe_area _ _ _ _ _ _ _ Hload Hdata) as (Hcode & Harea & _).
  destruct (area_name_cases _ _ _ _ _ _ _ Hload Hdata) as [Hgiven Hblank].
  by split_and!.
Qed.

(** X23. The order of the checks of the report: an exception of the
    loader of the table is raised as it is, before the payload is looked
    at; with a table, a result that is neither ["conforme"] nor
    ["no_conforme"] is rejected whatever the reason holds; and the cache
    is left as the loader leaves it, whether the payload is accepted or
    not. *)
Theorem X23_report_checks_in_order fs cache payload areas_csv_path :
  (∀ e cache', cargar_diccionario_areas fs cache areas_csv_path = (Raise e, cache') →
     (generar_informe_conformidad_pdf_desde_payload fs cache payload areas_csv_path).1
     = Raise e) ∧
  (∀ areas cache', cargar_diccionario_areas fs cache areas_csv_path = (Return areas, cache') →
     ¬ valid_resultado payload →
     (generar_informe_conformidad_pdf_desde_payload fs cache payload areas_csv_path).1
     = Raise msg_resultado_invalido) ∧
  (generar_informe_conformidad_pdf_desde_payload fs cache payload areas_csv_path).2
  = (cargar_diccionario_areas fs cache areas_csv_path).2.
Proof.
  unfold generar_informe_conformidad_pdf_desde_payload, valid_resultado.
  destruct (cargar_diccionario_areas fs cache areas_csv_path) as [[areas|e] c].
  - split_and!; [done| |done]. intros areas' c' [= <- <-] Hbad.
    cbn [fst mbind exn_bind bind].
    rewrite !bool_decide_eq_false_2; [done|..]; intros Heq; apply Hbad; [by right | by left].
  - split_and!; [|done..]. by intros e' c' [= <- <-].
Qed.

(** X24. From the row of the table to the report. With an empty cache and
    a table file whose last row for a key has a name that is not blank, a
    payload that is accepted, gives no area name, and gives a code that
    consists of digits or has at least two characters and that fills up to
    that key, gets a report with that key as its code and the trimmed name
    of the row as its area name. *)
Theorem X24_area_name_from_table fs payload p rows1 r0 r1 rest rows2 a :
  p ≠ "" → path_exists fs p = true →
  csv_rows fs p = Return (rows1 ++ (r0 :: r1 :: rest) :: rows2) →
  (∀ row' v', row' ∈ rows2 → ¬ entry_of_row (zfill 2 (strip r0)) v' row') →
  strip r0 ≠ "" → strip r1 ≠ "" →
  get (fields payload) "area_code" = Some a →
  isdigit (strip a) = true ∨ (2 <= String.length (strip a))%nat →
  zfill 2 (strip a) = zfill 2 (strip r0) →
  or_empty (get (fields payload) "area_name") = "" →
  accepted payload →
  ∃ data,
    (generar_informe_conformidad_pdf_desde_payload fs None payload (Some p)).1 = Return data ∧
    area_code data = zfill 2 (strip r0) ∧ area_name data = strip r1.
Proof.
  intros Hp Hex Hrows Hlast Hr0 Hr1 Ha Hshape Hfill Hname Hacc.
  pose proof (load_areas_reads fs p _ Hp Hex Hrows) as Hd.
  set (d := foldl add_row ∅ (rows1 ++ (r0 :: r1 :: rest) :: rows2)) in *.
  assert (cargar_diccionario_areas fs None (Some p) = (Return d, Some (Some p, d))) as Hload.
  { unfold cargar_diccionario_areas. by rewrite Hd. }
  destruct (informe_accepted _ _ payload _ _ _ Hload Hacc) as [data Hdata].
  exists data. split; [done|].
  destruct (informe_area _ _ _ _ _ _ _ Hload Hdata) as (Hcode & _).
  destruct (area_name_cases _ _ _ _ _ _ _ Hload Hdata) as (_ & Htable).
  destruct (Htable Hname) as [Hfound _].
  assert (area_code data = zfill 2 (strip r0)) as Hkey.
  { rewrite Hcode, Ha, <- Hfill. symmetry. apply loader_key_report_code; [|done].
    intros He. rewrite He in Hshape.
    destruct Hshape as [Hdig|Hl]; [done | simpl in Hl; lia]. }
  split; [done|]. apply Hfound; [|done]. rewrite Hkey.
  apply foldl_add_row_last; [|done]. by exists r0, r1, rest.
Qed.

End TableProps.

Section TableWitnesses.
Import PyStr Exn Areas Service Spec Vocabulary Samples MoreSamples.

Lemma X22_area_name_resolution_witness :
  ∃ data,
    (generar_informe_conformidad_pdf_desde_payload sample_fs None area_payload
       (Some "areas.csv")).1 = Return data ∧
    area_code data = _normalize_area_code (get (fields area_payload) "area_code") ∧
    area data = area_name data ∧
    (∀ n, get (fields area_payload) "area_name" = Some n → n ≠ "" → area_name data = n) ∧
    (or_empty (get (fields area_payload) "area_name") = "" →
     (∀ n, (list_to_map [("01", "Hacienda"); ("02", "Cultura")] : gmap string string)
             !! area_code data = Some n → n ≠ "" → area_name data = n) ∧
     ((list_to_map [("01", "Hacienda"); ("02", "Cultura")] : gmap string string)
        !! area_code data = None ∨
      (list_to_map [("01", "Hacienda"); ("02", "Cultura")] : gmap string string)
        !! area_code data = Some "" →
      (area_code data ≠ "" → area_name data = AREA_PREFIX +:+ area_code data) ∧
      (area_code data = "" → area_name data = ""))).
Proof.
  apply (X22_area_name_resolution sample_fs None area_payload (Some "areas.csv")
           (list_to_map [("01", "Hacienda"); ("02", "Cultura")])
           (Some (Some "areas.csv", list_to_map [("01", "Hacienda"); ("02", "Cultura")]))).
  - reflexivity.
  - left. reflexivity.
Defined.

Lemma X24_area_name_from_table_witness :
  ∃ data,
    (generar_informe_conformidad_pdf_desde_payload sample_fs None area_payload
       (Some "areas.csv")).1 = Return data ∧
    area_code data = zfill 2 (strip "02") ∧ area_name data = strip "Cultura".
Proof.
  apply (X24_area_name_from_table sample_fs area_payload "areas.csv"
           [["1"; " Hacienda "]] "02" "Cultura" [] [["sin nombre"]; [" "; "nada"]] " 2 ").
  - done.
  - reflexivity.
  - reflexivity.
  - intros row' v' Hin (r0 & r1 & rest & -> & Hne & Hk & _).
    apply elem_of_cons in Hin as [Hin|Hin]; [done|].
    apply list_elem_of_singleton in Hin. injection Hin as -> -> ->. by vm_compute in Hne.
  - by vm_compute.
  - by vm_compute.
  - reflexivity.
  - by left.
  - reflexivity.
  - reflexivity.
  - left. reflexivity.
Defined.

Example report_examples :
  (∃ data,
     (generar_informe_conformidad_pdf_desde_payload sample_fs None area_payload
        (Some "areas.csv")).1 = Return data ∧
     area_code data = "02" ∧ area_name data = "Cultura" ∧ area_logo data = None) ∧
  _find_logo_for_area sample_fs "01" = Some "images/logo_01.png".
Proof. split; [eexists; split; [reflexivity|]; by split_and! | reflexivity]. Qed.

End TableWitnesses.

(** ** The tax breakdown and the cache of the table *)

Section TaxProps.
Import PyStr Exn ET Lib XsigPdf Spec Vocabulary.
Context `{Externals}.

(** A default that is given both to [findtext] and to [or] applies to a
    missing node and to an empty text alike. *)
Lemma findtext_or_default e path dflt :
  or_str (findtext e path dflt) dflt
  = if truthy (findtext e path "") then findtext e path "" else dflt.
Proof.
  unfold findtext, or_str. destruct (find e path) as [el|]; [done|].
  simpl. by destruct dflt.
Qed.

(** X25. The breakdown of the output taxes has one entry for each [Tax]
    child of the first [TaxesOutputs] element, in their order. In an entry,
    a rate that is missing or empty is written as ["21"] and a type code
    that is missing or empty as ["01"]; any other text is written trimmed,
    so that a blank rate stays blank. *)
Theorem X25_output_tax_defaults now xml_root :
  ∃ d, _extract_invoice_data_from_xml now xml_root = Return d ∧
    ∀ inv outs,
      find xml_root [Desc "Invoices"; Child "Invoice"] = Some inv →
      find inv [Desc "TaxesOutputs"] = Some outs →
      length (TaxesOutputDetails d) = length (findall outs [Child "Tax"]) ∧
      ∀ i tax, findall outs [Child "Tax"] !! i = Some tax →
        ∃ entry, TaxesOutputDetails d !! i = Some entry ∧
          entry !! "rate"
          = Some (if truthy (findtext tax [Child "TaxRate"] "")
                  then strip (findtext tax [Child "TaxRate"] "") else "21") ∧
          entry !! "type_code"
          = Some (if truthy (findtext tax [Child "TaxTypeCode"] "")
                  then strip (findtext tax [Child "TaxTypeCode"] "") else "01").
Proof.
  destruct (extractor_invoice_fields now xml_root)
    as (d & Hd & _ & _ & _ & _ & _ & _ & Ho & _).
  exists d. split; [done|]. intros inv outs Hinv Houts.
  rewrite Ho, Hinv. unfold taxes_output_details_of. rewrite Houts.
  split; [apply length_fmap|].
  intros i tax Hi. rewrite list_lookup_fmap, Hi. eexists. split; [reflexivity|].
  split.
  - rewrite (findtext_or_default tax [Child "TaxRate"]).
    destruct (truthy (findtext tax [Child "TaxRate"] "")); lookup_literal.
  - rewrite (findtext_or_default tax [Child "TaxTypeCode"]).
    destruct (truthy (findtext tax [Child "TaxTypeCode"] "")); lookup_literal.
Qed.

End TaxProps.

Section CacheProps.
Import PyStr Exn Areas Spec.

(** X26. The cache of the table holds one entry. A call that returns
    leaves the entry of its own argument; a call that raises leaves the
    cache as it was, and it raises only what the loader raises; and after
    a call that returned, a call with another argument always runs the
    loader on the files as they are then. *)
Theorem X26_cache_holds_one_entry fs cache p :
  (∀ d cache', cargar_diccionario_areas fs cache p = (Return d, cache') →
     cache' = Some (p, d) ∧
     ∀ fs' q, q ≠ p →
       cargar_diccionario_areas fs' cache' q
       = match load_areas fs' q with
         | Return d' => (Return d', Some (q, d'))
         | Raise e => (Raise e, cache')
         end) ∧
  (∀ e cache', cargar_diccionario_areas fs cache p = (Raise e, cache') →
     cache' = cache ∧ load_areas fs p = Raise e).
Proof.
  split.
  - intros d cache' Hcall.
    assert (cache' = Some (p, d)) as ->.
    { revert Hcall. unfold cargar_diccionario_areas. destruct cache as [[k d0]|].
      - case_decide as Hk; [subst k; by intros [= <- <-]|].
        destruct (load_areas fs p); [by intros [= <- <-] | done].
      - destruct (load_areas fs p); [by intros [= <- <-] | done]. }
    split; [done|]. intros fs' q Hq. apply cargar_miss. intros d' [= ? ?]. done.
  - intros e cache' Hcall. revert Hcall. unfold cargar_diccionario_areas.
    destruct cache as [[k d0]|].
    + case_decide as Hk; [done|].
      destruct (load_areas fs p); [done | by intros [= <- <-]].
    + destruct (load_areas fs p); [done | by intros [= <- <-]].
Qed.

Example cache_examples :
  (cargar_diccionario_areas Samples.empty_fs
     (cargar_diccionario_areas Samples.sample_fs
        (cargar_diccionario_areas Samples.sample_fs None (Some "areas.csv")).2
        (Some "otra.csv")).2
     (Some "areas.csv")).1 = Return ∅.
Proof. reflexivity. Qed.

End CacheProps.

(** ** Amounts with separators *)

Section NumberProps.
Import PyStr PyFloat PyFormat XsigAmounts ApiAmounts Vocabulary.
#[local] Arguments Ascii.eqb : simpl never.

Lemma string_of_uint_decimal u :
  all_chars isdecimal (NilEmpty.string_of_uint u) = true.
Proof. induction u; simpl; done. Qed.

Lemma nilzero_string_of_uint_decimal u :
  all_chars isdecimal (NilZero.string_of_uint u) = true.
Proof. destruct u; [done|..]; apply string_of_uint_decimal. Qed.

Lemma str_of_Z_decimal n : 0 <= n → all_chars isdecimal (str_of_Z n) = true.
Proof.
  intros Hn. unfold str_of_Z. destruct (Z.ltb_spec n 0); [lia|].
  apply nilzero_string_of_uint_decimal.
Qed.

Lemma str_of_Z_nonempty n : 0 <= n → str_of_Z n ≠ "".
Proof.
  intros Hn. unfold str_of_Z. destruct (Z.ltb_spec n 0); [lia|].
  destruct (N.to_uint (Z.to_N n)); done.
Qed.

Lemma decimal_is_digit s : all_chars isdecimal s = true → all_chars isdigit_char s = true.
Proof.
  apply all_chars_impl. intros c Hc. unfold isdigit_char. by rewrite Hc.
Qed.

Lemma two_digits_decimal k : 0 <= k → all_chars isdecimal (two_digits k) = true.
Proof.
  intros Hk. unfold two_digits. pose proof (str_of_Z_decimal k Hk) as Hd.
  rewrite zfill_digits.
  - by rewrite all_chars_app, Hd, all_chars_zeros.
  - unfold isdigit. rewrite (decimal_is_digit _ Hd), andb_true_r.
    apply truthy_true. by apply str_of_Z_nonempty.
Qed.

Lemma decimal_mem_char c s :
  isdecimal c = false → all_chars isdecimal s = true → mem_char c s = false.
Proof.
  intros Hc. induction s as [|a s IH]; [done|]. cbn [all_chars].
  intros [Ha Hs]%andb_true_iff. rewrite mem_char_cons, (IH Hs), orb_false_r.
  apply Ascii.eqb_neq. intros ->. congruence.
Qed.

Lemma replace_char_decimal old new s :
  isdecimal old = false → all_chars isdecimal s = true → replace_char old new s = s.
Proof. intros Ho Hs. by apply replace_char_absent, decimal_mem_char. Qed.

(** Replacing the separator of grouped digits regroups them. *)
Lemma replace_group_sep sep sep' s :
  isdecimal sep = false → all_chars isdecimal s = true →
  replace_char sep (String sep' "") (group_digits sep s) = group_digits sep' s.
Proof.
  intros Hsep. induction s as [|c s IH]; [done|]. simpl.
  intros [Hc Hs]%andb_true_iff.
  assert (Ascii.eqb c sep = false) as Hcs by (apply Ascii.eqb_neq; intros ->; congruence).
  destruct (_ && _); simpl; rewrite Hcs, ?Ascii.eqb_refl, (IH Hs); done.
Qed.

(** Replacing another character leaves grouped digits alone. *)
Lemma replace_group_other old new sep s :
  isdecimal old = false → old ≠ sep → all_chars isdecimal s = true →
  replace_char old new (group_digits sep s) = group_digits sep s.
Proof.
  intros Hold Hne. induction s as [|c s IH]; [done|]. simpl.
  intros [Hc Hs]%andb_true_iff.
  assert (Ascii.eqb c old = false) as Hco by (apply Ascii.eqb_neq; intros ->; congruence).
  assert (Ascii.eqb sep old = false) as Hso by (by apply Ascii.eqb_neq).
  destruct (_ && _); simpl; rewrite Hco, ?Hso, (IH Hs); done.
Qed.

Lemma div_half_even_nonneg num den : 0 <= num → 0 < den → 0 <= div_half_even num den.
Proof.
  intros Hn Hd. unfold div_half_even.
  assert (0 <= num / den) by (apply Z.div_pos; lia).
  repeat case_match; lia.
Qed.

(** The hundredths of a float that is well formed. *)
Lemma hundredths_nonneg m e :
  0 <= m →
  0 <= (if 0 <=? e then 100 * m * 2 ^ e else div_half_even (100 * m) (2 ^ (- e))).
Proof.
  intros Hm. destruct (Z.leb_spec 0 e).
  - assert (0 <= 2 ^ e) by (apply Z.pow_nonneg; lia). nia.
  - apply div_half_even_nonneg; [lia|]. apply Z.pow_pos_nonneg; lia.
Qed.

(** The three replacements on the parts of a formatted float. *)
Lemma swap_sign (neg : bool) :
  replace_char "X" "." (replace_char "." "," (replace_char "," "X"
    (if neg then "-" else "")))
  = if neg then "-" else "".
Proof. by destruct neg. Qed.

Lemma swap_digits ip :
  all_chars isdecimal ip = true →
  replace_char "X" "." (replace_char "." "," (replace_char "," "X" (group_digits "," ip)))
  = group_digits "." ip.
Proof.
  intros Hip. rewrite (replace_group_sep "," "X") by done.
  rewrite (replace_group_other "." "," "X") by done.
  by rewrite (replace_group_sep "X" ".").
Qed.

Lemma swap_point fp :
  all_chars isdecimal fp = true →
  replace_char "X" "." (replace_char "." "," (replace_char "," "X" (String "." fp)))
  = String "," fp.
Proof.
  intros Hfp.
  change (replace_char "," "X" (String "." fp)) with (String "." (replace_char "," "X" fp)).
  rewrite (replace_char_decimal "," "X" fp) by done.
  change (replace_char "." "," (String "." fp)) with (String "," (replace_char "." "," fp)).
  rewrite (replace_char_decimal "." "," fp) by done.
  change (replace_char "X" "." (String "," fp)) with (String "," (replace_char "X" "." fp)).
  by rewrite (replace_char_decimal "X" "." fp).
Qed.

(** The three replacements of [_fmt_num] and [_fmt_eur] swap the two
    separators, and leave alone a suffix without point, comma and [X]. *)
Lemma swap_separators v suffix :
  float_wf v →
  mem_char "," suffix = false → mem_char "." suffix = false → mem_char "X" suffix = false →
  replace_char "X" "." (replace_char "." "," (replace_char "," "X"
    (format_comma_2f v +:+ suffix)))
  = format_grouped "." "," v +:+ suffix.
Proof.
  intros Hwf Hc Hp Hx.
  assert (∀ t, replace_char "X" "." (replace_char "." "," (replace_char "," "X" t)) = t →
            replace_char "X" "." (replace_char "." "," (replace_char "," "X" (t +:+ suffix)))
            = t +:+ suffix) as Hplain.
  { intros t Ht. rewrite !replace_char_app, Ht.
    by rewrite (replace_char_absent "," _ suffix), (replace_char_absent "." _ suffix),
      (replace_char_absent "X" _ suffix). }
  destruct v as [|neg|neg m e]; [by apply Hplain | destruct neg; by apply Hplain|].
  simpl in Hwf. unfold format_comma_2f, format_grouped.
  pose proof (hundredths_nonneg m e Hwf) as Hh.
  set (h := if 0 <=? e then _ else _) in *.
  assert (all_chars isdecimal (str_of_Z (h / 100)) = true) as Hip.
  { apply str_of_Z_decimal. apply Z.div_pos; lia. }
  assert (all_chars isdecimal (two_digits (h mod 100)) = true) as Hfp.
  { apply two_digits_decimal. apply Z.mod_pos_bound. lia. }
  set (ip := str_of_Z (h / 100)) in *. set (fp := two_digits (h mod 100)) in *.
  rewrite !replace_char_app.
  rewrite (replace_char_absent "," _ suffix), (replace_char_absent "." _ suffix),
    (replace_char_absent "X" _ suffix) by done.
  rewrite (swap_sign neg), (swap_digits _ Hip), (swap_point _ Hfp). done.
Qed.

Lemma span_digits_nonneg s acc n D k r :
  0 <= acc → span_digits acc n s = (D, k, r) → 0 <= D.
Proof.
  revert acc n. induction s as [|c s IH]; intros acc n Hacc; simpl.
  - by intros [= <- _ _].
  - destruct (isdecimal c) eqn:Hc; [|by intros [= <- _ _]].
    apply IH. unfold digit_value. unfold isdecimal, in_range in Hc.
    apply andb_true_iff in Hc as [Hlo _]. apply N.leb_le in Hlo. lia.
Qed.

Lemma parse_number_nonneg r D x : parse_number r = Some (D, x) → 0 <= D.
Proof.
  unfold parse_number.
  destruct (span_digits 0 0 r) as [[ip ni] r0] eqn:Hip.
  pose proof (span_digits_nonneg _ _ _ _ _ _ (Z.le_refl 0) Hip) as Hnn.
  assert (∀ D' nf r',
            match r0 with
            | String c r1 => if Ascii.eqb c "." then span_digits ip 0 r1 else (ip, 0%nat, r0)
            | EmptyString => (ip, 0%nat, r0)
            end = (D', nf, r') → 0 <= D') as Hfrac.
  { intros D' nf r'. destruct r0 as [|c r1]; [by intros [= <- _ _]|].
    destruct (Ascii.eqb c "."); [|by intros [= <- _ _]].
    by apply span_digits_nonneg. }
  destruct (match r0 with String _ _ => _ | EmptyString => _ end) as [[D' nf] r'] eqn:Hf.
  specialize (Hfrac _ _ _ eq_refl).
  destruct (_ =? _)%nat; [done|].
  destruct (parse_exponent r'); simpl; [|done]. by intros [= <- _].
Qed.

Lemma round_binary64_wf neg n d : 0 <= n → 0 < d → float_wf (round_binary64 neg n d).
Proof.
  intros Hn Hd. unfold round_binary64. destruct (n =? 0); [done|].
  set (q := Z.max _ _).
  assert (0 <= (if 0 <=? q then div_half_even n (d * 2 ^ q)
                else div_half_even (n * 2 ^ (- q)) d)) as Hm.
  { destruct (Z.leb_spec 0 q).
    - apply div_half_even_nonneg; [done|].
      assert (0 < 2 ^ q) by (apply Z.pow_pos_nonneg; lia). nia.
    - apply div_half_even_nonneg; [|done].
      assert (0 < 2 ^ (- q)) by (apply Z.pow_pos_nonneg; lia). nia. }
  set (m := if 0 <=? q then _ else _) in *.
  destruct (m =? 2 ^ 53); cbv beta iota; destruct (971 <? _); simpl; lia.
Qed.

(** A float that [float()] returns is well formed. *)
Lemma float_of_str_wf s v : float_of_str s = Some v → float_wf v.
Proof.
  unfold float_of_str. destruct (strip_underscores _ _) as [t|]; [|done]. simpl.
  destruct (parse_sign t) as [neg r].
  destruct (_ || _); [by intros [= <-]|].
  destruct (bool_decide _); [by intros [= <-]|].
  destruct (parse_number r) as [[D x]|] eqn:Hn; [|done]. simpl. intros [= <-].
  apply parse_number_nonneg in Hn. unfold round_decimal.
  destruct (Z.leb_spec 0 x).
  - apply round_binary64_wf; [|lia]. assert (0 <= 10 ^ x) by (apply Z.pow_nonneg; lia). nia.
  - apply round_binary64_wf; [done|]. apply Z.pow_pos_nonneg; lia.
Qed.

(** X27. The amounts of the tax table. A text that [float()] accepts is
    written with two decimals, a point between the thousands and a comma
    before the decimals: the placeholder of the three replacements never
    meets an [X] of the number, so the two separators of the English form
    are swapped and nothing else changes. A text that [float()] rejects is
    returned as it is, and as ["0"] when it is empty. *)
Theorem X27_fmt_num_swaps_separators :
  (∀ val v, float_of_str val = Some v → _fmt_num val = format_grouped "." "," v) ∧
  (∀ val, float_of_str val = None → val ≠ "" → _fmt_num val = val) ∧
  _fmt_num "" = "0".
Proof.
  split_and!.
  - intros val v Hv. unfold _fmt_num. rewrite Hv.
    pose proof (swap_separators v "" (float_of_str_wf _ _ Hv) eq_refl eq_refl eq_refl) as Hs.
    by rewrite !append_nil_r in Hs.
  - intros val Hv Hne. unfold _fmt_num. rewrite Hv. unfold or_str.
    apply truthy_true in Hne. by rewrite Hne.
  - reflexivity.
Qed.

(** X28. Amounts in euros. A float whose mantissa is not negative is
    written with two decimals, a point between the thousands, a comma
    before the decimals and the euro sign after a blank; [None] and a zero
    of either sign are written as a plain zero. *)
Theorem X28_fmt_eur_swaps_separators :
  (∀ val, float_wf (or_zero val) →
          _fmt_eur val = format_grouped "." "," (or_zero val) +:+ EURO_SUFFIX) ∧
  _fmt_eur None = "0,00" +:+ EURO_SUFFIX ∧
  (∀ neg e, _fmt_eur (Some (Fin neg 0 e)) = "0,00" +:+ EURO_SUFFIX).
Proof.
  split_and!.
  - intros val Hwf. unfold _fmt_eur. cbv zeta. by apply swap_separators.
  - reflexivity.
  - reflexivity.
Qed.

Lemma X28_fmt_eur_witness :
  _fmt_eur (Some (Fin false 5429503678977 (-32)))
  = format_grouped "." "," (or_zero (Some (Fin false 5429503678977 (-32)))) +:+ EURO_SUFFIX.
Proof.
  apply (proj1 X28_fmt_eur_swaps_separators (Some (Fin false 5429503678977 (-32)))).
  simpl. lia.
Defined.

Example amounts_examples :
  _fmt_num "1234567.891" = "1.234.567,89" ∧ _fmt_num "21" = "21,00" ∧
  _fmt_num "-1234.5" = "-1.234,50" ∧ _fmt_num "n/d" = "n/d" ∧ _fmt_num "nan" = "nan" ∧
  _fmt_eur (Some (Fin false 5429503678977 (-32))) = "1.264,15" +:+ EURO_SUFFIX ∧
  _fmt_eur (Some (Fin true 0 0)) = "0,00" +:+ EURO_SUFFIX.
Proof. split_and!; by vm_compute. Qed.

End NumberProps.

(** ** More about the rate formatter *)

Section RateMore.
Import PyStr PyFloat XsigPdf Vocabulary.
#[local] Arguments Ascii.eqb : simpl never.

Lemma rstrip_by_cons_keep p c s :
  p c = false → rstrip_by p (String c s) = String c (rstrip_by p s).
Proof. intros Hp. simpl. destruct (rstrip_by p s); [by rewrite Hp | done]. Qed.

Lemma rstrip_by_cons_nonempty p c s :
  rstrip_by p s ≠ "" → rstrip_by p (String c s) = String c (rstrip_by p s).
Proof. intros Hne. simpl. by destruct (rstrip_by p s). Qed.

Lemma rstrip_by_app_keep p s t :
  rstrip_by p t ≠ "" → rstrip_by p (s +:+ t) = s +:+ rstrip_by p t.
Proof.
  intros Hne. induction s as [|c s IH]; [done|]. rewrite !append_cons.
  rewrite rstrip_by_cons_nonempty; rewrite IH; [done|]. by destruct s, (rstrip_by p t).
Qed.

Lemma rstrip_by_app_drop p s t :
  rstrip_by p t = "" → rstrip_by p (s +:+ t) = rstrip_by p s.
Proof.
  intros He. induction s as [|c s IH]; [done|]. rewrite append_cons. simpl. by rewrite IH.
Qed.

Lemma all_chars_rstrip_by q p s :
  all_chars q s = true → all_chars q (rstrip_by p s) = true.
Proof.
  induction s as [|c s IH]; [done|]. simpl. intros [Hc Hs]%andb_true_iff.
  specialize (IH Hs). destruct (rstrip_by p s).
  - destruct (p c); [done|]. simpl. by rewrite Hc.
  - simpl. rewrite Hc. done.
Qed.

Lemma rstrip_point_decimal s : all_chars isdecimal s = true → rstrip "." s = s.
Proof.
  intros Hs. apply strip_by_clean. eapply all_chars_impl; [|done].
  intros c Hc. rewrite mem_char_cons. simpl. rewrite orb_false_r.
  apply negb_true_iff, Ascii.eqb_neq. intros ->. done.
Qed.

(** X30. The rate formatter keeps the integer part whole. For a rate that
    parses, after its commas are replaced, to a finite float, the result
    is the sign and the integer part of its two-decimal form, followed by
    a point and the decimals without their trailing zeros when a decimal
    is left, and by nothing otherwise: the zeros of the integer part are
    never removed. *)
Theorem X30_rate_keeps_integer_part x neg m e :
  float_of_str (replace_char "," "." x) = Some (Fin neg m e) →
  _fmt_rate x
  = (if neg then "-" else "") +:+ str_of_Z (hundredths m e / 100) +:+
    (if truthy (rstrip "0" (two_digits (hundredths m e mod 100)))
     then "." +:+ rstrip "0" (two_digits (hundredths m e mod 100))
     else "").
Proof.
  intros Hf. unfold _fmt_rate. rewrite Hf.
  pose proof (float_of_str_wf _ _ Hf) as Hwf. simpl in Hwf.
  pose proof (hundredths_nonneg m e Hwf) as Hh.
  unfold format_2f. fold (hundredths m e) in *.
  assert (all_chars isdecimal (str_of_Z (hundredths m e / 100)) = true) as Hip.
  { apply str_of_Z_decimal. apply Z.div_pos; lia. }
  assert (all_chars isdecimal (two_digits (hundredths m e mod 100)) = true) as Hfp.
  { apply two_digits_decimal. apply Z.mod_pos_bound. lia. }
  set (ipd := str_of_Z (hundredths m e / 100)) in *.
  set (dd := two_digits (hundredths m e mod 100)) in *.
  pose proof (all_chars_rstrip_by _ (λ c, mem_char c "0") _ Hfp) as Hr.
  fold (rstrip "0" dd) in Hr.
  set (ip := (if neg then "-" else "") +:+ ipd).
  assert (∀ t, (if neg then "-" else "") +:+ ipd +:+ t = ip +:+ t) as Hassoc.
  { intros t. subst ip. by rewrite append_assoc. }
  rewrite !Hassoc. change ("." +:+ dd) with (String "." dd).
  assert (rstrip "." ip = ip) as Hclean.
  { apply strip_by_clean. subst ip. rewrite all_chars_app.
    apply andb_true_iff. split; [by destruct neg|].
    eapply all_chars_impl; [|exact Hip].
    intros c Hc. rewrite mem_char_cons. simpl. rewrite orb_false_r.
    apply negb_true_iff, Ascii.eqb_neq. intros ->. done. }
  assert (rstrip "0" (ip +:+ String "." dd) = ip +:+ String "." (rstrip "0" dd)) as ->.
  { unfold rstrip. rewrite rstrip_by_app_keep; rewrite rstrip_by_cons_keep; done. }
  destruct (rstrip "0" dd) as [|c r] eqn:Hdd; simpl truthy; cbv iota.
  - unfold rstrip. rewrite rstrip_by_app_drop by done.
    fold (rstrip "." ip). rewrite Hclean.
    by rewrite append_nil_r.
  - assert (rstrip "." (String "." (String c r)) = String "." (String c r)) as Hkeep.
    { unfold rstrip. rewrite rstrip_by_cons_nonempty;
        fold (rstrip "." (String c r)); rewrite (rstrip_point_decimal _ Hr); done. }
    unfold rstrip in *. rewrite rstrip_by_app_keep; rewrite Hkeep; done.
Qed.

Lemma X30_rate_keeps_integer_part_witness :
  _fmt_rate "100,50"
  = "" +:+ str_of_Z (hundredths 7072058789855232 (-46) / 100) +:+
    (if truthy (rstrip "0" (two_digits (hundredths 7072058789855232 (-46) mod 100)))
     then "." +:+ rstrip "0" (two_digits (hundredths 7072058789855232 (-46) mod 100))
     else "").
Proof.
  apply (X30_rate_keeps_integer_part "100,50" false 7072058789855232 (-46)).
  by vm_compute.
Defined.

Example rate_examples :
  _fmt_rate "100" = "100" ∧ _fmt_rate "100,50" = "100.5" ∧ _fmt_rate "0" = "0" ∧
  _fmt_rate "10.00" = "10" ∧ _fmt_rate "-20.10" = "-20.1".
Proof. split_and!; by vm_compute. Qed.

End RateMore.

(** ** Integers written and read back *)

Section IntegerProps.
Import PyStr Areas Service Vocabulary.
#[local] Arguments Ascii.eqb : simpl never.

Lemma digits_value_uint u acc :
  digits_value acc (NilEmpty.string_of_uint u)
  = match u with
    | Decimal.Nil => acc
    | _ => digits_value acc (NilEmpty.string_of_uint u)
    end.
Proof. by destruct u. Qed.

Lemma of_uint_acc_value u acc :
  Z.pos (Pos.of_uint_acc u acc) = digits_value (Z.pos acc) (NilEmpty.string_of_uint u).
Proof.
  revert acc. induction u; intros acc; simpl; [done|..]; rewrite IHu; f_equal;
    unfold digit_value; simpl; lia.
Qed.

Lemma of_uint_value u :
  Z.of_N (N.of_uint u) = digits_value 0 (NilEmpty.string_of_uint u).
Proof.
  unfold N.of_uint. induction u; simpl; [done|exact IHu|..];
    rewrite of_uint_acc_value; f_equal.
Qed.

(** Reading the decimal form of a natural number gives it back. *)
Lemma digits_value_to_uint k :
  digits_value 0 (NilZero.string_of_uint (N.to_uint k)) = Z.of_N k.
Proof.
  rewrite <- (DecimalN.Unsigned.of_to k) at 2. rewrite of_uint_value.
  by destruct (N.to_uint k).
Qed.

Lemma to_uint_nonempty k : NilZero.string_of_uint (N.to_uint k) ≠ "".
Proof. by destruct (N.to_uint k). Qed.

Lemma to_uint_decimal k : all_chars isdecimal (NilZero.string_of_uint (N.to_uint k)) = true.
Proof. apply nilzero_string_of_uint_decimal. Qed.

(** [int_digits] on digits in the sense of [str.isdigit]: the decimal ones
    are read, a superscript is refused. *)
Lemma int_digits_isdigit need acc s :
  all_chars isdigit_char s = true → s ≠ "" →
  int_digits need acc s
  = if all_chars isdecimal s then Some (digits_value acc s) else None.
Proof.
  revert need acc. induction s as [|c s IH]; intros need acc Hs Hne; [done|].
  simpl in Hs. apply andb_true_iff in Hs as [Hc Hs]. simpl.
  destruct (isdecimal c) eqn:Hdec.
  - destruct s as [|b s]; [done|]. by rewrite IH.
  - assert (Ascii.eqb c "_" = false) as ->; [|done].
    apply Ascii.eqb_neq. intros ->. by vm_compute in Hc.
Qed.

Lemma numeric_space_not_digit c : isdigit_char c = true → negb (isspace_numeric c) = true.
Proof. destruct c as [[] [] [] [] [] [] [] []]; vm_compute; done. Qed.

Lemma strip_numeric_digits s : all_chars isdigit_char s = true → strip_numeric s = s.
Proof.
  intros Hs. destruct (strip_by_clean isspace_numeric s) as [Hl Hr].
  - eapply all_chars_impl; [apply numeric_space_not_digit | done].
  - unfold strip_numeric. by rewrite Hr, Hl.
Qed.

(** [int()] on a string of digits: more than [INT_MAX_STR_DIGITS] of them
    are refused, and so is a superscript. *)
Lemma int_isdigit s :
  isdigit s = true →
  int s = if INT_MAX_STR_DIGITS <? count_decimal s then None
          else if all_chars isdecimal s then Some (digits_value 0 s) else None.
Proof.
  unfold isdigit. intros [Ht Hs]%andb_true_iff. apply truthy_true in Ht.
  unfold int. rewrite (strip_numeric_digits _ Hs).
  destruct s as [|c s]; [done|].
  assert (Ascii.eqb c "-" = false ∧ Ascii.eqb c "+" = false) as [-> ->].
  { simpl in Hs. apply andb_true_iff in Hs as [Hc _].
    split; apply Ascii.eqb_neq; intros ->; by vm_compute in Hc. }
  unfold int_literal. by rewrite int_digits_isdigit.
Qed.

Lemma digits_value_zeros n s : digits_value 0 (zeros n +:+ s) = digits_value 0 s.
Proof.
  induction n as [|n IH]; [done|]. cbn [zeros]. rewrite append_cons.
  cbn [digits_value]. exact IH.
Qed.

Lemma isdigit_str_of_Z n : 0 <= n → isdigit (str_of_Z n) = true.
Proof.
  intros Hn. unfold isdigit, str_of_Z. destruct (Z.ltb_spec n 0); [lia|].
  rewrite (decimal_is_digit _ (to_uint_decimal _)), andb_true_r.
  apply truthy_true, to_uint_nonempty.
Qed.

(** *** The digit limit *)

Lemma count_decimal_nonneg s : 0 <= count_decimal s.
Proof. induction s as [|c s IH]; simpl; [done|]. destruct (isdecimal c); lia. Qed.

Lemma count_decimal_app s t :
  count_decimal (s +:+ t) = count_decimal s + count_decimal t.
Proof.
  induction s as [|c s IH]; [done|]. rewrite append_cons. simpl. rewrite IH. lia.
Qed.

Lemma count_decimal_all s :
  all_chars isdecimal s = true → count_decimal s = Z.of_nat (String.length s).
Proof.
  induction s as [|c s IH]; [done|]. simpl. intros [-> Hs]%andb_true_iff.
  rewrite (IH Hs). lia.
Qed.

Lemma count_decimal_zeros n : count_decimal (zeros n) = Z.of_nat n.
Proof.
  rewrite count_decimal_all by (by apply all_chars_zeros). by rewrite length_zeros.
Qed.

Lemma digit_value_range c : isdecimal c = true → 0 <= digit_value c <= 9.
Proof.
  unfold isdecimal, in_range, digit_value. intros [H1 H2]%andb_true_iff.
  apply N.leb_le in H1, H2. lia.
Qed.

(** What [int_digits] reads lies below the power of ten of the number of
    its digits. *)
Lemma int_digits_bound need acc s v :
  int_digits need acc s = Some v → 0 <= acc →
  acc * 10 ^ count_decimal s <= v < (acc + 1) * 10 ^ count_decimal s.
Proof.
  revert need acc. induction s as [|c s IH]; intros need acc; simpl.
  - destruct need; [done|]. intros [= <-] Hacc. lia.
  - destruct (isdecimal c) eqn:Hc.
    + intros Hv Hacc. pose proof (digit_value_range c Hc) as Hd.
      apply IH in Hv; [|lia].
      pose proof (count_decimal_nonneg s) as Hk.
      replace (1 + count_decimal s) with (Z.succ (count_decimal s)) by lia.
      rewrite Z.pow_succ_r by done.
      assert (0 < 10 ^ count_decimal s) as Hp by (apply Z.pow_pos_nonneg; lia).
      nia.
    + destruct (Ascii.eqb c "_"); [|done]. destruct need; [done|].
      intros Hv Hacc. apply IH in Hv; [|done]. by rewrite Z.add_0_l.
Qed.

Lemma int_literal_bound s v :
  int_literal s = Some v → 0 <= v < 10 ^ INT_MAX_STR_DIGITS.
Proof.
  unfold int_literal. destruct (Z.ltb_spec INT_MAX_STR_DIGITS (count_decimal s)); [done|].
  intros Hv%int_digits_bound; [|done].
  assert (10 ^ count_decimal s <= 10 ^ INT_MAX_STR_DIGITS)
    by (apply Z.pow_le_mono_r; [lia|done]).
  lia.
Qed.

(** What [int()] returns has at most [INT_MAX_STR_DIGITS] digits, so
    [str()] and the f-string accept it. *)
Lemma int_bound s n : int s = Some n → Z.abs n < 10 ^ INT_MAX_STR_DIGITS.
Proof.
  unfold int. destruct (strip_numeric s) as [|c s']; [done|].
  destruct (Ascii.eqb c "-").
  - destruct (int_literal s') as [v|] eqn:Hv; [|done]. intros [= <-].
    apply int_literal_bound in Hv. lia.
  - destruct (Ascii.eqb c "+"); intros Hv%int_literal_bound; lia.
Qed.

Lemma digits_value_lower acc s :
  all_chars isdecimal s = true → 0 <= acc →
  acc * 10 ^ Z.of_nat (String.length s) <= digits_value acc s.
Proof.
  revert acc. induction s as [|c s IH]; intros acc; simpl String.length; simpl digits_value.
  - intros _ Hacc. simpl. lia.
  - simpl. intros [Hc Hs]%andb_true_iff Hacc.
    pose proof (digit_value_range c Hc) as Hd.
    pose proof (IH (10 * acc + digit_value c) Hs ltac:(lia)) as Hv.
    rewrite Nat2Z.inj_succ, Z.pow_succ_r by lia.
    assert (0 < 10 ^ Z.of_nat (String.length s)) as Hp by (apply Z.pow_pos_nonneg; lia).
    nia.
Qed.

(** The decimal form of a natural number is [0] or starts with another
    digit. *)
Lemma to_uint_head k :
  N.to_uint k = Decimal.D0 Decimal.Nil ∨
  ∃ c s, NilZero.string_of_uint (N.to_uint k) = String c s ∧ 1 <= digit_value c ∧
         all_chars isdecimal s = true.
Proof.
  assert (Decimal.unorm (N.to_uint k) = N.to_uint k) as Hn.
  { rewrite <- (DecimalN.Unsigned.to_of (N.to_uint k)).
    by rewrite DecimalN.Unsigned.of_to. }
  destruct (N.to_uint k) as [|u|u|u|u|u|u|u|u|u|u];
    [done | | right; eexists _, _; (split; [reflexivity|]);
              (split; [by vm_compute | apply string_of_uint_decimal]) ..].
  left. unfold Decimal.unorm in Hn. simpl in Hn.
  destruct (Decimal.nzhead u) eqn:E; try done.
  by apply DecimalFacts.nzhead_nonzero in E.
Qed.

(** [str(v)] has no more digits than a power of ten above [v]. *)
Lemma str_of_Z_length v d :
  0 <= v < 10 ^ d → 1 <= d → Z.of_nat (String.length (str_of_Z v)) <= d.
Proof.
  intros [Hv Hlt] Hd. unfold str_of_Z. destruct (Z.ltb_spec v 0); [lia|].
  pose proof (digits_value_to_uint (Z.to_N v)) as Hval.
  destruct (to_uint_head (Z.to_N v)) as [->|(c & s & Hcs & Hc & Hs)]; [simpl; lia|].
  rewrite Hcs in Hval |- *. simpl in Hval.
  pose proof (digits_value_lower (digit_value c) s Hs ltac:(lia)) as Hlow.
  rewrite Z.mul_0_r, Z.add_0_l in Hval.
  assert (0 < 10 ^ Z.of_nat (String.length s)) as Hp by (apply Z.pow_pos_nonneg; lia).
  assert (10 ^ Z.of_nat (String.length s) < 10 ^ d) as Hpow by nia.
  apply Z.pow_lt_mono_r_iff in Hpow; [|lia..].
  simpl String.length. lia.
Qed.

(** Reading what [f"{n:02d}"] writes gives [n] back, for [n] within the
    digit limit. *)
Lemma int_format_02d n :
  Z.abs n < 10 ^ INT_MAX_STR_DIGITS →
  int (format_02d n) = Some n ∧ strip (format_02d n) = format_02d n.
Proof.
  intros Hb. assert (2 <= INT_MAX_STR_DIGITS) as Hmax by done.
  unfold format_02d. destruct (Z.ltb_spec n 0) as [Hneg|Hpos].
  - pose proof (str_of_Z_length (- n) INT_MAX_STR_DIGITS ltac:(lia) ltac:(lia)) as Hlen.
    unfold str_of_Z in *. destruct (Z.ltb_spec n 0); [|lia].
    destruct (Z.ltb_spec (- n) 0); [lia|].
    set (ds := NilZero.string_of_uint (N.to_uint (Z.to_N (- n)))) in *.
    assert (all_chars isdecimal ds = true) as Hdec by apply to_uint_decimal.
    assert (ds ≠ "") as Hne by apply to_uint_nonempty.
    rewrite zfill_long by (destruct ds; [done | simpl; lia]).
    split.
    + unfold int.
      assert (strip_numeric (String "-" ds) = String "-" ds) as ->.
      { destruct (strip_by_clean isspace_numeric (String "-" ds)) as [Hl Hr].
        - simpl. eapply all_chars_impl; [|exact (decimal_is_digit _ Hdec)].
          apply numeric_space_not_digit.
        - unfold strip_numeric. by rewrite Hr, Hl. }
      rewrite Ascii.eqb_refl. unfold int_literal.
      rewrite (count_decimal_all _ Hdec).
      destruct (Z.ltb_spec INT_MAX_STR_DIGITS (Z.of_nat (String.length ds))); [lia|].
      rewrite (int_digits_isdigit true 0 ds (decimal_is_digit _ Hdec) Hne), Hdec.
      subst ds. rewrite digits_value_to_uint. simpl. f_equal. lia.
    + apply strip_clean. simpl. eapply all_chars_impl; [|exact (decimal_is_digit _ Hdec)].
      apply isdigit_not_space.
  - pose proof (str_of_Z_length n INT_MAX_STR_DIGITS ltac:(lia) ltac:(lia)) as Hlen.
    pose proof (isdigit_str_of_Z n Hpos) as Hd.
    pose proof (isdigit_zfill 2 _ Hd) as Hz.
    split.
    + rewrite (int_isdigit _ Hz). rewrite (zfill_digits _ _ Hd).
      rewrite count_decimal_app, count_decimal_zeros.
      rewrite (count_decimal_all _ (str_of_Z_decimal n Hpos)).
      destruct (Z.ltb_spec INT_MAX_STR_DIGITS
                  (Z.of_nat (2 - String.length (str_of_Z n))
                   + Z.of_nat (String.length (str_of_Z n)))); [lia|].
      rewrite all_chars_app, all_chars_zeros by done.
      rewrite (str_of_Z_decimal n Hpos). simpl. rewrite digits_value_zeros.
      unfold str_of_Z. destruct (Z.ltb_spec n 0); [lia|].
      rewrite digits_value_to_uint. f_equal. lia.
    + apply strip_clean. unfold isdigit in Hz. apply andb_true_iff in Hz as [_ Hz].
      eapply all_chars_impl; [apply isdigit_not_space | done].
Qed.

(** X29. [normalizar_area] is idempotent: a normalised code is left as it
    is, whether [int()] accepts the trimmed text, or it consists of digits
    that [int()] refuses (a superscript among them, or more than
    [INT_MAX_STR_DIGITS] of them), or neither. *)
Theorem X29_normalizar_area_idempotent area_val :
  normalizar_area (Some (normalizar_area area_val)) = normalizar_area area_val.
Proof.
  destruct area_val as [a|]; [|done].
  remember (normalizar_area (Some a)) as r eqn:Hr. unfold normalizar_area in Hr.
  destruct (int (strip a)) as [n|] eqn:Hint.
  - subst r. destruct (int_format_02d n (int_bound _ _ Hint)) as [Hi Hs].
    unfold normalizar_area. by rewrite Hs, Hi.
  - destruct (isdigit (strip a)) eqn:Hd; subst r.
    + pose proof (isdigit_zfill 2 _ Hd) as Hz.
      assert (strip (zfill 2 (strip a)) = zfill 2 (strip a)) as Hs.
      { apply strip_clean. pose proof Hz as Hz'. unfold isdigit in Hz'.
        apply andb_true_iff in Hz' as [_ Hz'].
        eapply all_chars_impl; [apply isdigit_not_space | done]. }
      unfold normalizar_area. rewrite Hs, Hz.
      rewrite (int_isdigit _ Hd) in Hint.
      assert (int (zfill 2 (strip a)) = None) as ->.
      { rewrite (int_isdigit _ Hz), (zfill_digits _ _ Hd).
        rewrite count_decimal_app, count_decimal_zeros, all_chars_app.
        destruct (Z.ltb_spec INT_MAX_STR_DIGITS (count_decimal (strip a))) as [Hlong|_].
        - destruct (Z.ltb_spec INT_MAX_STR_DIGITS
                      (Z.of_nat (2 - String.length (strip a)) + count_decimal (strip a)));
            [done|lia].
        - destruct (all_chars isdecimal (strip a)); [done|].
          rewrite andb_false_r. by destruct (_ <? _). }
      apply zfill_long. rewrite length_zfill. lia.
    + unfold normalizar_area. by rewrite strip_idem, Hint, Hd.
Qed.

Example normalizar_area_examples :
  normalizar_area (Some " +1 ") = "01" ∧ normalizar_area (Some "01") = "01" ∧
  normalizar_area (Some "-5") = "-5" ∧ normalizar_area (Some "1_0") = "10" ∧
  normalizar_area (Some "A") = "A".
Proof. split_and!; by vm_compute. Qed.

End IntegerProps.
